(** * Airline data warehouse: the ETL classification, cleansing and load core

    A shallow embedding of the JavaScript sources
    - [smartFileProcessor.js]  (class [SmartFileProcessor]),
    - [scripts/uploadAllSales.js]  (class [SalesUploader]),
    - [scripts/uploadPassengers.js],
    - the file readers of [scripts/uploadAirports.js],
    and the properties of the pipeline that are checked against them.

    Conventions of the embedding.
    - A JavaScript string is a [string]; the character-level builtins
      ([trim], [toLowerCase], [toUpperCase], the classes [\d] and [\s]) are
      modelled on the ASCII range, which is where the column names, keys and
      amounts of the data sets live.  On ASCII text (every character below
      128) they are the builtins of JavaScript; the properties that depend
      on the case mappings, on white space or on the length of a text are
      stated for ASCII text.
    - A value read from a parsed CSV row is [option string]: [None] is
      [undefined] (the column is missing), [Some s] a string.
    - A parsed CSV row is a finite map from column names to cell texts.
    - Calls to the remote store and to the local file system are answered by
      an oracle, so that every behaviour of the outside world is covered;
      the calls made are recorded in a trace.
    - Console output, the pacing delays between calls and the time stamps
      read from the clock have no part in the model; the rows of a file are
      given as a list, in file order. *)

From Stdlib Require Import ZArith List Bool Ascii String Lia.
From stdpp Require Import base option list strings gmap.

Local Open Scope string_scope.
Local Open Scope list_scope.

#[local] Set Warnings "-clear-no-such-hyp".

(** ** JavaScript string builtins *)

Module JS.

Definition chars (s : string) : list ascii := list_ascii_of_string s.
Definition str (l : list ascii) : string := string_of_list_ascii l.

Definition code (c : ascii) : nat := nat_of_ascii c.

(** [\d] *)
Definition is_digit (c : ascii) : bool :=
  (48 <=? code c)%nat && (code c <=? 57)%nat.

(** White space and line terminators, as removed by [trim] and matched by
    [\s] (ASCII range: TAB, LF, VT, FF, CR, SPACE). *)
Definition is_space (c : ascii) : bool :=
  ((9 <=? code c)%nat && (code c <=? 13)%nat) || (code c =? 32)%nat.

Definition lower_char (c : ascii) : ascii :=
  if (65 <=? code c)%nat && (code c <=? 90)%nat
  then ascii_of_nat (code c + 32) else c.

Definition upper_char (c : ascii) : ascii :=
  if (97 <=? code c)%nat && (code c <=? 122)%nat
  then ascii_of_nat (code c - 32) else c.

Definition toLowerCase (s : string) : string := str (map lower_char (chars s)).
Definition toUpperCase (s : string) : string := str (map upper_char (chars s)).

Fixpoint drop_while (p : ascii -> bool) (l : list ascii) : list ascii :=
  match l with
  | [] => []
  | c :: l' => if p c then drop_while p l' else l
  end.

Definition trim_chars (l : list ascii) : list ascii :=
  rev (drop_while is_space (rev (drop_while is_space l))).

Definition trim (s : string) : string := str (trim_chars (chars s)).

Fixpoint starts_with (pre l : list ascii) : bool :=
  match pre, l with
  | [], _ => true
  | _ :: _, [] => false
  | a :: pre', b :: l' => if Ascii.eqb a b then starts_with pre' l' else false
  end.

Definition startsWith (s pre : string) : bool := starts_with (chars pre) (chars s).

Fixpoint includes_chars (needle l : list ascii) : bool :=
  starts_with needle l ||
  match l with
  | [] => false
  | _ :: l' => includes_chars needle l'
  end.

(** [s.includes(needle)] on strings. *)
Definition includes (s needle : string) : bool :=
  includes_chars (chars needle) (chars s).

(** [arr.includes(x)] on arrays of strings. *)
Definition arr_includes (arr : list string) (x : string) : bool :=
  existsb (String.eqb x) arr.

(** [s.replace(/\D/g, '')] *)
Definition digits_of (s : string) : string := str (List.filter is_digit (chars s)).

(** [/\d/.test(s)] *)
Definition has_digit (s : string) : bool := existsb is_digit (chars s).

(** [s.slice(-n)]: the last [n] characters, the whole string when it is
    shorter. *)
Definition slice_last (n : nat) (s : string) : string :=
  str (skipn (List.length (chars s) - n) (chars s)).

(** [s.padStart(n, c)] for a one-character pad string. *)
Definition padStart (n : nat) (c : ascii) (s : string) : string :=
  str (repeat c (n - List.length (chars s)) ++ chars s).

(** [s.split(c)] for a one-character separator: never empty. *)
Fixpoint split_chars (sep : ascii) (cur : list ascii) (l : list ascii)
  : list (list ascii) :=
  match l with
  | [] => [rev cur]
  | c :: l' =>
      if Ascii.eqb c sep then rev cur :: split_chars sep [] l'
      else split_chars sep (c :: cur) l'
  end.

Definition split (sep : ascii) (s : string) : list string :=
  map str (split_chars sep [] (chars s)).

(** Truthiness of a value that is a string or [undefined]. *)
Definition truthy (v : option string) : bool :=
  match v with
  | Some s => negb (String.eqb s "")
  | None => false
  end.

(** [a || b] on such values. *)
Definition or (a b : option string) : option string :=
  if truthy a then a else b.

End JS.

(** ** JavaScript numbers, as far as amounts need them

    A number is an IEEE 754 binary64 value; [Fin neg m e] is
    [(-1)^neg * m * 2^e].  Decimal text is converted by rounding the exact
    rational to the nearest binary64 value, ties to even, all in integer
    arithmetic. *)

Module Num.
Local Open Scope Z_scope.

Inductive number :=
| NaN
| Inf (neg : bool)
| Fin (neg : bool) (m : Z) (e : Z).

Definition zero : number := Fin false 0 0.

Definition isNaN (x : number) : bool :=
  match x with NaN => true | _ => false end.

(** [2^l <= p / q], for [0 < p] and [0 < q]. *)
Definition ratio_ge_pow2 (p q l : Z) : bool :=
  if 0 <=? l then q * 2 ^ l <=? p else q <=? p * 2 ^ (- l).

(** The binary64 value nearest to [p / q], for [0 <= p] and [0 < q]. *)
Definition round_ratio (neg : bool) (p q : Z) : number :=
  if p =? 0 then Fin neg 0 0
  else
    let l := Z.log2 p - Z.log2 q in
    let fl := if ratio_ge_pow2 p q l then l else l - 1 in
    let e := Z.max (fl - 52) (-1074) in
    let N := if e <=? 0 then p * 2 ^ (- e) else p in
    let D := if e <=? 0 then q else q * 2 ^ e in
    let quot := N / D in
    let rem := N mod D in
    let m :=
      if 2 * rem <? D then quot
      else if D <? 2 * rem then quot + 1
      else if Z.even quot then quot else quot + 1 in
    let '(m, e) := if m =? 2 ^ 53 then (2 ^ 52, e + 1) else (m, e) in
    if 971 <? e then Inf neg
    else if m =? 0 then Fin neg 0 0
    else Fin neg m e.

Definition digit_value (c : ascii) : Z := Z.of_nat (JS.code c) - 48.

Fixpoint digits_value (acc : Z) (l : list ascii) : Z :=
  match l with
  | [] => acc
  | c :: l' => digits_value (10 * acc + digit_value c) l'
  end.

Fixpoint take_while (p : ascii -> bool) (l : list ascii) : list ascii :=
  match l with
  | [] => []
  | c :: l' => if p c then c :: take_while p l' else []
  end.

(** The longest prefix of [l] that is a decimal literal
    [digits], [digits.], [digits.digits] or [.digits], as its integer and
    fraction digits; [None] when there is none. *)
Definition decimal_prefix (l : list ascii) : option (list ascii * list ascii) :=
  let ip := take_while JS.is_digit l in
  let rest := JS.drop_while JS.is_digit l in
  let fp :=
    match rest with
    | "."%char :: rest' => take_while JS.is_digit rest'
    | _ => []
    end in
  match ip, fp with
  | [], [] => None
  | _, _ => Some (ip, fp)
  end.

(** [parseFloat] on a text made of digits, dots and signs (what is left of
    an amount after the noise is stripped): an optional sign, then the
    longest decimal literal; [NaN] when there is none. *)
Definition parseFloat (s : string) : number :=
  let l := JS.chars s in
  let '(neg, body) :=
    match l with
    | "-"%char :: l' => (true, l')
    | "+"%char :: l' => (false, l')
    | _ => (false, l)
    end in
  match decimal_prefix body with
  | None => NaN
  | Some (ip, fp) =>
      round_ratio neg (digits_value 0 (ip ++ fp)) (10 ^ Z.of_nat (List.length fp))
  end.

(** The integer [n] of [x.toFixed(2)]: [n / 100] is as close to [|x|] as
    possible, the larger [n] on a tie. *)
Definition hundredths (m e : Z) : Z :=
  if 0 <=? e then 100 * m * 2 ^ e
  else (200 * m + 2 ^ (- e)) / 2 ^ (1 - e).

(** [10^21 <= m * 2^e]: from there on [toFixed] prints the number itself. *)
Definition at_least_1e21 (m e : Z) : bool :=
  if 0 <=? e then 10 ^ 21 <=? m * 2 ^ e else 10 ^ 21 * 2 ^ (- e) <=? m.

(** [parseFloat(x.toFixed(2))] *)
Definition round2 (x : number) : number :=
  match x with
  | NaN => NaN
  | Inf neg => Inf neg
  | Fin neg m e =>
      if at_least_1e21 m e then x
      else round_ratio (neg && negb (m =? 0)) (hundredths m e) 100
  end.

(** The number written as the decimal [n / 100]. *)
Definition of_hundredths (n : Z) : number :=
  round_ratio (n <? 0) (Z.abs n) 100.

(** [parseInt(s)] in base 10 on a text without leading white space:
    an optional sign and the leading digits; [None] is [NaN]. *)
Definition parseInt (s : string) : option Z :=
  let l := JS.chars s in
  let '(neg, body) :=
    match l with
    | "-"%char :: l' => (true, l')
    | "+"%char :: l' => (false, l')
    | _ => (false, l)
    end in
  match take_while JS.is_digit body with
  | [] => None
  | ds => Some (if neg then - digits_value 0 ds else digits_value 0 ds)
  end.

End Num.

(** A parsed CSV row: [row.Column] is [row !! "Column"]. *)
Abbreviation Row := (gmap string string).

(** ** Canonical records and quarantine entries *)

Module Passenger.
Record t := {
  passenger_key : string;
  full_name : option string;
  email : string;
  loyalty_status : string
}.
End Passenger.

Module Airport.
Record t := {
  airport_key : string;
  airport_name : option string;
  city : option string;
  country : string
}.
End Airport.

Module Airline.
(** [alliance] is [null] or [undefined] when [None]. *)
Record t := {
  airline_key : option string;
  airline_name : option string;
  alliance : option string
}.
End Airline.

Module Flight.
Record t := {
  flight_key : string;
  origin_airport_key : string;
  destination_airport_key : string;
  aircraft_type : option string
}.
End Flight.

Module Sale.
(** [date_key] is [None] when [parseInt] gives [NaN]. *)
Record t := {
  transaction_id : string;
  date_key : option Z;
  passenger_key : string;
  flight_key : string;
  ticket_price : Num.number;
  taxes : Num.number;
  baggage_fees : Num.number;
  total_amount : Num.number;
  sales_source : string
}.
End Sale.

(** What a store call or a quarantine entry carries. *)
Inductive Payload :=
| PRow (r : Row)
| PPassenger (p : Passenger.t)
| PAirport (a : Airport.t)
| PAirline (a : Airline.t)
| PFlight (f : Flight.t)
| PSale (s : Sale.t).

(** [{ row, reason }], the rejection a processor of [SmartFileProcessor]
    returns. *)
Record DirtyItem := { row : Row; reason : string }.

(** A record of the [dirty_data] table.  The [created_at] time stamp, read
    from the clock, is not part of the model. *)
Record DirtyRecord := {
  source_table : string;
  original_data : Payload;
  error_reason : string
}.

(** ** The outside world

    The remote store and the local file system answer each call through an
    oracle indexed by the number of calls made so far; the world keeps the
    trace of calls and answers. *)

Module World.

Inductive Call :=
| Upsert (table : string) (records : list Payload) (onConflict : string)
| Insert (table : string) (records : list Payload)
| InsertDirty (records : list DirtyRecord)
| AppendFile (path : string) (batch : list DirtyRecord).

(** [ROk]: [{ error: null }]; [RError code message]: [{ error }] returned
    as a value; [RThrow message]: the call throws. *)
Inductive Reply :=
| ROk
| RError (code : option string) (message : string)
| RThrow (message : string).

Record t := {
  oracle : nat -> Reply;
  trace : list (Call * Reply)
}.

Definition init (o : nat -> Reply) : t := {| oracle := o; trace := [] |}.

(** The world after one more call [c]: the call and the answer of the oracle
    are added to the trace. *)
Definition after_call (w : t) (c : Call) : t :=
  {| oracle := oracle w;
     trace := trace w ++ [(c, oracle w (List.length (trace w)))] |}.

(** A computation returns a value or throws an error with a message. *)
Inductive Outcome (A : Type) :=
| Val (a : A)
| Exn (message : string).
Arguments Val {A} a.
Arguments Exn {A} message.

Definition M (A : Type) : Type := t -> Outcome A * t.

Definition ret {A} (a : A) : M A := fun w => (Val a, w).

Definition bind {A B} (m : M A) (k : A -> M B) : M B :=
  fun w =>
    match m w with
    | (Val a, w') => k a w'
    | (Exn msg, w') => (Exn msg, w')
    end.

Definition throw {A} (msg : string) : M A := fun w => (Exn msg, w).

(** [try { m } catch (error) { h error.message }] *)
Definition try_catch {A} (m : M A) (h : string -> M A) : M A :=
  fun w =>
    match m w with
    | (Val a, w') => (Val a, w')
    | (Exn msg, w') => h msg w'
    end.

(** The [error] object of a store answer. *)
Record Error := { code : option string; message : string }.

(** [const { error } = await supabase.from(..).upsert/insert(..)] *)
Definition store (c : Call) : M (option Error) :=
  fun w =>
    let r := oracle w (List.length (trace w)) in
    let w' := {| oracle := oracle w; trace := trace w ++ [(c, r)] |} in
    match r with
    | ROk => (Val None, w')
    | RError cd msg => (Val (Some {| code := cd; message := msg |}), w')
    | RThrow msg => (Exn msg, w')
    end.

(** [fs.appendFileSync(path, line)]: succeeds or throws. *)
Definition appendFileSync (path : string) (batch : list DirtyRecord) : M unit :=
  fun w =>
    let r := oracle w (List.length (trace w)) in
    let w' := {| oracle := oracle w;
                 trace := trace w ++ [(AppendFile path batch, r)] |} in
    match r with
    | ROk => (Val tt, w')
    | RError _ msg => (Exn msg, w')
    | RThrow msg => (Exn msg, w')
    end.

(** [error.code === '23505' || error.message.includes('duplicate')] *)
Definition is_conflict (e : Error) : bool :=
  match code e with
  | Some c => String.eqb c "23505"
  | None => false
  end || JS.includes (message e) "duplicate".

(** The slices [l.slice(i, i + n)] for [i = 0, n, 2n, ...] below the
    length of [l]. *)
Fixpoint batches_fuel {A} (fuel n : nat) (l : list A) : list (list A) :=
  match fuel, l with
  | 0%nat, _ => []
  | _, [] => []
  | S fuel', _ => firstn n l :: batches_fuel fuel' n (skipn n l)
  end.

Definition batches {A} (n : nat) (l : list A) : list (list A) :=
  batches_fuel (List.length l) n l.

End World.

Notation "'let*' x ':=' m 'in' k" := (World.bind m (fun x => k))
  (at level 10, x name, m at level 200, k at level 200).
Notation "m ';;' k" := (World.bind m (fun _ => k))
  (at level 100, k at level 200, right associativity).

(** ** smartFileProcessor.js: the signature registry and the classifier *)

Module SmartFileProcessor.

Record Signature := {
  requiredColumns : list string;
  optionalColumns : option (list string);
  amountColumns : option (list string);
  targetTable : string;
  processor : string;
  sourceType : option string
}.

(** [fileSignatures], in declaration order (the order of
    [Object.entries]). *)
Definition fileSignatures : list (string * Signature) :=
  [ ("passengers",
     {| requiredColumns := ["PassengerKey"; "FullName"];
        optionalColumns := Some ["Email"; "LoyaltyStatus"];
        amountColumns := None;
        targetTable := "dim_passenger";
        processor := "processPassengerData";
        sourceType := None |});
    ("airports",
     {| requiredColumns := ["AirportKey"; "AirportName"; "City"; "Country"];
        optionalColumns := None;
        amountColumns := None;
        targetTable := "dim_airport";
        processor := "processAirportData";
        sourceType := None |});
    ("airlines",
     {| requiredColumns := ["AirlineKey"; "AirlineName"];
        optionalColumns := Some ["Alliance"];
        amountColumns := None;
        targetTable := "dim_airline";
        processor := "processAirlineData";
        sourceType := None |});
    ("flights",
     {| requiredColumns := ["FlightKey"; "OriginAirportKey"; "DestinationAirportKey"];
        optionalColumns := Some ["AircraftType"];
        amountColumns := None;
        targetTable := "dim_flight";
        processor := "processFlightData";
        sourceType := None |});
    ("travel_agency_sales",
     {| requiredColumns := ["TransactionID"; "TransactionDate"; "PassengerID"; "FlightID"];
        optionalColumns := None;
        amountColumns := Some ["TicketPrice"; "Taxes"; "BaggageFees"; "TotalAmount"];
        targetTable := "fact_sales";
        processor := "processSalesData";
        sourceType := Some "travel_agency" |});
    ("corporate_sales",
     {| requiredColumns := ["TransactionID"; "DateKey"; "PassengerKey"; "FlightKey"];
        optionalColumns := None;
        amountColumns := Some ["TicketPrice"; "Taxes"; "BaggageFees"; "TotalAmount"];
        targetTable := "fact_sales";
        processor := "processSalesData";
        sourceType := Some "corporate" |}) ].

(** The test made on one registry entry inside the loop of
    [detectFileType]; [lowerHeaders] is what the source calls by that name,
    the headers after [trim] only. *)
Definition signature_passes (lowerHeaders : list string)
    (entry : string * Signature) : bool :=
  let '(fileType, signature) := entry in
  let hasRequired :=
    forallb (fun col => JS.arr_includes lowerHeaders (JS.toLowerCase col))
            (requiredColumns signature) in
  if JS.includes fileType "sales" then
    let hasAmountColumns :=
      match amountColumns signature with
      | Some cols =>
          existsb (fun col => JS.arr_includes lowerHeaders (JS.toLowerCase col)) cols
      | None => false
      end in
    hasRequired && hasAmountColumns
  else hasRequired.

Definition some_header_includes (headers : list string) (frag : string) : bool :=
  existsb (fun h => JS.includes (JS.toLowerCase h) frag) headers.

(** The substring fallback of [detectFileType]. *)
Definition fuzzy_match (headers : list string) : string :=
  if some_header_includes headers "passenger" then "passengers"
  else if some_header_includes headers "airport" then "airports"
  else if some_header_includes headers "airline" then "airlines"
  else if some_header_includes headers "flight" then "flights"
  else if some_header_includes headers "transaction" then
    if existsb (fun h => JS.includes (JS.toLowerCase h) "travel"
                         || JS.includes (JS.toLowerCase h) "agency") headers
    then "travel_agency_sales"
    else if existsb (fun h => JS.includes (JS.toLowerCase h) "corporate"
                              || JS.includes (JS.toLowerCase h) "datekey") headers
    then "corporate_sales"
    else "travel_agency_sales"
  else "unknown".

Definition detectFileType (headers : list string) : string :=
  let lowerHeaders := map JS.trim headers in
  match find (signature_passes lowerHeaders) fileSignatures with
  | Some (fileType, _) => fileType
  | None => fuzzy_match headers
  end.

(** The matching rule in the words of the specification: every required
    column is present in the header set, compared case-insensitively after
    trimming, and a sales-like signature also has one of its amount
    columns present. *)
Definition header_present_ci (headers : list string) (col : string) : bool :=
  existsb (fun h => String.eqb (JS.toLowerCase (JS.trim h)) (JS.toLowerCase col))
          headers.

Definition spec_signature_matches (headers : list string)
    (entry : string * Signature) : bool :=
  let '(fileType, signature) := entry in
  forallb (header_present_ci headers) (requiredColumns signature)
  && match amountColumns signature with
     | Some cols => existsb (header_present_ci headers) cols
     | None => true
     end.

Definition spec_matching_types (headers : list string) : list string :=
  map fst (List.filter (spec_signature_matches headers) fileSignatures).

(** *** Row standardizers *)

(** [standardizePassengerKey]: the input must be a non-empty string that
    contains the letter [P]. *)
Definition standardizePassengerKey (inputKey : option string) : option string :=
  match inputKey with
  | None => None
  | Some k =>
      if String.eqb k "" then None
      else if negb (JS.includes k "P") then None
      else
        let numbers := JS.digits_of k in
        if (String.length numbers <? 3)%nat then None
        else Some ("P" +:+ JS.padStart 3 "0" (JS.slice_last 3 numbers))
  end.

(** [/^[^\s@]+@[^\s@]+\.[^\s@]+$/.test(s)]: no white space, exactly one
    [@] with a non-empty local part, and in the domain a dot that is
    neither its first nor its last character. *)
Definition inner_dot (d : list ascii) : bool :=
  match d with
  | [] => false
  | _ :: d' => existsb (Ascii.eqb ".") (removelast d')
  end.

Definition emailRegex_test (s : string) : bool :=
  let l := JS.chars s in
  negb (existsb JS.is_space l)
  && match JS.split_chars "@" [] l with
     | [a; d] => negb (Nat.eqb (List.length a) 0) && inner_dot d
     | _ => false
     end.

Definition standardizeEmail (fullName existingEmail : option string) : string :=
  if JS.truthy existingEmail
     && match existingEmail with Some e => emailRegex_test e | None => false end
  then match existingEmail with Some e => JS.toLowerCase e | None => "" end
  else
    let names :=
      match fullName with
      | Some n => JS.split " " (JS.trim n)
      | None => []
      end in
    let firstName :=
      match names with
      | n0 :: _ => if String.eqb (JS.toLowerCase n0) "" then "user" else JS.toLowerCase n0
      | [] => "user"
      end in
    let lastName :=
      if (1 <? List.length names)%nat
      then JS.toLowerCase (List.last names "") else "" in
    if negb (String.eqb lastName "")
    then firstName +:+ "." +:+ lastName +:+ "@example.com"
    else firstName +:+ "@example.com".

Definition processPassengerRow (r : Row) : Passenger.t + DirtyItem :=
  match standardizePassengerKey (r !! "PassengerKey") with
  | None => inr {| row := r; reason := "Invalid passenger key" |}
  | Some passengerKey =>
      let email := standardizeEmail (r !! "FullName") (r !! "Email") in
      inl {| Passenger.passenger_key := passengerKey;
             Passenger.full_name := JS.trim <$> (r !! "FullName");
             Passenger.email := email;
             Passenger.loyalty_status :=
               match JS.trim <$> (r !! "LoyaltyStatus") with
               | Some l => if String.eqb l "" then "Bronze" else l
               | None => "Bronze"
               end |}
  end.

(** What a processor returns: [{ cleanData, dirtyData }]. *)
Record Processed := { cleanData : list Payload; dirtyData : list DirtyItem }.

(** The loop shared by the processors: each row is either pushed on
    [cleanData] or on [dirtyData]. *)
Definition collect {A} (wrap : A -> Payload) (f : Row -> A + DirtyItem)
    (data : list Row) : Processed :=
  fold_left
    (fun acc r =>
       match f r with
       | inl c => {| cleanData := cleanData acc ++ [wrap c]; dirtyData := dirtyData acc |}
       | inr d => {| cleanData := cleanData acc; dirtyData := dirtyData acc ++ [d] |}
       end)
    data {| cleanData := []; dirtyData := [] |}.

Definition processPassengerData (data : list Row) : Processed :=
  collect PPassenger processPassengerRow data.

(** The local [standardize] of [processSalesData]; [String(undefined)] is
    the text [undefined]. *)
Definition is_amount_char (c : ascii) : bool :=
  JS.is_digit c || Ascii.eqb c "." || Ascii.eqb c "-".

Definition standardize (amount : option string) : Num.number :=
  let text := match amount with Some s => s | None => "undefined" end in
  let num := Num.parseFloat (JS.str (List.filter is_amount_char (JS.chars text))) in
  if Num.isNaN num then Num.zero else Num.round2 num.

(** [processAirlineData]: rows without an airline key are filtered out and
    [dirtyData] is the empty array. *)
Definition airline_of_row (r : Row) : Airline.t :=
  {| Airline.airline_key := JS.toUpperCase <$> (JS.trim <$> (r !! "AirlineKey"));
     Airline.airline_name := JS.trim <$> (r !! "AirlineName");
     Airline.alliance :=
       match JS.trim <$> (r !! "Alliance") with
       | Some a => if String.eqb a "N/A" then None else Some a
       | None => None
       end |}.

Definition processAirlineData (data : list Row) : Processed :=
  {| cleanData :=
       map PAirline
         (List.filter (fun a => JS.truthy (Airline.airline_key a))
                      (map airline_of_row data));
     dirtyData := [] |}.

Definition processFlightRow (r : Row) : Flight.t + DirtyItem :=
  let flightKey := JS.trim <$> (r !! "FlightKey") in
  let origin := JS.toUpperCase <$> (JS.trim <$> (r !! "OriginAirportKey")) in
  let destination := JS.toUpperCase <$> (JS.trim <$> (r !! "DestinationAirportKey")) in
  match flightKey, origin, destination with
  | Some fk, Some o, Some d =>
      if negb (String.eqb fk "") && negb (String.eqb o "") && negb (String.eqb d "")
      then inl {| Flight.flight_key := fk;
                  Flight.origin_airport_key := o;
                  Flight.destination_airport_key := d;
                  Flight.aircraft_type := JS.trim <$> (r !! "AircraftType") |}
      else inr {| row := r; reason := "Missing required flight data" |}
  | _, _, _ => inr {| row := r; reason := "Missing required flight data" |}
  end.

Definition processFlightData (data : list Row) : Processed :=
  collect PFlight processFlightRow data.

Definition getConflictColumn (tableName : string) : string :=
  if String.eqb tableName "dim_passenger" then "passenger_key"
  else if String.eqb tableName "dim_airport" then "airport_key"
  else if String.eqb tableName "dim_airline" then "airline_key"
  else if String.eqb tableName "dim_flight" then "flight_key"
  else if String.eqb tableName "fact_sales" then "transaction_id"
  else "id".

(** [saveDirtyData]: one insert into [dirty_data]; the answer of the store
    is not looked at. *)
Definition saveDirtyData (dirtyRows : list DirtyItem) (sourceTable : string)
  : World.M unit :=
  let dirtyRecords :=
    map (fun item => {| source_table := sourceTable;
                        original_data := PRow (row item);
                        error_reason := reason item |}) dirtyRows in
  if (0 <? List.length dirtyRecords)%nat
  then let* _ := World.store (World.InsertDirty dirtyRecords) in World.ret tt
  else World.ret tt.

(** What [processFile] returns: the summary of a processed file, or
    [{ success: false, error }]. *)
Inductive FileResult :=
| Succeeded (fileType : string) (totalRecords cleanRecords dirtyRecords : nat)
| Failed (error : string).

Section Runtime.

(** [isoDateOf x] is the date part of [new Date(x).toISOString()], and
    [None] when [new Date(x)] is an invalid date.  The permissive date
    parser belongs to the JavaScript runtime. *)
Variable isoDateOf : option string -> option string.

(** [processAirportData], whose country lookups query the store. *)
Variable processAirportData : list Row -> World.M Processed.

Definition standardizeDate (dateStr : option string) : option string :=
  isoDateOf dateStr.

Definition remove_dashes (s : string) : string :=
  JS.str (List.filter (fun c => negb (Ascii.eqb c "-")) (JS.chars s)).

(** One iteration of the loop of [processSalesData].  A missing
    [TransactionID] makes [transId.replace] throw; the [catch] turns the
    error into a rejection. *)
Definition processSalesRow (sourceType : string) (r : Row) : Sale.t + DirtyItem :=
  let passengerKey := JS.or (r !! "PassengerID") (r !! "PassengerKey") in
  match standardizePassengerKey passengerKey with
  | None => inr {| row := r; reason := "Invalid passenger key" |}
  | Some standardizedKey =>
      let flightKey := JS.or (r !! "FlightID") (r !! "FlightKey") in
      if negb (JS.truthy flightKey)
      then inr {| row := r; reason := "Missing flight key" |}
      else
        let dateStr := JS.or (r !! "TransactionDate") (r !! "DateKey") in
        match standardizeDate dateStr with
        | None => inr {| row := r; reason := "Invalid date" |}
        | Some date =>
            let dateKey := Num.parseInt (remove_dashes date) in
            match JS.trim <$> (r !! "TransactionID") with
            | None =>
                inr {| row := r;
                       reason := "Processing error: " +:+
                         "Cannot read properties of undefined (reading 'replace')" |}
            | Some transId =>
                let transactionId :=
                  if String.eqb sourceType "travel_agency"
                  then "TA" +:+ JS.padStart 6 "0" (JS.digits_of transId)
                  else "CO" +:+ JS.padStart 6 "0" (JS.digits_of transId) in
                inl {| Sale.transaction_id := transactionId;
                       Sale.date_key := dateKey;
                       Sale.passenger_key := standardizedKey;
                       Sale.flight_key := default "" flightKey;
                       Sale.ticket_price := standardize (r !! "TicketPrice");
                       Sale.taxes := standardize (r !! "Taxes");
                       Sale.baggage_fees := standardize (r !! "BaggageFees");
                       Sale.total_amount := standardize (r !! "TotalAmount");
                       Sale.sales_source := sourceType |}
            end
        end
  end.

Definition processSalesData (data : list Row) (sourceType : string) : Processed :=
  collect PSale (processSalesRow sourceType) data.

(** [this.fileSignatures[fileType]] *)
Definition signature_of (fileType : string) : option Signature :=
  snd <$> find (fun e => String.eqb (fst e) fileType) fileSignatures.

Fixpoint join (sep : string) (l : list string) : string :=
  match l with
  | [] => ""
  | [x] => x
  | x :: l' => x +:+ sep +:+ join sep l'
  end.

(** [processFile], given the header row and the data rows read from the
    file.  The six file types that reach the store all have a signature, so
    the access to [signature.targetTable] does not fail for them. *)
Definition processFile (headers : list string) (data : list Row)
  : World.M FileResult :=
  World.try_catch
    (let fileType := detectFileType headers in
     if String.eqb fileType "unknown"
     then World.throw ("Cannot detect file type. Headers: " +:+ join ", " headers)
     else
       let* result :=
         (if String.eqb fileType "passengers" then World.ret (processPassengerData data)
          else if String.eqb fileType "airports" then processAirportData data
          else if String.eqb fileType "airlines" then World.ret (processAirlineData data)
          else if String.eqb fileType "flights" then World.ret (processFlightData data)
          else if String.eqb fileType "travel_agency_sales"
            then World.ret (processSalesData data "travel_agency")
          else if String.eqb fileType "corporate_sales"
            then World.ret (processSalesData data "corporate")
          else World.throw ("No processor for file type: " +:+ fileType)) in
       match signature_of fileType with
       | None => World.throw "Cannot read properties of undefined (reading 'targetTable')"
       | Some signature =>
           (if (0 <? List.length (cleanData result))%nat
            then
              let* error :=
                World.store (World.Upsert (targetTable signature) (cleanData result)
                               (getConflictColumn (targetTable signature))) in
              match error with
              | Some e => World.throw (World.message e)
              | None => World.ret tt
              end
            else World.ret tt) ;;
           (if (0 <? List.length (dirtyData result))%nat
            then saveDirtyData (dirtyData result) fileType
            else World.ret tt) ;;
           World.ret (Succeeded fileType (List.length data)
                        (List.length (cleanData result))
                        (List.length (dirtyData result)))
       end)
    (fun msg => World.ret (Failed msg)).

End Runtime.

End SmartFileProcessor.

(** ** scripts/uploadAllSales.js *)

Module SalesUploader.

Definition standardizePassengerKey (inputKey : option string) : option string :=
  match inputKey with
  | None => None
  | Some k =>
      if String.eqb k "" then None
      else if negb (JS.includes k "P") then None
      else
        let numbersOnly := JS.digits_of k in
        if (String.length numbersOnly <? 3)%nat then None
        else Some ("P" +:+ JS.padStart 3 "0" (JS.slice_last 3 numbersOnly))
  end.

(** The argument of [standardizeAmount]: a cell of the row, or the number
    [0] of [row.Taxes || 0]. *)
Inductive AmountArg :=
| AUndefined
| AString (s : string)
| AZero.

(** [v || 0] *)
Definition or_zero (v : option string) : AmountArg :=
  match v with
  | Some s => if String.eqb s "" then AZero else AString s
  | None => AZero
  end.

Definition of_cell (v : option string) : AmountArg :=
  match v with
  | Some s => AString s
  | None => AUndefined
  end.

(** [/[^\d.]/g] keeps digits and dots. *)
Definition is_amount_char (c : ascii) : bool :=
  JS.is_digit c || Ascii.eqb c ".".

Definition standardizeAmount (amount : AmountArg) : Num.number :=
  match amount with
  | AUndefined => Num.zero
  | AZero => Num.zero
  | AString s =>
      if String.eqb s "" then Num.zero
      else
        let clean := JS.str (List.filter is_amount_char (JS.chars s)) in
        let parsed := Num.parseFloat clean in
        if Num.isNaN parsed then Num.zero else Num.round2 parsed
  end.

(** The accumulators of [processSalesFile]. *)
Record FileState := {
  sales : list Sale.t;
  dirtyRows : list DirtyRecord;
  seenTransactionIds : gset string
}.

Definition reject (st : FileState) (seen : gset string) (sourceType : string)
    (r : Row) (why : string) : FileState :=
  {| sales := sales st;
     dirtyRows := dirtyRows st ++
       [{| source_table := sourceType; original_data := PRow r; error_reason := why |}];
     seenTransactionIds := seen |}.

Section Runtime.

(** See [SmartFileProcessor.standardizeDate]. *)
Variable isoDateOf : option string -> option string.

Definition standardizeDate (dateStr : option string) : option string :=
  isoDateOf dateStr.

(** The synthesized transaction ID of a row. *)
Definition transactionId_of (sourceType : string) (r : Row) : string :=
  let originalTransactionId := JS.trim <$> (r !! "TransactionID") in
  let numbers :=
    match JS.digits_of <$> originalTransactionId with
    | Some n => if String.eqb n "" then "0" else n
    | None => "0"
    end in
  if String.eqb sourceType "travel_agency"
  then "TA" +:+ JS.padStart 6 "0" numbers
  else "CO" +:+ JS.padStart 6 "0" numbers.

(** The ['data'] handler of [processSalesFile]. *)
Definition on_data (sourceType : string) (st : FileState) (r : Row) : FileState :=
  let transactionId := transactionId_of sourceType r in
  if decide (transactionId ∈ seenTransactionIds st) then
    reject st (seenTransactionIds st) sourceType r
           ("Duplicate transaction ID within file: " +:+ transactionId)
  else
    let seen := seenTransactionIds st ∪ {[ transactionId ]} in
    match standardizePassengerKey (JS.or (r !! "PassengerID") (r !! "PassengerKey")) with
    | None => reject st seen sourceType r "Invalid passenger key"
    | Some passengerKey =>
        let flightKey := JS.or (r !! "FlightID") (r !! "FlightKey") in
        if negb (JS.truthy flightKey)
        then reject st seen sourceType r "Missing flight key"
        else
          match standardizeDate (JS.or (r !! "TransactionDate") (r !! "DateKey")) with
          | None => reject st seen sourceType r "Invalid date"
          | Some standardizedDate =>
              let dateKey :=
                Num.parseInt (SmartFileProcessor.remove_dashes standardizedDate) in
              if negb (JS.truthy (r !! "TicketPrice"))
              then reject st seen sourceType r "Missing ticket price"
              else
                {| sales := sales st ++
                     [{| Sale.transaction_id := transactionId;
                         Sale.date_key := dateKey;
                         Sale.passenger_key := passengerKey;
                         Sale.flight_key := default "" flightKey;
                         Sale.ticket_price := standardizeAmount (of_cell (r !! "TicketPrice"));
                         Sale.taxes := standardizeAmount (or_zero (r !! "Taxes"));
                         Sale.baggage_fees := standardizeAmount (or_zero (r !! "BaggageFees"));
                         Sale.total_amount := standardizeAmount (of_cell (r !! "TotalAmount"));
                         Sale.sales_source := sourceType |}];
                   dirtyRows := dirtyRows st;
                   seenTransactionIds := seen |}
          end
    end.

Definition empty_file : FileState :=
  {| sales := []; dirtyRows := []; seenTransactionIds := ∅ |}.

(** [processSalesFile] on the rows of the file, in file order. *)
Definition processSalesFile (rows : list Row) (sourceType : string) : FileState :=
  fold_left (on_data sourceType) rows empty_file.

End Runtime.

(** *** Duplicates across files *)

Record DedupState := {
  seenIds : gset string;
  finalSales : list Sale.t;
  crossFileDuplicates : list DirtyRecord
}.

(** The body of [for (const sale of allSales)]. *)
Definition dedup_step (st : DedupState) (sale : Sale.t) : DedupState :=
  if decide (Sale.transaction_id sale ∈ seenIds st) then
    {| seenIds := seenIds st;
       finalSales := finalSales st;
       crossFileDuplicates := crossFileDuplicates st ++
         [{| source_table := Sale.sales_source sale;
             original_data := PSale sale;
             error_reason := "Duplicate transaction ID across files: " +:+
                             Sale.transaction_id sale |}] |}
  else
    {| seenIds := seenIds st ∪ {[ Sale.transaction_id sale ]};
       finalSales := finalSales st ++ [sale];
       crossFileDuplicates := crossFileDuplicates st |}.

Definition dedup_init : DedupState :=
  {| seenIds := ∅; finalSales := []; crossFileDuplicates := [] |}.

Definition dedup (allSales : list Sale.t) : DedupState :=
  fold_left dedup_step allSales dedup_init.

(** *** The load loop *)

(** The counters and the quarantine list that the load loop updates. *)
Record LoadState := {
  uploaded : nat;
  errors : nat;
  skippedDuplicates : nat;
  allDirty : list DirtyRecord
}.

Definition upsert_sales (batch : list Sale.t) : World.M (option World.Error) :=
  World.store (World.Upsert "fact_sales" (map PSale batch) "transaction_id").

(** The body of [for (const sale of batch)], with its own [try]/[catch].
    The store call is the first statement of the [try] block, so nothing
    has been updated when the [catch] runs. *)
Definition upload_one (st : LoadState) (sale : Sale.t) : World.M LoadState :=
  World.try_catch
    (let* singleError := upsert_sales [sale] in
     match singleError with
     | Some e =>
         if World.is_conflict e then
           World.ret
             {| uploaded := uploaded st; errors := errors st;
                skippedDuplicates := S (skippedDuplicates st);
                allDirty := allDirty st ++
                  [{| source_table := Sale.sales_source sale;
                      original_data := PSale sale;
                      error_reason := "Transaction ID already exists in database: " +:+
                                      Sale.transaction_id sale |}] |}
         else
           World.ret
             {| uploaded := uploaded st; errors := S (errors st);
                skippedDuplicates := skippedDuplicates st;
                allDirty := allDirty st ++
                  [{| source_table := Sale.sales_source sale;
                      original_data := PSale sale;
                      error_reason := "Upload failed: " +:+ World.message e |}] |}
     | None =>
         World.ret
           {| uploaded := S (uploaded st); errors := errors st;
              skippedDuplicates := skippedDuplicates st; allDirty := allDirty st |}
     end)
    (fun _ =>
       World.ret
         {| uploaded := uploaded st; errors := S (errors st);
            skippedDuplicates := skippedDuplicates st; allDirty := allDirty st |}).

Fixpoint upload_each (st : LoadState) (batch : list Sale.t) : World.M LoadState :=
  match batch with
  | [] => World.ret st
  | sale :: rest => let* st' := upload_one st sale in upload_each st' rest
  end.

(** One iteration of the batch loop. *)
Definition upload_batch (st : LoadState) (batch : list Sale.t) : World.M LoadState :=
  World.try_catch
    (let* error := upsert_sales batch in
     match error with
     | Some _ => upload_each st batch
     | None =>
         World.ret
           {| uploaded := uploaded st + List.length batch; errors := errors st;
              skippedDuplicates := skippedDuplicates st; allDirty := allDirty st |}
     end)
    (fun _ =>
       World.ret
         {| uploaded := uploaded st; errors := errors st + List.length batch;
            skippedDuplicates := skippedDuplicates st; allDirty := allDirty st |}).

Fixpoint upload_batches (st : LoadState) (bs : list (list Sale.t)) : World.M LoadState :=
  match bs with
  | [] => World.ret st
  | batch :: rest => let* st' := upload_batch st batch in upload_batches st' rest
  end.

Definition batchSize : nat := 100.
Definition dirtyBatchSize : nat := 100.

(** The load engine: [finalSales] in batches of [batchSize]. *)
Definition upload_clean (allDirty0 : list DirtyRecord) (finalSales : list Sale.t)
  : World.M LoadState :=
  upload_batches
    {| uploaded := 0; errors := 0; skippedDuplicates := 0; allDirty := allDirty0 |}
    (World.batches batchSize finalSales).

(** *** Saving the quarantine *)

(** One iteration of the loop that saves [allDirty]: the insert, and the
    local backup line when the insert answers with an error. *)
Definition save_dirty_batch (dirtySaved : nat) (batch : list DirtyRecord)
  : World.M nat :=
  let* error := World.store (World.InsertDirty batch) in
  match error with
  | Some _ =>
      World.appendFileSync "dirty_sales_backup.json" batch ;;
      World.ret dirtySaved
  | None => World.ret (dirtySaved + List.length batch)
  end.

Fixpoint save_dirty_batches (dirtySaved : nat) (bs : list (list DirtyRecord))
  : World.M nat :=
  match bs with
  | [] => World.ret dirtySaved
  | batch :: rest =>
      let* n := save_dirty_batch dirtySaved batch in save_dirty_batches n rest
  end.

Definition save_dirty (allDirty : list DirtyRecord) : World.M nat :=
  save_dirty_batches 0 (World.batches dirtyBatchSize allDirty).

(** What a run leaves behind: the records sent to the load loop, the final
    counters and quarantine list, and the number of quarantine records the
    store accepted. *)
Record Summary := {
  clean : list Sale.t;
  load : LoadState;
  dirtySaved : nat
}.

(** [uploadAllSales], given the rows of the travel-agency file and of the
    corporate file.  An [Exn] outcome is the fatal error of the script. *)
Definition uploadAllSales (isoDateOf : option string -> option string)
    (travelRows corporateRows : list Row) : World.M Summary :=
  let travel := processSalesFile isoDateOf travelRows "travel_agency" in
  let corporate := processSalesFile isoDateOf corporateRows "corporate" in
  let allSales := sales travel ++ sales corporate in
  let allDirty0 := dirtyRows travel ++ dirtyRows corporate in
  let d := dedup allSales in
  let allDirty1 := allDirty0 ++ crossFileDuplicates d in
  let* st :=
    (if (0 <? List.length (finalSales d))%nat
     then upload_clean allDirty1 (finalSales d)
     else World.ret {| uploaded := 0; errors := 0; skippedDuplicates := 0;
                       allDirty := allDirty1 |}) in
  let* saved :=
    (if (0 <? List.length (allDirty st))%nat
     then save_dirty (allDirty st)
     else World.ret 0%nat) in
  World.ret {| clean := finalSales d; load := st; dirtySaved := saved |}.

End SalesUploader.

(** ** scripts/uploadPassengers.js *)

Module PassengerUploader.

Definition standardizePassengerKey (inputKey : option string) : option string :=
  match inputKey with
  | None => None
  | Some k =>
      if String.eqb k "" then None
      else
        let inputKey := JS.trim k in
        if JS.startsWith inputKey "P" && JS.has_digit inputKey then
          let numbersOnly := JS.digits_of inputKey in
          if (String.length numbersOnly <? 3)%nat then None
          else
            let lastThree := JS.slice_last 3 numbersOnly in
            Some ("P" +:+ JS.padStart 3 "0" lastThree)
        else if JS.has_digit inputKey then
          let numbersOnly := JS.digits_of inputKey in
          if (String.length numbersOnly <? 3)%nat then None
          else
            let lastThree := JS.slice_last 3 numbersOnly in
            Some ("P" +:+ JS.padStart 3 "0" lastThree)
        else None
  end.

Definition standardizeLoyaltyStatus (status : option string) : string :=
  match status with
  | None => "Bronze"
  | Some st =>
      if String.eqb st "" then "Bronze"
      else
        let upperStatus := JS.toUpperCase (JS.trim st) in
        if JS.includes upperStatus "PLATINUM" || String.eqb upperStatus "PLAT" then "Platinum"
        else if JS.includes upperStatus "GOLD" || String.eqb upperStatus "GOLD" then "Gold"
        else if JS.includes upperStatus "SILVER" || String.eqb upperStatus "SILV" then "Silver"
        else if JS.includes upperStatus "BRONZE" || String.eqb upperStatus "BRNZ" then "Bronze"
        else "Bronze"
  end.

Definition standardizeEmail (fullName : string) (existingEmail : option string)
  : string :=
  if JS.truthy existingEmail
     && match existingEmail with
        | Some e => SmartFileProcessor.emailRegex_test e
        | None => false
        end
  then match existingEmail with Some e => JS.toLowerCase e | None => "" end
  else
    let names := JS.split " " (JS.trim fullName) in
    let firstName := JS.toLowerCase (List.hd "" names) in
    let lastName :=
      if (1 <? List.length names)%nat
      then JS.toLowerCase (List.last names "") else "" in
    if negb (String.eqb lastName "")
    then firstName +:+ "." +:+ lastName +:+ "@example.com"
    else firstName +:+ "@example.com".

(** [saveToDirtyTable]: one insert into [dirty_data]; a failure is logged
    and answered with [false]. *)
Definition saveToDirtyTable (rowData : Payload) (errorReason : string)
  : World.M bool :=
  World.try_catch
    (let* error :=
       World.store (World.InsertDirty
         [{| source_table := "passengers";
             original_data := rowData;
             error_reason := errorReason |}]) in
     match error with
     | Some _ => World.ret false
     | None => World.ret true
     end)
    (fun _ => World.ret false).

(** A value of [passengerMap]. *)
Record Entry := {
  rowNumber : nat;
  originalKey : option string;
  data : Passenger.t
}.

(** The accumulators of step 2.  [passengerMap] is kept in insertion
    order, the order of [passengerMap.values()]. *)
Record ScanState := {
  passengerMap : list (string * Entry);
  duplicates : list (nat * string);
  invalidKeys : list (nat * option string)
}.

Definition map_has (m : list (string * Entry)) (k : string) : bool :=
  existsb (fun e => String.eqb (fst e) k) m.

(** The clean record built from a row whose key standardizes to
    [standardizedKey]. *)
Definition passenger_of_row (standardizedKey : string) (r : Row) : Passenger.t :=
  let fullName :=
    match JS.trim <$> (r !! "FullName") with
    | Some n => if String.eqb n "" then "Unknown" else n
    | None => "Unknown"
    end in
  {| Passenger.passenger_key := standardizedKey;
     Passenger.full_name := Some fullName;
     Passenger.email := standardizeEmail fullName (JS.trim <$> (r !! "Email"));
     Passenger.loyalty_status := standardizeLoyaltyStatus (r !! "LoyaltyStatus") |}.

(** The body of the loop of step 2, for row [i] (counted from 0). *)
Definition scan_row (st : ScanState) (i : nat) (r : Row) : World.M ScanState :=
  let originalKey := JS.trim <$> (r !! "PassengerKey") in
  match standardizePassengerKey originalKey with
  | None =>
      let* _ := saveToDirtyTable (PRow r)
                  ("Invalid passenger key format: " +:+ default "undefined" originalKey) in
      World.ret {| passengerMap := passengerMap st;
                   duplicates := duplicates st;
                   invalidKeys := invalidKeys st ++ [(S i, originalKey)] |}
  | Some standardizedKey =>
      if map_has (passengerMap st) standardizedKey then
        let* _ := saveToDirtyTable (PRow r)
                    ("Duplicate passenger key: " +:+ standardizedKey) in
        World.ret {| passengerMap := passengerMap st;
                     duplicates := duplicates st ++ [(S i, standardizedKey)];
                     invalidKeys := invalidKeys st |}
      else
        World.ret
          {| passengerMap := passengerMap st ++
               [(standardizedKey,
                 {| rowNumber := S i; originalKey := originalKey;
                    data := passenger_of_row standardizedKey r |})];
             duplicates := duplicates st;
             invalidKeys := invalidKeys st |}
  end.

(** The accumulators before the first row. *)
Definition scan_init : ScanState :=
  {| passengerMap := []; duplicates := []; invalidKeys := [] |}.

Fixpoint scan_rows (st : ScanState) (i : nat) (rows : list Row) : World.M ScanState :=
  match rows with
  | [] => World.ret st
  | r :: rest => let* st' := scan_row st i r in scan_rows st' (S i) rest
  end.

(** The counters of step 3. *)
Record LoadState := {
  uploaded : nat;
  errors : nat;
  alreadyExist : nat;
  failedPassengers : list string
}.

Definition insert_passengers (batch : list Passenger.t) : World.M (option World.Error) :=
  World.store (World.Insert "dim_passenger" (map PPassenger batch)).

(** The body of [for (const passenger of batch)] in the individual
    fallback. *)
Definition insert_one (st : LoadState) (passenger : Passenger.t) : World.M LoadState :=
  let failed (reason : string) :=
    let* _ := saveToDirtyTable (PPassenger passenger) reason in
    World.ret {| uploaded := uploaded st; errors := S (errors st);
                 alreadyExist := alreadyExist st;
                 failedPassengers := failedPassengers st ++
                                     [Passenger.passenger_key passenger] |} in
  fun w =>
    match insert_passengers [passenger] w with
    | (World.Val (Some e), w') =>
        if World.is_conflict e then
          (World.Val {| uploaded := uploaded st; errors := errors st;
                        alreadyExist := S (alreadyExist st);
                        failedPassengers := failedPassengers st |}, w')
        else failed ("Upload failed: " +:+ World.message e) w'
    | (World.Val None, w') =>
        (World.Val {| uploaded := S (uploaded st); errors := errors st;
                      alreadyExist := alreadyExist st;
                      failedPassengers := failedPassengers st |}, w')
    | (World.Exn msg, w') => failed ("Upload error: " +:+ msg) w'
    end.

Fixpoint insert_each (st : LoadState) (batch : list Passenger.t) : World.M LoadState :=
  match batch with
  | [] => World.ret st
  | p :: rest => let* st' := insert_one st p in insert_each st' rest
  end.

(** [for (const passenger of batch)] of the branch for a batch error that
    is not a conflict; [errors += batch.length] follows the loop. *)
Fixpoint quarantine_each (st : LoadState) (msg : string) (batch : list Passenger.t)
  : World.M LoadState :=
  match batch with
  | [] => World.ret st
  | p :: rest =>
      let* _ := saveToDirtyTable (PPassenger p) ("Batch upload failed: " +:+ msg) in
      quarantine_each
        {| uploaded := uploaded st; errors := errors st;
           alreadyExist := alreadyExist st;
           failedPassengers := failedPassengers st ++ [Passenger.passenger_key p] |}
        msg rest
  end.

(** One iteration of the batch loop of step 3. *)
Definition insert_batch (st : LoadState) (batch : list Passenger.t) : World.M LoadState :=
  World.try_catch
    (let* error := insert_passengers batch in
     match error with
     | Some e =>
         if World.is_conflict e then insert_each st batch
         else
           let* st' := quarantine_each st (World.message e) batch in
           World.ret {| uploaded := uploaded st';
                        errors := errors st' + List.length batch;
                        alreadyExist := alreadyExist st';
                        failedPassengers := failedPassengers st' |}
     | None =>
         World.ret {| uploaded := uploaded st + List.length batch; errors := errors st;
                      alreadyExist := alreadyExist st;
                      failedPassengers := failedPassengers st |}
     end)
    (fun _ =>
       World.ret {| uploaded := uploaded st; errors := errors st + List.length batch;
                    alreadyExist := alreadyExist st;
                    failedPassengers := failedPassengers st |}).

Fixpoint insert_batches (st : LoadState) (bs : list (list Passenger.t))
  : World.M LoadState :=
  match bs with
  | [] => World.ret st
  | batch :: rest => let* st' := insert_batch st batch in insert_batches st' rest
  end.

Definition batchSize : nat := 20.

Definition upload_clean (uniquePassengers : list Passenger.t) : World.M LoadState :=
  insert_batches
    {| uploaded := 0; errors := 0; alreadyExist := 0; failedPassengers := [] |}
    (World.batches batchSize uniquePassengers).

(** [uploadPassengers], given the rows of the file; the closing count
    queries, which are only logged, are left out. *)
Definition uploadPassengers (rawRows : list Row)
  : World.M (ScanState * option LoadState) :=
  let* scan := scan_rows scan_init 0 rawRows in
  let uniquePassengers := map (fun e => data (snd e)) (passengerMap scan) in
  if (0 <? List.length uniquePassengers)%nat
  then let* st := upload_clean uniquePassengers in World.ret (scan, Some st)
  else World.ret (scan, None).

End PassengerUploader.

(** ** scripts/uploadAirports.js and scripts/uploadAirlines.js: reading the
    file *)

Module AirportUploader.

Definition countryMap : list (string * string) :=
  [ ("US", "United States"); ("USA", "United States");
    ("UNITED STATES", "United States");
    ("UNITED STATES OF AMERICA", "United States");
    ("U.S.A.", "United States"); ("U.S.", "United States");
    ("UK", "United Kingdom"); ("UNITED KINGDOM", "United Kingdom");
    ("GREAT BRITAIN", "United Kingdom"); ("ENGLAND", "United Kingdom");
    ("UAE", "United Arab Emirates");
    ("UNITED ARAB EMIRATES", "United Arab Emirates");
    ("JAPAN", "Japan"); ("CANADA", "Canada"); ("AUSTRALIA", "Australia");
    ("GERMANY", "Germany"); ("FRANCE", "France"); ("MEXICO", "Mexico");
    ("CHINA", "China"); ("BRAZIL", "Brazil"); ("INDIA", "India") ].

Definition standardizeCountry (country : option string) : string :=
  if negb (JS.truthy country) then "Unknown"
  else
    let countryUpper := JS.trim (JS.toUpperCase (default "" country)) in
    match find (fun e => String.eqb (fst e) countryUpper) countryMap with
    | Some (_, name) => name
    | None =>
        match JS.chars countryUpper with
        | [] => ""
        | c :: rest => JS.str (c :: map JS.lower_char rest)
        end
    end.

Record ReadState := {
  airports : list Airport.t;
  airportSet : gset string
}.

(** The ['data'] handler: a row with an invalid or repeated key is logged
    on the console and skipped. *)
Definition on_data (st : ReadState) (r : Row) : ReadState :=
  match JS.toUpperCase <$> (JS.trim <$> (r !! "AirportKey")) with
  | None => st
  | Some airportKey =>
      if String.eqb airportKey "" || negb (Nat.eqb (String.length airportKey) 3)
      then st
      else if decide (airportKey ∈ airportSet st) then st
      else
        {| airports := airports st ++
             [{| Airport.airport_key := airportKey;
                 Airport.airport_name := JS.trim <$> (r !! "AirportName");
                 Airport.city := JS.trim <$> (r !! "City");
                 Airport.country := standardizeCountry (r !! "Country") |}];
           airportSet := airportSet st ∪ {[ airportKey ]} |}
  end.

Definition read_airports (rows : list Row) : ReadState :=
  fold_left on_data rows {| airports := []; airportSet := ∅ |}.

End AirportUploader.

(** ** scripts/uploadAirports.js: the upload loop *)

Module AirportLoad.

Record Counts := { successCount : nat; errorCount : nat }.

(** [upsert([airport], { onConflict: 'airport_key', ignoreDuplicates: false })] *)
Definition upsert_airport (a : Airport.t) : World.M (option World.Error) :=
  World.store (World.Upsert "dim_airport" [PAirport a] "airport_key").

(** The body of the loop over [airports], with its [try]/[catch]. *)
Definition upload_one (st : Counts) (a : Airport.t) : World.M Counts :=
  World.try_catch
    (let* error := upsert_airport a in
     match error with
     | Some _ =>
         World.ret {| successCount := successCount st; errorCount := S (errorCount st) |}
     | None =>
         World.ret {| successCount := S (successCount st); errorCount := errorCount st |}
     end)
    (fun _ =>
       World.ret {| successCount := successCount st; errorCount := S (errorCount st) |}).

Fixpoint upload_each (st : Counts) (airports : list Airport.t) : World.M Counts :=
  match airports with
  | [] => World.ret st
  | a :: rest => let* st' := upload_one st a in upload_each st' rest
  end.

(** [uploadAirports], given the rows of the file: the airports read, and
    the counters of the upload, [None] when there was nothing to upload. *)
Definition uploadAirports (rows : list Row)
  : World.M (list Airport.t * option Counts) :=
  let airports := AirportUploader.airports (AirportUploader.read_airports rows) in
  if Nat.eqb (List.length airports) 0 then World.ret (airports, None)
  else
    let* st := upload_each {| successCount := 0; errorCount := 0 |} airports in
    World.ret (airports, Some st).

End AirportLoad.

(** ** scripts/uploadAirlines.js *)

Module AirlineUploader.

(** The ['data'] handler: a row without an airline key is skipped. *)
Definition on_data (airlines : list Airline.t) (r : Row) : list Airline.t :=
  match JS.toUpperCase <$> (JS.trim <$> (r !! "AirlineKey")) with
  | None => airlines
  | Some airlineKey =>
      if String.eqb airlineKey "" then airlines
      else
        airlines ++
        [{| Airline.airline_key := Some airlineKey;
            Airline.airline_name := JS.trim <$> (r !! "AirlineName");
            Airline.alliance :=
              match JS.trim <$> (r !! "Alliance") with
              | Some a => if String.eqb a "N/A" then None else Some a
              | None => None
              end |}]
  end.

Definition read_airlines (rows : list Row) : list Airline.t :=
  fold_left on_data rows [].

(** [uploadAirlines], given the rows of the file: one upsert of all the
    airlines read, whose error is only logged. *)
Definition uploadAirlines (rows : list Row) : World.M (list Airline.t) :=
  let airlines := read_airlines rows in
  let* _ := World.store (World.Upsert "dim_airline" (map PAirline airlines) "airline_key") in
  World.ret airlines.

End AirlineUploader.

(** ** scripts/checkDuplicates.js *)

Module CheckDuplicates.

(** A value of the [airports] map. *)
Record Info := {
  name : option string;
  city : option string;
  country : option string
}.

Record Duplicate := {
  key : string;
  first : option Info;
  current : Row
}.

(** [airports] is kept in insertion order; [airports.size] is its length. *)
Record State := {
  airports : list (string * Info);
  duplicates : list Duplicate
}.

Definition map_has (m : list (string * Info)) (k : string) : bool :=
  existsb (fun e => String.eqb (fst e) k) m.

Definition map_get (m : list (string * Info)) (k : string) : option Info :=
  snd <$> find (fun e => String.eqb (fst e) k) m.

(** The ['data'] handler. *)
Definition on_data (st : State) (r : Row) : State :=
  match JS.toUpperCase <$> (JS.trim <$> (r !! "AirportKey")) with
  | None => st
  | Some airportKey =>
      if String.eqb airportKey "" || negb (Nat.eqb (String.length airportKey) 3)
      then st
      else if map_has (airports st) airportKey then
        {| airports := airports st;
           duplicates := duplicates st ++
             [{| key := airportKey;
                 first := map_get (airports st) airportKey;
                 current := r |}] |}
      else
        {| airports := airports st ++
             [(airportKey,
               {| name := r !! "AirportName";
                  city := r !! "City";
                  country := r !! "Country" |})];
           duplicates := duplicates st |}
  end.

Definition check (rows : list Row) : State :=
  fold_left on_data rows {| airports := []; duplicates := [] |}.

End CheckDuplicates.

(** ** scripts/uploadFlights.js

    The script reads from the store as well as it writes to it, so its
    world answers with data: [Data keys] is an answer whose [data] is not
    null (the airport keys of the rows, for a select) and whose [error] is
    null; [NoData message] is an answer with null [data] and an [error];
    [Thrown message] is a call that throws. The script has no [try]: an
    error thrown by a call ends the run. *)

Module FlightUploader.

Inductive Query :=
| SelectAirport (code : string)
| SelectAllAirports
| UpsertPlaceholder (a : Airport.t)
| UpsertFlights (batch : list Flight.t).

Inductive Answer :=
| Data (keys : list string)
| NoData (message : string)
| Thrown (message : string).

Record DB := {
  answers : nat -> Answer;
  log : list (Query * Answer)
}.

Definition init (a : nat -> Answer) : DB := {| answers := a; log := [] |}.

(** The world after one more query. *)
Definition after_query (db : DB) (q : Query) : DB :=
  {| answers := answers db;
     log := log db ++ [(q, answers db (List.length (log db)))] |}.

Definition Q (A : Type) : Type := DB -> World.Outcome A * DB.

Definition ret {A} (a : A) : Q A := fun db => (World.Val a, db).

Definition bind {A B} (m : Q A) (k : A -> Q B) : Q B :=
  fun db =>
    match m db with
    | (World.Val a, db') => k a db'
    | (World.Exn msg, db') => (World.Exn msg, db')
    end.

(** [await supabase.from(..)...]: the [data] of the answer, [None] when it
    is null. *)
Definition ask (q : Query) : Q (option (list string)) :=
  fun db =>
    match answers db (List.length (log db)) with
    | Data keys => (World.Val (Some keys), after_query db q)
    | NoData _ => (World.Val None, after_query db q)
    | Thrown msg => (World.Exn msg, after_query db q)
    end.

Definition placeholder (code : string) : Airport.t :=
  {| Airport.airport_key := code;
     Airport.airport_name := Some (code +:+ " Airport");
     Airport.city := Some "Unknown";
     Airport.country := "Unknown" |}.

(** [getOrCreateAirport]: the answer and the cache afterwards. *)
Definition getOrCreateAirport (airportCache : gset string) (code : string)
  : Q (bool * gset string) :=
  if decide (code ∈ airportCache) then ret (true, airportCache)
  else
    bind (ask (SelectAirport code)) (fun airport =>
    match airport with
    | Some _ => ret (true, airportCache ∪ {[ code ]})
    | None =>
        bind (ask (UpsertPlaceholder (placeholder code))) (fun created =>
        match created with
        | None => ret (false, airportCache)
        | Some _ => ret (true, airportCache ∪ {[ code ]})
        end)
    end).

(** The accumulators of step 3 and the cache. *)
Record ScanState := {
  flights : list Flight.t;
  skipped : nat;
  airportCache : gset string
}.

Definition skip (st : ScanState) (cache : gset string) : ScanState :=
  {| flights := flights st; skipped := S (skipped st); airportCache := cache |}.

Definition falsy (v : option string) : bool := negb (JS.truthy v).

(** The body of the loop of step 3. *)
Definition scan_row (st : ScanState) (r : Row) : Q ScanState :=
  let flightKey := JS.trim <$> (r !! "FlightKey") in
  let originCode := JS.toUpperCase <$> (JS.trim <$> (r !! "OriginAirportKey")) in
  let destinationCode :=
    JS.toUpperCase <$> (JS.trim <$> (r !! "DestinationAirportKey")) in
  if falsy originCode || falsy destinationCode || falsy flightKey
  then ret (skip st (airportCache st))
  else
    let origin := default "" originCode in
    let destination := default "" destinationCode in
    bind (getOrCreateAirport (airportCache st) origin) (fun '(originOk, cache1) =>
    bind (getOrCreateAirport cache1 destination) (fun '(destOk, cache2) =>
    if negb originOk || negb destOk then ret (skip st cache2)
    else
      bind (ask (SelectAirport origin)) (fun originAirport =>
      bind (ask (SelectAirport destination)) (fun destAirport =>
      match originAirport, destAirport with
      | Some _, Some _ =>
          ret {| flights := flights st ++
                   [{| Flight.flight_key := default "" flightKey;
                       Flight.origin_airport_key := origin;
                       Flight.destination_airport_key := destination;
                       Flight.aircraft_type :=
                         Some match JS.trim <$> (r !! "AircraftType") with
                              | Some t => if String.eqb t "" then "Unknown" else t
                              | None => "Unknown"
                              end |}];
                 skipped := skipped st;
                 airportCache := cache2 |}
      | _, _ => ret (skip st cache2)
      end)))).

Fixpoint scan_rows (st : ScanState) (rows : list Row) : Q ScanState :=
  match rows with
  | [] => ret st
  | r :: rest => bind (scan_row st r) (fun st' => scan_rows st' rest)
  end.

(** The individual upserts after a failed batch: a failure is logged. *)
Fixpoint upload_each (uploaded : nat) (batch : list Flight.t) : Q nat :=
  match batch with
  | [] => ret uploaded
  | flight :: rest =>
      bind (ask (UpsertFlights [flight])) (fun done =>
      match done with
      | None => upload_each uploaded rest
      | Some _ => upload_each (S uploaded) rest
      end)
  end.

Definition upload_batch (uploaded : nat) (batch : list Flight.t) : Q nat :=
  bind (ask (UpsertFlights batch)) (fun done =>
  match done with
  | None => upload_each uploaded batch
  | Some _ => ret (uploaded + List.length batch)
  end).

Fixpoint upload_batches (uploaded : nat) (bs : list (list Flight.t)) : Q nat :=
  match bs with
  | [] => ret uploaded
  | batch :: rest => bind (upload_batch uploaded batch) (fun n => upload_batches n rest)
  end.

Definition batchSize : nat := 50.

(** What a run leaves behind; [uploaded] is [None] when no flight was
    queued. *)
Record Summary := {
  queued : ScanState;
  uploaded : option nat
}.

(** [uploadFlights], given the rows of the file. *)
Definition uploadFlights (rawRows : list Row) : Q Summary :=
  bind (ask SelectAllAirports) (fun existingAirports =>
  let cache0 : gset string :=
    match existingAirports with
    | Some keys => list_to_set keys
    | None => ∅
    end in
  bind (scan_rows {| flights := []; skipped := 0; airportCache := cache0 |} rawRows)
    (fun st =>
  if (0 <? List.length (flights st))%nat then
    bind (upload_batches 0 (World.batches batchSize (flights st))) (fun n =>
    ret {| queued := st; uploaded := Some n |})
  else ret {| queued := st; uploaded := None |})).

End FlightUploader.

(** ** Vocabulary of the properties and the inputs of the scenarios *)

Module Spec.

(** The number of digit characters of a key. *)
Definition digit_count (k : string) : nat :=
  List.length (List.filter JS.is_digit (JS.chars k)).

(** The last three digit characters of a key. *)
Definition last_three_digits (k : string) : list ascii :=
  let ds := List.filter JS.is_digit (JS.chars k) in
  skipn (List.length ds - 3) ds.

(** The canonical passenger key: the marker [P] and the last three
    digits. *)
Definition canonical_key (k : string) : string :=
  String "P" (JS.str (last_three_digits k)).

(** [sale] carries the transaction ID [k]. *)
Definition has_id (k : string) (sale : Sale.t) : bool :=
  String.eqb (Sale.transaction_id sale) k.

(** The quarantine entry of a sale whose transaction ID was already seen in
    the run. *)
Definition cross_file_duplicate (sale : Sale.t) : DirtyRecord :=
  {| source_table := Sale.sales_source sale;
     original_data := PSale sale;
     error_reason := "Duplicate transaction ID across files: " +:+
                     Sale.transaction_id sale |}.

(** The quarantine entry of a row whose synthesized transaction ID was
    already met in the file. *)
Definition within_file_duplicate (sourceType : string) (r : Row) : DirtyRecord :=
  {| source_table := sourceType;
     original_data := PRow r;
     error_reason := "Duplicate transaction ID within file: " +:+
                     SalesUploader.transactionId_of sourceType r |}.

(** The standardized key under which the passenger loader files a row. *)
Definition passenger_key_of (r : Row) : option string :=
  PassengerUploader.standardizePassengerKey (JS.trim <$> (r !! "PassengerKey")).

(** The quarantine entry of a row whose standardized key [k] was already
    seen in the file. *)
Definition duplicate_passenger (r : Row) (k : string) : DirtyRecord :=
  {| source_table := "passengers";
     original_data := PRow r;
     error_reason := "Duplicate passenger key: " +:+ k |}.

(** The row [r] is filed under the key [k]. *)
Definition has_key (k : string) (r : Row) : bool :=
  bool_decide (passenger_key_of r = Some k).

(** What the passenger loader stores in [passengerMap] for row [i] (counted
    from 0) filed under [k]. *)
Definition passenger_entry (i : nat) (k : string) (r : Row)
  : string * PassengerUploader.Entry :=
  (k, {| PassengerUploader.rowNumber := S i;
         PassengerUploader.originalKey := JS.trim <$> (r !! "PassengerKey");
         PassengerUploader.data := PassengerUploader.passenger_of_row k r |}).

(** The map after one row, whatever the store answers. *)
Definition map_after (m : list (string * PassengerUploader.Entry)) (i : nat) (r : Row)
  : list (string * PassengerUploader.Entry) :=
  match passenger_key_of r with
  | Some k => if PassengerUploader.map_has m k then m else m ++ [passenger_entry i k r]
  | None => m
  end.

Fixpoint maps_after (m : list (string * PassengerUploader.Entry)) (i : nat) (rows : list Row)
  : list (string * PassengerUploader.Entry) :=
  match rows with
  | [] => m
  | r :: rest => maps_after (map_after m i r) (S i) rest
  end.

(** The number of entries filed under [k]. *)
Definition count_key (k : string) (m : list (string * PassengerUploader.Entry)) : nat :=
  List.length (List.filter (fun e => String.eqb (fst e) k) m).

(** The clean output of the passenger loader, [uniquePassengers]. *)
Definition uniquePassengers (st : PassengerUploader.ScanState) : list Passenger.t :=
  map (fun e => PassengerUploader.data (snd e)) (PassengerUploader.passengerMap st).

(** *** Vocabulary of the load engine *)

(** The upsert of [batch] into the sales table. *)
Definition upsert_call (batch : list Sale.t) : World.Call :=
  World.Upsert "fact_sales" (map PSale batch) "transaction_id".

(** The answers of the world [w] to its next [n] calls, from call number
    [start] on. *)
Definition replies (w : World.t) (start n : nat) : list World.Reply :=
  map (World.oracle w) (seq start n).

Definition is_ok (r : World.Reply) : bool :=
  match r with World.ROk => true | _ => false end.

Definition conflict_reply (r : World.Reply) : bool :=
  match r with
  | World.RError c m => World.is_conflict {| World.code := c; World.message := m |}
  | _ => false
  end.

Definition other_error_reply (r : World.Reply) : bool :=
  match r with
  | World.RError c m => negb (World.is_conflict {| World.code := c; World.message := m |})
  | _ => false
  end.

Definition throws (r : World.Reply) : bool :=
  match r with World.RThrow _ => true | _ => false end.

Definition already_exists (sale : Sale.t) : DirtyRecord :=
  {| source_table := Sale.sales_source sale;
     original_data := PSale sale;
     error_reason := "Transaction ID already exists in database: " +:+
                     Sale.transaction_id sale |}.

Definition upload_failed (sale : Sale.t) (msg : string) : DirtyRecord :=
  {| source_table := Sale.sales_source sale;
     original_data := PSale sale;
     error_reason := "Upload failed: " +:+ msg |}.

(** The quarantine entry that the answer [r] to the individual upsert of
    [sale] calls for. *)
Definition quarantine_for (sale : Sale.t) (r : World.Reply) : option DirtyRecord :=
  match r with
  | World.RError c m =>
      if World.is_conflict {| World.code := c; World.message := m |}
      then Some (already_exists sale) else Some (upload_failed sale m)
  | _ => None
  end.

Definition count {A} (f : A -> bool) (l : list A) : nat :=
  List.length (List.filter f l).

(** The passenger loader's quarantine record for a batch that failed as a
    whole. *)
Definition batch_upload_failed (msg : string) (p : Passenger.t) : DirtyRecord :=
  {| source_table := "passengers";
     original_data := PPassenger p;
     error_reason := "Batch upload failed: " +:+ msg |}.

(** The insert of [batch] into the passenger table. *)
Definition insert_call (batch : list Passenger.t) : World.Call :=
  World.Insert "dim_passenger" (map PPassenger batch).

(** The quarantine write of the passenger loader for one record. *)
Definition quarantine_call (why : string) (p : Passenger.t) : World.Call :=
  World.InsertDirty
    [{| source_table := "passengers"; original_data := PPassenger p;
        error_reason := why |}].

(** The reason the passenger loader gives for an individual failure that is
    not a conflict. *)
Definition individual_failure_reason (r : World.Reply) : string :=
  match r with
  | World.RError _ m => "Upload failed: " +:+ m
  | World.RThrow m => "Upload error: " +:+ m
  | World.ROk => ""
  end.

(** *** Vocabulary of the amounts *)

(** What is left of an amount text when every character other than a digit,
    a dot or a minus sign is stripped. *)
Definition numeric_text (s : string) : string :=
  JS.str (List.filter SmartFileProcessor.is_amount_char (JS.chars s)).

Definition no_minus (s : string) : bool :=
  forallb (fun c => negb (Ascii.eqb c "-")) (JS.chars s).

(** The columns of a sales row that hold amounts. *)
Definition amount_columns : list string :=
  ["TicketPrice"; "Taxes"; "BaggageFees"; "TotalAmount"].

Definition optional_amount_columns : list string :=
  ["Taxes"; "BaggageFees"; "TotalAmount"].

Definition accepted {A B} (x : A + B) : bool :=
  match x with inl _ => true | inr _ => false end.

(** The text of a decimal literal: a minus sign when [neg], the integer
    digits [ip] and, when there are fraction digits [fp], a dot and these
    digits. *)
Definition literal_text (neg : bool) (ip fp : list ascii) : list ascii :=
  (if neg then ["-"%char] else [])
  ++ ip
  ++ match fp with
     | [] => []
     | _ => "."%char :: fp
     end.

(** [rest] does not continue a literal with the fraction digits [fp]: it
    does not start with a digit, nor, when the literal has no fraction
    digits, with a dot and a digit. *)
Definition ends_literal (fp rest : list ascii) : bool :=
  match rest with
  | [] => true
  | c :: r =>
      negb (JS.is_digit c)
      && match fp, r with
         | [], d :: _ => negb (Ascii.eqb c "." && JS.is_digit d)
         | _, _ => true
         end
  end.

(** The fraction digits of a text that follows integer digits: the digits
    after a leading dot. *)
Definition fraction_after (rest : list ascii) : list ascii :=
  match rest with
  | "."%char :: rest' => Num.take_while JS.is_digit rest'
  | _ => []
  end.

(** The number of the digits [ds], read in base ten. *)
Definition decimal_number (ds : list ascii) : Z :=
  fold_left (fun acc c => (10 * acc + (Z.of_nat (JS.code c) - 48))%Z) ds 0%Z.

(** The amount [n / 100] with the sign of the literal; a zero of either
    sign when [n] is 0. *)
Definition is_amount (x : Num.number) (neg : bool) (n : Z) : Prop :=
  if (n =? 0)%Z then exists sign, x = Num.Fin sign 0 0
  else x = Num.of_hundredths (if neg then (- n)%Z else n).

End Spec.

Module Scenarios.

(** The header row of the flights data set, as the registry spells it. *)
Definition flights_headers : list string :=
  ["FlightKey"; "OriginAirportKey"; "DestinationAirportKey"].

(** The passenger file of the end-to-end scenario. *)
Definition passenger_headers : list string :=
  ["PassengerKey"; "FullName"; "Email"; "LoyaltyStatus"].

Definition jane (key : string) : Row :=
  {[ "PassengerKey" := key; "FullName" := "Jane Doe";
     "Email" := ""; "LoyaltyStatus" := "gold" ]}.

Definition jane_record (loyalty : string) : Passenger.t :=
  {| Passenger.passenger_key := "P001";
     Passenger.full_name := Some "Jane Doe";
     Passenger.email := "jane.doe@example.com";
     Passenger.loyalty_status := loyalty |}.

(** A date parser that knows the form [YYYY-MM-DD] only, on the days that
    every month has; [new Date] reads these texts as the same calendar day. *)
Definition iso_date (x : option string) : option string :=
  match x with
  | Some s =>
      match JS.chars s with
      | [y1; y2; y3; y4; "-"%char; m1; m2; "-"%char; d1; d2] =>
          let month := Num.digits_value 0 [m1; m2] in
          let day := Num.digits_value 0 [d1; d2] in
          if forallb JS.is_digit [y1; y2; y3; y4; m1; m2; d1; d2]
             && (1 <=? month)%Z && (month <=? 12)%Z
             && (1 <=? day)%Z && (day <=? 28)%Z
          then Some s else None
      | _ => None
      end
  | None => None
  end.

(** A clean sale with the given transaction ID, source and price in
    hundredths. *)
Definition sale (id source : string) (price : Z) : Sale.t :=
  {| Sale.transaction_id := id;
     Sale.date_key := Some 20240115%Z;
     Sale.passenger_key := "P001";
     Sale.flight_key := "FL100";
     Sale.ticket_price := Num.of_hundredths price;
     Sale.taxes := Num.zero;
     Sale.baggage_fees := Num.zero;
     Sale.total_amount := Num.of_hundredths price;
     Sale.sales_source := source |}.

(** A row of a travel-agency sales file. *)
Definition sales_row (id passenger price : string) : Row :=
  {[ "TransactionID" := id; "TransactionDate" := "2024-01-15";
     "PassengerID" := passenger; "FlightID" := "FL100";
     "TicketPrice" := price; "Taxes" := "12.50"; "BaggageFees" := "";
     "TotalAmount" := "abc" ]}.

(** A store that accepts every call. *)
Definition always_ok : World.t := World.init (fun _ => World.ROk).

(** A world that gives the same answer to every call. *)
Definition always (r : World.Reply) : World.t := World.init (fun _ => r).

(** A world that answers its calls with the replies of [rs], in order, and
    accepts every later call. *)
Definition answering (rs : list World.Reply) : World.t :=
  World.init (fun n => nth n rs World.ROk).

Definition passenger (key name : string) : Passenger.t :=
  {| Passenger.passenger_key := key;
     Passenger.full_name := Some name;
     Passenger.email := "user@example.com";
     Passenger.loyalty_status := "Bronze" |}.



(** A stand-in for [processAirportData], which passenger, airline and sales
    files never reach. *)
Definition no_airports (data : list Row) : World.M SmartFileProcessor.Processed :=
  World.ret {| SmartFileProcessor.cleanData := []; SmartFileProcessor.dirtyData := [] |}.

Definition airline_row (key name : string) : Row :=
  {[ "AirlineKey" := key; "AirlineName" := name; "Alliance" := "N/A" ]}.

Definition airport_row (key name : string) : Row :=
  {[ "AirportKey" := key; "AirportName" := name; "City" := "New York";
     "Country" := "usa" ]}.

Definition flight_row (key origin destination : string) : Row :=
  {[ "FlightKey" := key; "OriginAirportKey" := origin;
     "DestinationAirportKey" := destination ]}.


End Scenarios.

(** ** Vocabulary of the further properties *)

Module Vocab.

(** The loyalty tiers that the passenger table accepts. *)
Definition tiers : list string := ["Platinum"; "Gold"; "Silver"; "Bronze"].

(** The test that both [standardizeEmail] make on the existing email: it is
    a non-empty text that matches the email pattern. *)
Definition valid_email (e : option string) : bool :=
  JS.truthy e
  && match e with
     | Some x => SmartFileProcessor.emailRegex_test x
     | None => false
     end.

(** The sign of a number; [NaN] has none. *)
Definition negative (x : Num.number) : bool :=
  match x with
  | Num.Fin neg _ _ => neg
  | Num.Inf neg => neg
  | Num.NaN => false
  end.

(** The two letters that start the transaction IDs of a source. *)
Definition id_prefix (sourceType : string) : string :=
  if String.eqb sourceType "travel_agency" then "TA" else "CO".

(** The canonical form of a passenger key: the letter [P] and three
    digits. *)
Definition canonical (k : string) : bool :=
  match JS.chars k with
  | ["P"%char; d1; d2; d3] => JS.is_digit d1 && JS.is_digit d2 && JS.is_digit d3
  | _ => false
  end.

(** The number of digits in the transaction ID cell of a row, 0 when the
    cell is missing. *)
Definition raw_id_digits (r : Row) : nat :=
  match r !! "TransactionID" with
  | Some t => Spec.digit_count t
  | None => 0
  end.

(** What every clean sale of a source satisfies. *)
Definition well_formed_sale (sourceType : string) (s : Sale.t) : Prop :=
  JS.startsWith (Sale.transaction_id s) (id_prefix sourceType) = true
  /\ canonical (Sale.passenger_key s) = true
  /\ Sale.flight_key s <> ""
  /\ Sale.sales_source s = sourceType
  /\ Num.isNaN (Sale.ticket_price s) = false
  /\ Num.isNaN (Sale.taxes s) = false
  /\ Num.isNaN (Sale.baggage_fees s) = false
  /\ Num.isNaN (Sale.total_amount s) = false.

(** The number of records that the counters of the sales load loop account
    for. *)
Definition counted (st : SalesUploader.LoadState) : nat :=
  SalesUploader.uploaded st + SalesUploader.errors st
  + SalesUploader.skippedDuplicates st.

(** A store, and a file system, that accept every call. *)
Definition healthy (w : World.t) : Prop :=
  forall n, World.oracle w n = World.ROk.

(** The number of calls made between two worlds. *)
Definition calls_between (w w' : World.t) : nat :=
  List.length (World.trace w') - List.length (World.trace w).

(** What every clean passenger record satisfies. *)
Definition well_formed_passenger (p : Passenger.t) : Prop :=
  canonical (Passenger.passenger_key p) = true
  /\ Passenger.loyalty_status p ∈ tiers
  /\ JS.toLowerCase (Passenger.email p) = Passenger.email p
  /\ exists n, Passenger.full_name p = Some n /\ n <> "".

(** The number of records that the counters of the passenger load loop
    account for. *)
Definition counted_passengers (st : PassengerUploader.LoadState) : nat :=
  PassengerUploader.uploaded st + PassengerUploader.errors st
  + PassengerUploader.alreadyExist st.

(** The test that the airport reader and the duplicate checker make on
    the key of a row: after trimming, three characters. *)
Definition valid_airport_key (r : Row) : bool :=
  match JS.toUpperCase <$> (JS.trim <$> (r !! "AirportKey")) with
  | Some k => negb (String.eqb k "") && Nat.eqb (String.length k) 3
  | None => false
  end.

(** The upsert of one airport by the airport script. *)
Definition airport_call (a : Airport.t) : World.Call :=
  World.Upsert "dim_airport" [PAirport a] "airport_key".

(** A store whose calls answer, with data or with an error, but do not
    throw. *)
Definition calm (db : FlightUploader.DB) : Prop :=
  forall n msg, FlightUploader.answers db n <> FlightUploader.Thrown msg.

(** What every queued flight satisfies: both airports are in the cache, the
    flight key is not empty and the aircraft type is a text that is not
    empty. *)
Definition routed (cache : gset string) (f : Flight.t) : Prop :=
  Flight.origin_airport_key f ∈ cache
  /\ Flight.destination_airport_key f ∈ cache
  /\ Flight.flight_key f <> ""
  /\ exists t, Flight.aircraft_type f = Some t /\ t <> "".

(** The number of queries made between two states of the store. *)
Definition queries_between (db db' : FlightUploader.DB) : nat :=
  List.length (FlightUploader.log db') - List.length (FlightUploader.log db).

(** A store that gives the same answer to every query of the flight
    script. *)
Definition answering_db (a : FlightUploader.Answer) : FlightUploader.DB :=
  FlightUploader.init (fun _ => a).

(** The file types of the registry, and the answer of the classifier for
    a file that it cannot place. *)
Definition file_types : list string :=
  ["passengers"; "airports"; "airlines"; "flights";
   "travel_agency_sales"; "corporate_sales"].

(** [1] when the list is not empty: the calls that [processFile] makes for
    a list of records. *)
Definition one_if_any {A} (l : list A) : nat :=
  if (0 <? List.length l)%nat then 1 else 0.

(** ASCII text: every character is below 128.  On such text the functions
    of module [JS] are the builtins of JavaScript: a character is one
    UTF-16 code unit, [toLowerCase] and [toUpperCase] change the 26 letters
    only, and the white space of [trim] and of [\s] is TAB, LF, VT, FF, CR
    and SPACE. *)
Definition ascii_char (c : ascii) : bool := (JS.code c <? 128)%nat.

Definition ascii_chars (l : list ascii) : bool := forallb ascii_char l.

Definition ascii_text (s : string) : bool := ascii_chars (JS.chars s).

Definition ascii_cell (v : option string) : bool :=
  match v with
  | Some s => ascii_text s
  | None => true
  end.

(** A row whose cells are all ASCII text. *)
Definition ascii_row (r : Row) : bool :=
  forallb (fun kv => ascii_text (snd kv)) (map_to_list r).

(** What every clean passenger record satisfies, whatever the text of its
    row: a canonical key, a loyalty tier and a name that is not empty. *)
Definition keyed_passenger (p : Passenger.t) : Prop :=
  canonical (Passenger.passenger_key p) = true
  /\ Passenger.loyalty_status p ∈ tiers
  /\ exists n, Passenger.full_name p = Some n /\ n <> "".

(** The calls that the loop saving the quarantine of the sales run makes:
    an insert into the quarantine table that does not throw, or a line
    appended to the backup file, which succeeds. *)
Definition saving_call (cr : World.Call * World.Reply) : Prop :=
  match cr with
  | (World.InsertDirty _, World.RThrow _) => False
  | (World.InsertDirty _, _) => True
  | (World.AppendFile path _, World.ROk) => path = "dirty_sales_backup.json"
  | _ => False
  end.

(** The records that a stretch of the trace shows as saved, in the order of
    the calls: those of an accepted insert and those of a backup line. *)
Definition saved (tr : list (World.Call * World.Reply)) : list DirtyRecord :=
  flat_map (fun cr => match cr with
                      | (World.InsertDirty b, World.ROk) => b
                      | (World.AppendFile _ b, _) => b
                      | _ => []
                      end) tr.

(** The quarantine records that a stretch of the trace shows as accepted
    by the store, and those it shows as written to a local file. *)
Definition inserted (tr : list (World.Call * World.Reply)) : list DirtyRecord :=
  flat_map (fun cr => match cr with
                      | (World.InsertDirty b, World.ROk) => b
                      | _ => []
                      end) tr.

Definition backed_up (tr : list (World.Call * World.Reply)) : list DirtyRecord :=
  flat_map (fun cr => match fst cr with
                      | World.AppendFile _ b => b
                      | _ => []
                      end) tr.

(** Two sales agree on their keys: transaction ID, date key, passenger key,
    flight key and source. *)
Definition same_keys (a b : Sale.t) : Prop :=
  Sale.transaction_id a = Sale.transaction_id b
  /\ Sale.date_key a = Sale.date_key b
  /\ Sale.passenger_key a = Sale.passenger_key b
  /\ Sale.flight_key a = Sale.flight_key b
  /\ Sale.sales_source a = Sale.sales_source b.

End Vocab.

(** ** Facts about the string builtins *)

Module JSFacts.
Import JS.

Lemma chars_str l : chars (str l) = l.
Proof. apply list_ascii_of_string_of_list_ascii. Qed.

Lemma str_chars s : str (chars s) = s.
Proof. apply string_of_list_ascii_of_string. Qed.

Lemma length_str l : String.length (str l) = List.length l.
Proof. induction l as [|c l IH]; simpl; [reflexivity | now rewrite IH]. Qed.

Lemma digit_not_space c : is_digit c = true -> is_space c = false.
Proof.
  unfold is_digit, is_space. intros H.
  apply andb_true_iff in H as [H1 H2].
  apply Nat.leb_le in H1. apply Nat.leb_le in H2.
  apply orb_false_iff. split.
  - apply andb_false_iff. right. apply Nat.leb_gt. lia.
  - apply Nat.eqb_neq. lia.
Qed.

Lemma space_not_digit c : is_space c = true -> is_digit c = false.
Proof.
  intros H. destruct (is_digit c) eqn:E; [|reflexivity].
  apply digit_not_space in E. congruence.
Qed.

Lemma filter_digit_drop_space l :
  List.filter is_digit (drop_while is_space l) = List.filter is_digit l.
Proof.
  induction l as [|c l IH]; simpl; [reflexivity|].
  destruct (is_space c) eqn:E; [|reflexivity].
  now rewrite (space_not_digit _ E).
Qed.

Lemma filter_digit_trim l :
  List.filter is_digit (trim_chars l) = List.filter is_digit l.
Proof.
  unfold trim_chars.
  rewrite List.filter_rev, filter_digit_drop_space, List.filter_rev, rev_involutive.
  apply filter_digit_drop_space.
Qed.

Lemma digits_of_trim s : digits_of (trim s) = digits_of s.
Proof. unfold digits_of, trim. now rewrite chars_str, filter_digit_trim. Qed.

Lemma has_digit_filter l :
  existsb is_digit l = negb (Nat.eqb (List.length (List.filter is_digit l)) 0).
Proof.
  induction l as [|c l IH]; simpl; [reflexivity|].
  destruct (is_digit c); simpl; [reflexivity | exact IH].
Qed.

Lemma filter_all_true {A} (f : A -> bool) l :
  forallb f l = true -> List.filter f l = l.
Proof.
  induction l as [|x l IH]; simpl; [reflexivity|].
  intros H. apply andb_true_iff in H as [-> H]. now rewrite IH.
Qed.

Lemma forallb_filter_same {A} (f : A -> bool) l : forallb f (List.filter f l) = true.
Proof.
  induction l as [|x l IH]; simpl; [reflexivity|].
  destruct (f x) eqn:E; simpl; [now rewrite E|exact IH].
Qed.

Lemma forallb_skipn {A} (f : A -> bool) n l :
  forallb f l = true -> forallb f (skipn n l) = true.
Proof.
  revert l. induction n as [|n IH]; intros [|x l]; simpl; auto.
  intros H. apply andb_true_iff in H as [_ H]. auto.
Qed.

End JSFacts.

(** ** Passenger keys *)

Module PassengerKeyProps.
Import JS JSFacts Spec.

Lemma length_digits_of k : String.length (digits_of k) = digit_count k.
Proof. unfold digits_of, digit_count. apply length_str. Qed.

Lemma length_last_three k :
  3 <= digit_count k -> List.length (last_three_digits k) = 3.
Proof.
  unfold digit_count, last_three_digits. intros H.
  rewrite List.length_skipn. lia.
Qed.

Lemma last_three_all_digits k : forallb is_digit (last_three_digits k) = true.
Proof. unfold last_three_digits. apply forallb_skipn, forallb_filter_same. Qed.

(** What every variant computes once its guards are passed. *)
Lemma key_core k :
  3 <= digit_count k ->
  "P" +:+ padStart 3 "0" (slice_last 3 (digits_of k)) = canonical_key k.
Proof.
  intros H. unfold canonical_key, padStart, slice_last, digits_of.
  rewrite !chars_str. fold (last_three_digits k).
  rewrite (length_last_three k H). reflexivity.
Qed.

Lemma canonical_key_shape k :
  3 <= digit_count k ->
  exists d1 d2 d3,
    last_three_digits k = [d1; d2; d3]
    /\ is_digit d1 = true /\ is_digit d2 = true /\ is_digit d3 = true
    /\ canonical_key k = String "P" (String d1 (String d2 (String d3 EmptyString))).
Proof.
  intros H. pose proof (length_last_three k H) as L.
  pose proof (last_three_all_digits k) as D.
  unfold canonical_key.
  destruct (last_three_digits k) as [|d1 [|d2 [|d3 [|d4 l]]]]; try discriminate.
  simpl in D.
  apply andb_true_iff in D as [D1 D]. apply andb_true_iff in D as [D2 D].
  apply andb_true_iff in D as [D3 _].
  exists d1, d2, d3. repeat split; assumption.
Qed.

Lemma smart_key_eq k :
  SmartFileProcessor.standardizePassengerKey (Some k) =
    if (digit_count k <? 3)%nat then None
    else if includes k "P" then Some (canonical_key k) else None.
Proof.
  unfold SmartFileProcessor.standardizePassengerKey.
  destruct (String.eqb k "") eqn:E.
  - apply String.eqb_eq in E. subst k. reflexivity.
  - rewrite length_digits_of.
    destruct (includes k "P"); simpl.
    + destruct (digit_count k <? 3)%nat eqn:L; [reflexivity|].
      apply Nat.ltb_ge in L. now rewrite key_core.
    + now destruct (digit_count k <? 3)%nat.
Qed.

Lemma sales_key_eq k :
  SalesUploader.standardizePassengerKey (Some k) =
    SmartFileProcessor.standardizePassengerKey (Some k).
Proof. reflexivity. Qed.

Lemma digit_count_trim k : digit_count (trim k) = digit_count k.
Proof.
  rewrite <- !length_digits_of. now rewrite digits_of_trim.
Qed.

Lemma has_digit_count k : has_digit k = negb (Nat.eqb (digit_count k) 0).
Proof. unfold has_digit, digit_count. apply has_digit_filter. Qed.

Lemma canonical_key_trim k : canonical_key (trim k) = canonical_key k.
Proof.
  unfold canonical_key, last_three_digits, trim.
  now rewrite chars_str, filter_digit_trim.
Qed.

Lemma loader_key_eq k :
  PassengerUploader.standardizePassengerKey (Some k) =
    if (digit_count k <? 3)%nat then None else Some (canonical_key k).
Proof.
  unfold PassengerUploader.standardizePassengerKey.
  destruct (String.eqb k "") eqn:E.
  - apply String.eqb_eq in E. subst k. reflexivity.
  - rewrite has_digit_count, length_digits_of, digit_count_trim.
    destruct (digit_count k <? 3)%nat eqn:L.
    + destruct (startsWith (trim k) "P"); simpl;
        destruct (Nat.eqb (digit_count k) 0); reflexivity.
    + apply Nat.ltb_ge in L.
      assert (K : "P" +:+ padStart 3 "0" (slice_last 3 (digits_of (trim k)))
                  = canonical_key k).
      { rewrite key_core, canonical_key_trim; [reflexivity|].
        now rewrite digit_count_trim. }
      destruct (Nat.eqb (digit_count k) 0) eqn:Z.
      * apply Nat.eqb_eq in Z. lia.
      * destruct (startsWith (trim k) "P"); simpl; now rewrite K.
Qed.

(** A canonical key is mapped to itself by every variant. *)
Lemma canonical_fixed d1 d2 d3 :
  is_digit d1 = true -> is_digit d2 = true -> is_digit d3 = true ->
  let r := String "P" (String d1 (String d2 (String d3 EmptyString))) in
  SmartFileProcessor.standardizePassengerKey (Some r) = Some r
  /\ PassengerUploader.standardizePassengerKey (Some r) = Some r.
Proof.
  intros H1 H2 H3 r.
  assert (C : digit_count r = 3).
  { unfold digit_count, r. simpl. now rewrite H1, H2, H3. }
  assert (K : canonical_key r = r).
  { unfold canonical_key, last_three_digits, r. simpl. now rewrite H1, H2, H3. }
  rewrite smart_key_eq, loader_key_eq, C, K. simpl.
  split; reflexivity.
Qed.

End PassengerKeyProps.

(** C3 (as amended). Every variant of [standardizePassengerKey] rejects an
    absent key and a key with fewer than three digit characters. For a key
    with at least three digit characters the passenger loader returns the
    marker [P] followed by the last three digits; [SmartFileProcessor] and
    [SalesUploader] do so when the key contains the letter [P] and reject it
    otherwise. Every variant maps each of its results to itself. *)
Theorem C3_passenger_key_standardization (k : string) :
  (SmartFileProcessor.standardizePassengerKey None = None
   /\ SalesUploader.standardizePassengerKey None = None
   /\ PassengerUploader.standardizePassengerKey None = None)
  /\ (Spec.digit_count k < 3 ->
      SmartFileProcessor.standardizePassengerKey (Some k) = None
      /\ SalesUploader.standardizePassengerKey (Some k) = None
      /\ PassengerUploader.standardizePassengerKey (Some k) = None)
  /\ (3 <= Spec.digit_count k ->
      PassengerUploader.standardizePassengerKey (Some k) = Some (Spec.canonical_key k)
      /\ SmartFileProcessor.standardizePassengerKey (Some k) =
           (if JS.includes k "P" then Some (Spec.canonical_key k) else None)
      /\ SalesUploader.standardizePassengerKey (Some k) =
           (if JS.includes k "P" then Some (Spec.canonical_key k) else None)
      /\ exists d1 d2 d3,
           Spec.last_three_digits k = [d1; d2; d3]
           /\ Spec.canonical_key k =
                String "P" (String d1 (String d2 (String d3 EmptyString))))
  /\ (forall r, SmartFileProcessor.standardizePassengerKey (Some k) = Some r ->
                SmartFileProcessor.standardizePassengerKey (Some r) = Some r)
  /\ (forall r, SalesUploader.standardizePassengerKey (Some k) = Some r ->
                SalesUploader.standardizePassengerKey (Some r) = Some r)
  /\ (forall r, PassengerUploader.standardizePassengerKey (Some k) = Some r ->
                PassengerUploader.standardizePassengerKey (Some r) = Some r).
Proof.
  assert (Fix : forall r, 3 <= Spec.digit_count k -> r = Spec.canonical_key k ->
            SmartFileProcessor.standardizePassengerKey (Some r) = Some r
            /\ PassengerUploader.standardizePassengerKey (Some r) = Some r).
  { intros r H ->.
    destruct (PassengerKeyProps.canonical_key_shape k H)
      as (d1 & d2 & d3 & _ & H1 & H2 & H3 & ->).
    now apply PassengerKeyProps.canonical_fixed. }
  assert (Smart : forall r, SmartFileProcessor.standardizePassengerKey (Some k) = Some r ->
            SmartFileProcessor.standardizePassengerKey (Some r) = Some r).
  { intros r. rewrite PassengerKeyProps.smart_key_eq.
    destruct (Spec.digit_count k <? 3)%nat eqn:L; [discriminate|].
    apply Nat.ltb_ge in L.
    destruct (JS.includes k "P"); [|discriminate].
    intros [= <-]. now apply Fix. }
  split; [repeat split|]. split; [|split; [|split; [|split]]].
  - intros H. apply Nat.ltb_lt in H.
    change (SalesUploader.standardizePassengerKey (Some k))
      with (SmartFileProcessor.standardizePassengerKey (Some k)).
    rewrite PassengerKeyProps.smart_key_eq, PassengerKeyProps.loader_key_eq, H.
    repeat split.
  - intros H. pose proof H as L. apply Nat.ltb_ge in L.
    change (SalesUploader.standardizePassengerKey (Some k))
      with (SmartFileProcessor.standardizePassengerKey (Some k)).
    rewrite PassengerKeyProps.smart_key_eq, PassengerKeyProps.loader_key_eq, L.
    repeat split.
    destruct (PassengerKeyProps.canonical_key_shape k H)
      as (d1 & d2 & d3 & E & _ & _ & _ & C).
    exists d1, d2, d3. split; assumption.
  - exact Smart.
  - exact Smart.
  - intros r. rewrite PassengerKeyProps.loader_key_eq.
    destruct (Spec.digit_count k <? 3)%nat eqn:L; [discriminate|].
    apply Nat.ltb_ge in L. intros [= <-]. now apply Fix.
Qed.

Lemma C3_passenger_key_witness :
  (3 <= Spec.digit_count "AB-P12345"
   /\ PassengerUploader.standardizePassengerKey (Some "AB-P12345") = Some "P345"
   /\ SmartFileProcessor.standardizePassengerKey (Some "AB-P12345") = Some "P345"
   /\ SmartFileProcessor.standardizePassengerKey (Some "P345") = Some "P345"
   /\ SalesUploader.standardizePassengerKey (Some "P345") = Some "P345"
   /\ PassengerUploader.standardizePassengerKey (Some "P345") = Some "P345")
  /\ (Spec.digit_count "P12" < 3
      /\ SmartFileProcessor.standardizePassengerKey (Some "P12") = None
      /\ SalesUploader.standardizePassengerKey (Some "P12") = None
      /\ PassengerUploader.standardizePassengerKey (Some "P12") = None).
Proof.
  split.
  - assert (H : 3 <= Spec.digit_count "AB-P12345") by (vm_compute; lia).
    destruct (C3_passenger_key_standardization "AB-P12345")
      as (_ & _ & Hc & Hi & Hs & Hp).
    destruct (Hc H) as (Hl & Hk & Hu & _).
    split; [exact H|]. split; [exact Hl|]. split; [exact Hk|].
    split; [exact (Hi "P345" Hk)|]. split; [exact (Hs "P345" Hu)|].
    exact (Hp "P345" Hl).
  - assert (H : Spec.digit_count "P12" < 3) by (vm_compute; lia).
    destruct (C3_passenger_key_standardization "P12") as (_ & Hr & _).
    destruct (Hr H) as (H1 & H2 & H3).
    split; [exact H|]. split; [exact H1|]. split; [exact H2 | exact H3].
Defined.

(** A key with five digits and no letter [P] is rejected by
    [SmartFileProcessor] and [SalesUploader]. *)
Lemma C3_counterexample_digits_without_marker :
  3 <= Spec.digit_count "12345"
  /\ SmartFileProcessor.standardizePassengerKey (Some "12345") = None
  /\ SalesUploader.standardizePassengerKey (Some "12345") = None
  /\ PassengerUploader.standardizePassengerKey (Some "12345") = Some "P345".
Proof. vm_compute. repeat split; lia. Qed.

(** ** The classifier *)

Module ClassifierProps.
Import SmartFileProcessor.

(** When a registry entry passes the test of the loop, the first such
    entry in declaration order decides. *)
Lemma detectFileType_first_passing headers fileType signature :
  find (signature_passes (map JS.trim headers)) fileSignatures
    = Some (fileType, signature) ->
  detectFileType headers = fileType.
Proof. unfold detectFileType. intros ->. reflexivity. Qed.

(** C1. The header row [FlightKey, OriginAirportKey, DestinationAirportKey]
    contains, compared case-insensitively, the required columns of exactly
    one registered signature, [flights]; [detectFileType] compares the
    trimmed headers as they are with the lower-cased column names, finds no
    signature, and the substring fallback answers [airports]. *)
Theorem C1_flights_headers_detected_as_airports :
  spec_matching_types Scenarios.flights_headers = ["flights"]
  /\ find (signature_passes (map JS.trim Scenarios.flights_headers)) fileSignatures = None
  /\ detectFileType Scenarios.flights_headers = "airports".
Proof. vm_compute. repeat split; reflexivity. Qed.

End ClassifierProps.

(** ** The passenger scenario *)

(** C4 (as amended). The headers [PassengerKey, FullName, Email,
    LoyaltyStatus] classify as the passenger entity. The row with key [P1],
    which has a single digit, is quarantined: by [processPassengerData] with
    the reason [Invalid passenger key], by the passenger loader with a write
    to the quarantine table. The same row with key [P001] is clean: the
    passenger loader standardizes it to [P001], [Jane Doe],
    [jane.doe@example.com], [Gold], and [processPassengerData] to the same
    record with the loyalty text as written, [gold]. *)
Theorem C4_jane_doe_scenario :
  SmartFileProcessor.detectFileType Scenarios.passenger_headers = "passengers"
  /\ SmartFileProcessor.processPassengerData [Scenarios.jane "P1"] =
       {| SmartFileProcessor.cleanData := [];
          SmartFileProcessor.dirtyData :=
            [{| row := Scenarios.jane "P1"; reason := "Invalid passenger key" |}] |}
  /\ (forall w,
        PassengerUploader.scan_row PassengerUploader.scan_init 0 (Scenarios.jane "P1") w =
          (World.Val {| PassengerUploader.passengerMap := [];
                        PassengerUploader.duplicates := [];
                        PassengerUploader.invalidKeys := [(1, Some "P1")] |},
           World.after_call w
             (World.InsertDirty
                [{| source_table := "passengers";
                    original_data := PRow (Scenarios.jane "P1");
                    error_reason := "Invalid passenger key format: P1" |}])))
  /\ SmartFileProcessor.processPassengerData [Scenarios.jane "P001"] =
       {| SmartFileProcessor.cleanData := [PPassenger (Scenarios.jane_record "gold")];
          SmartFileProcessor.dirtyData := [] |}
  /\ (forall w,
        PassengerUploader.scan_row PassengerUploader.scan_init 0 (Scenarios.jane "P001") w =
          (World.Val {| PassengerUploader.passengerMap :=
                          [("P001",
                            {| PassengerUploader.rowNumber := 1;
                               PassengerUploader.originalKey := Some "P001";
                               PassengerUploader.data := Scenarios.jane_record "Gold" |})];
                        PassengerUploader.duplicates := [];
                        PassengerUploader.invalidKeys := [] |},
           w)).
Proof.
  split; [vm_compute; reflexivity|].
  split; [vm_compute; reflexivity|].
  split.
  { intros w. unfold PassengerUploader.scan_row.
    replace (JS.trim <$> Scenarios.jane "P1" !! "PassengerKey") with (Some "P1")
      by (vm_compute; reflexivity).
    replace (PassengerUploader.standardizePassengerKey (Some "P1")) with (@None string)
      by (vm_compute; reflexivity).
    unfold PassengerUploader.saveToDirtyTable, World.bind, World.try_catch,
      World.store, World.ret, World.after_call.
    cbn [default from_option]. 
    destruct (World.oracle w (List.length (World.trace w))); reflexivity. }
  split; [vm_compute; reflexivity|].
  intros w. vm_compute. reflexivity.
Qed.

(** The row of the scenario with key [P1] is not standardized to a clean
    record: [processPassengerData] returns no clean
    record and one rejection, and the passenger loader rejects the key. *)
Lemma C4_counterexample_P1_is_quarantined :
  SmartFileProcessor.cleanData
    (SmartFileProcessor.processPassengerData [Scenarios.jane "P1"]) = []
  /\ map reason
       (SmartFileProcessor.dirtyData
          (SmartFileProcessor.processPassengerData [Scenarios.jane "P1"]))
     = ["Invalid passenger key"]
  /\ SmartFileProcessor.standardizePassengerKey (Scenarios.jane "P1" !! "PassengerKey") = None
  /\ PassengerUploader.standardizePassengerKey
       (JS.trim <$> Scenarios.jane "P1" !! "PassengerKey") = None.
Proof. vm_compute. repeat split; reflexivity. Qed.

(** ** The deduplicator of the sales run *)

Module DedupProps.
Import SalesUploader Spec.

Lemma find_app {A} (f : A -> bool) l1 l2 :
  find f (l1 ++ l2) =
    match find f l1 with Some x => Some x | None => find f l2 end.
Proof.
  induction l1 as [|x l1 IH]; simpl; [reflexivity|].
  destruct (f x); [reflexivity | exact IH].
Qed.

Lemma dedup_snoc l x : dedup (l ++ [x]) = dedup_step (dedup l) x.
Proof. unfold dedup. now rewrite fold_left_app. Qed.

Lemma seenIds_dedup l k :
  k ∈ seenIds (dedup l) <-> k ∈ map Sale.transaction_id l.
Proof.
  induction l as [|x l IH] using rev_ind.
  - cbn. set_solver.
  - rewrite dedup_snoc, map_app. cbn [map]. unfold dedup_step.
    case_decide; cbn [seenIds]; set_solver.
Qed.

Lemma find_none_not_elem k (l : list Sale.t) :
  find (has_id k) l = None <-> k ∉ map Sale.transaction_id l.
Proof.
  induction l as [|x l IH]; cbn.
  - set_solver.
  - unfold has_id at 1. destruct (String.eqb_spec (Sale.transaction_id x) k).
    + set_solver.
    + rewrite IH. set_solver.
Qed.

(** The clean output holds, for each transaction ID, the first sale of the
    input that carries it. *)
Lemma find_finalSales l k :
  find (has_id k) (finalSales (dedup l)) = find (has_id k) l.
Proof.
  induction l as [|x l IH] using rev_ind; [reflexivity|].
  rewrite dedup_snoc, (find_app _ l). unfold dedup_step.
  case_decide as Hin; cbn [finalSales].
  - rewrite IH. destruct (find (has_id k) l) eqn:F; [reflexivity|].
    cbn. unfold has_id. destruct (String.eqb_spec (Sale.transaction_id x) k); [|reflexivity].
    subst k. apply seenIds_dedup in Hin. apply find_none_not_elem in F. contradiction.
  - now rewrite find_app, IH.
Qed.

Lemma count_finalSales l k :
  List.length (List.filter (has_id k) (finalSales (dedup l))) =
    if decide (k ∈ map Sale.transaction_id l) then 1 else 0.
Proof.
  induction l as [|x l IH] using rev_ind.
  - cbn. case_decide; [set_solver | reflexivity].
  - rewrite dedup_snoc, map_app. cbn [map]. unfold dedup_step.
    destruct (decide (Sale.transaction_id x ∈ seenIds (dedup l))) as [Hin|Hin];
      cbn [finalSales]; rewrite seenIds_dedup in Hin.
    + rewrite IH. repeat case_decide; try reflexivity; set_solver.
    + rewrite List.filter_app, List.length_app, IH. cbn.
      unfold has_id. destruct (String.eqb_spec (Sale.transaction_id x) k).
      * subst k. repeat case_decide; try reflexivity; set_solver.
      * repeat case_decide; try reflexivity; set_solver.
Qed.

Lemma crossFileDuplicates_grow l1 l2 :
  exists more,
    crossFileDuplicates (dedup (l1 ++ l2)) = crossFileDuplicates (dedup l1) ++ more.
Proof.
  induction l2 as [|x l2 [more IH]] using rev_ind.
  - exists []. now rewrite !app_nil_r.
  - rewrite app_assoc, dedup_snoc. unfold dedup_step.
    case_decide; cbn [crossFileDuplicates]; rewrite IH.
    + eexists. now rewrite <- app_assoc.
    + now exists more.
Qed.

Lemma finalSales_grow l1 l2 :
  exists more, finalSales (dedup (l1 ++ l2)) = finalSales (dedup l1) ++ more.
Proof.
  induction l2 as [|x l2 [more IH]] using rev_ind.
  - exists []. now rewrite !app_nil_r.
  - rewrite app_assoc, dedup_snoc. unfold dedup_step.
    case_decide; cbn [finalSales]; rewrite IH.
    + now exists more.
    + eexists. now rewrite <- app_assoc.
Qed.

(** The step taken on a sale whose ID was seen before. *)
Lemma dedup_step_seen st sale :
  Sale.transaction_id sale ∈ seenIds st ->
  dedup_step st sale =
    {| seenIds := seenIds st;
       finalSales := finalSales st;
       crossFileDuplicates := crossFileDuplicates st ++ [cross_file_duplicate sale] |}.
Proof. intros H. unfold dedup_step. now rewrite decide_True. Qed.

Lemma dedup_step_fresh st sale :
  Sale.transaction_id sale ∉ seenIds st ->
  dedup_step st sale =
    {| seenIds := seenIds st ∪ {[ Sale.transaction_id sale ]};
       finalSales := finalSales st ++ [sale];
       crossFileDuplicates := crossFileDuplicates st |}.
Proof. intros H. unfold dedup_step. now rewrite decide_False. Qed.

End DedupProps.

(** ** The row loop of the passenger loader *)

Module ScanProps.
Import PassengerUploader Spec Scenarios.

Lemma saveToDirtyTable_total p why w :
  exists b,
    saveToDirtyTable p why w =
      (World.Val b,
       World.after_call w (World.InsertDirty
         [{| source_table := "passengers"; original_data := p; error_reason := why |}])).
Proof.
  unfold saveToDirtyTable, World.try_catch, World.bind, World.store, World.ret,
    World.after_call.
  destruct (World.oracle w (List.length (World.trace w))); eauto.
Qed.

Lemma scan_row_invalid st i r w :
  passenger_key_of r = None ->
  scan_row st i r w =
    (World.Val {| passengerMap := passengerMap st;
                  duplicates := duplicates st;
                  invalidKeys := invalidKeys st ++ [(S i, JS.trim <$> (r !! "PassengerKey"))] |},
     World.after_call w (World.InsertDirty
       [{| source_table := "passengers"; original_data := PRow r;
           error_reason := "Invalid passenger key format: " +:+
                           default "undefined" (JS.trim <$> (r !! "PassengerKey")) |}])).
Proof.
  unfold passenger_key_of, scan_row. intros ->. unfold World.bind at 1.
  destruct (saveToDirtyTable_total (PRow r)
    ("Invalid passenger key format: " +:+
     default "undefined" (JS.trim <$> (r !! "PassengerKey"))) w) as [b ->].
  reflexivity.
Qed.

Lemma scan_row_duplicate st i r k w :
  passenger_key_of r = Some k ->
  map_has (passengerMap st) k = true ->
  scan_row st i r w =
    (World.Val {| passengerMap := passengerMap st;
                  duplicates := duplicates st ++ [(S i, k)];
                  invalidKeys := invalidKeys st |},
     World.after_call w (World.InsertDirty [duplicate_passenger r k])).
Proof.
  unfold passenger_key_of, scan_row. intros -> ->. unfold World.bind at 1.
  destruct (saveToDirtyTable_total (PRow r) ("Duplicate passenger key: " +:+ k) w)
    as [b ->].
  reflexivity.
Qed.

Lemma scan_row_fresh st i r k w :
  passenger_key_of r = Some k ->
  map_has (passengerMap st) k = false ->
  scan_row st i r w =
    (World.Val {| passengerMap := passengerMap st ++ [passenger_entry i k r];
                  duplicates := duplicates st;
                  invalidKeys := invalidKeys st |},
     w).
Proof.
  unfold passenger_key_of, scan_row. intros -> ->. reflexivity.
Qed.

Lemma scan_row_total st i r w :
  exists st' w',
    scan_row st i r w = (World.Val st', w')
    /\ passengerMap st' = map_after (passengerMap st) i r.
Proof.
  unfold map_after.
  destruct (passenger_key_of r) as [k|] eqn:K.
  - destruct (map_has (passengerMap st) k) eqn:H.
    + rewrite (scan_row_duplicate _ _ _ _ _ K H). eauto.
    + rewrite (scan_row_fresh _ _ _ _ _ K H). eauto.
  - rewrite (scan_row_invalid _ _ _ _ K). eauto.
Qed.

Lemma scan_rows_total rows : forall st i w,
  exists st' w',
    scan_rows st i rows w = (World.Val st', w')
    /\ passengerMap st' = maps_after (passengerMap st) i rows.
Proof.
  induction rows as [|r rows IH]; intros st i w; cbn [scan_rows maps_after].
  - unfold World.ret. eauto.
  - unfold World.bind.
    destruct (scan_row_total st i r w) as (st1 & w1 & -> & E1).
    destruct (IH st1 (S i) w1) as (st2 & w2 & -> & E2).
    exists st2, w2. split; [reflexivity|]. now rewrite E2, E1.
Qed.

Lemma scan_rows_app l1 l2 : forall st i w,
  scan_rows st i (l1 ++ l2) w =
    World.bind (scan_rows st i l1)
      (fun st' => scan_rows st' (i + List.length l1) l2) w.
Proof.
  induction l1 as [|r l1 IH]; intros st i w.
  - cbn. now rewrite Nat.add_0_r.
  - cbn [app scan_rows List.length]. unfold World.bind in *.
    destruct (scan_row st i r w) as [[st1|msg] w1]; [|reflexivity].
    now rewrite IH, Nat.add_succ_r.
Qed.

Lemma maps_after_app l1 l2 : forall m i,
  maps_after m i (l1 ++ l2) = maps_after (maps_after m i l1) (i + List.length l1) l2.
Proof.
  induction l1 as [|r l1 IH]; intros m i; cbn.
  - now rewrite Nat.add_0_r.
  - now rewrite IH, Nat.add_succ_r.
Qed.

Lemma map_has_app m1 m2 k : map_has (m1 ++ m2) k = map_has m1 k || map_has m2 k.
Proof. unfold map_has. apply existsb_app. Qed.

Lemma map_has_after m i r k :
  map_has (map_after m i r) k = map_has m k || has_key k r.
Proof.
  unfold map_after, has_key.
  destruct (passenger_key_of r) as [k'|] eqn:K.
  - destruct (map_has m k') eqn:H.
    + case_bool_decide as E; [|now rewrite orb_false_r].
      injection E as ->. now rewrite H.
    + rewrite map_has_app. cbn. rewrite orb_false_r. f_equal.
      destruct (String.eqb_spec k' k) as [->|N]; case_bool_decide; congruence.
  - rewrite bool_decide_eq_false_2 by discriminate. now rewrite orb_false_r.
Qed.

Lemma map_has_maps_after rows : forall m i k,
  map_has (maps_after m i rows) k = map_has m k || existsb (has_key k) rows.
Proof.
  induction rows as [|r rows IH]; intros m i k; cbn [maps_after existsb].
  - now rewrite orb_false_r.
  - now rewrite IH, map_has_after, orb_assoc.
Qed.

Lemma maps_after_grow rows : forall m i,
  exists more, maps_after m i rows = m ++ more.
Proof.
  induction rows as [|r rows IH]; intros m i; cbn.
  - exists []. now rewrite app_nil_r.
  - destruct (IH (map_after m i r) (S i)) as [more ->].
    unfold map_after. destruct (passenger_key_of r) as [k|]; [|eauto].
    destruct (map_has m k); [eauto|].
    eexists. now rewrite <- app_assoc.
Qed.

Lemma count_key_zero m k : map_has m k = false -> count_key k m = 0.
Proof.
  unfold map_has, count_key. induction m as [|e m IH]; cbn; [reflexivity|].
  destruct (String.eqb (fst e) k); [discriminate | exact IH].
Qed.

Lemma count_key_after m i r k :
  count_key k (map_after m i r) =
    if map_has m k then count_key k m else if has_key k r then 1 else 0.
Proof.
  unfold map_after, has_key.
  destruct (passenger_key_of r) as [k'|] eqn:K.
  - destruct (map_has m k') eqn:H.
    + destruct (map_has m k) eqn:Hk; [reflexivity|].
      rewrite (count_key_zero _ _ Hk).
      case_bool_decide as E; [|reflexivity]. injection E as ->. congruence.
    + unfold count_key. rewrite List.filter_app, List.length_app. cbn.
      fold (count_key k m).
      destruct (String.eqb_spec k' k) as [->|N].
      * rewrite H, (count_key_zero _ _ H), bool_decide_eq_true_2; reflexivity.
      * rewrite bool_decide_eq_false_2 by congruence. cbn. rewrite Nat.add_0_r.
        destruct (map_has m k) eqn:Hk; [reflexivity | now apply count_key_zero].
  - rewrite bool_decide_eq_false_2 by discriminate.
    destruct (map_has m k) eqn:Hk; [reflexivity | now apply count_key_zero].
Qed.

Lemma count_key_maps_after rows : forall m i k,
  map_has m k = false ->
  count_key k (maps_after m i rows) = if existsb (has_key k) rows then 1 else 0.
Proof.
  induction rows as [|r rows IH]; intros m i k H; cbn [maps_after existsb].
  - now apply count_key_zero.
  - destruct (has_key k r) eqn:E; cbn [orb].
    + assert (C : count_key k (map_after m i r) = 1)
        by now rewrite count_key_after, H, E.
      assert (M : map_has (map_after m i r) k = true)
        by now rewrite map_has_after, E, orb_true_r.
      clear IH. revert C M. generalize (map_after m i r) (S i).
      induction rows as [|r' rows IH']; intros m' i' C M; cbn [maps_after]; [exact C|].
      apply IH'.
      * now rewrite count_key_after, M.
      * now rewrite map_has_after, M.
    + apply IH. now rewrite map_has_after, H, E.
Qed.

(** Every entry of the map carries its key in its record. *)
Lemma keys_of_records rows : forall m i,
  Forall (fun e => Passenger.passenger_key (data (snd e)) = fst e) m ->
  Forall (fun e => Passenger.passenger_key (data (snd e)) = fst e) (maps_after m i rows).
Proof.
  induction rows as [|r rows IH]; intros m i H; cbn; [exact H|].
  apply IH. unfold map_after.
  destruct (passenger_key_of r) as [k|]; [|exact H].
  destruct (map_has m k); [exact H|].
  apply Forall_app. split; [exact H|]. constructor; [reflexivity | constructor].
Qed.

Lemma count_records m k :
  Forall (fun e => Passenger.passenger_key (data (snd e)) = fst e) m ->
  List.length
    (List.filter (fun p => String.eqb (Passenger.passenger_key p) k)
       (map (fun e => data (snd e)) m))
  = count_key k m.
Proof.
  unfold count_key. induction 1 as [|e m E _ IH]; cbn; [reflexivity|].
  rewrite E. destruct (String.eqb (fst e) k); cbn; now rewrite IH.
Qed.

End ScanProps.

(** ** First occurrence wins *)

Module FirstWins.
Import Spec.

Lemma elem_of_map_lookup {A B} (f : A -> B) (l : list A) i x :
  l !! i = Some x -> f x ∈ map f l.
Proof.
  intros H. apply list_elem_of_In, in_map, list_elem_of_In.
  eapply list_elem_of_lookup_2, H.
Qed.

Lemma elem_of_map_take {A B} (f : A -> B) (l : list A) n y :
  y ∈ map f (take n l) -> exists i x, i < n /\ l !! i = Some x /\ f x = y.
Proof.
  intros H. apply list_elem_of_In, in_map_iff in H as (x & <- & H).
  apply list_elem_of_In, list_elem_of_lookup in H as (i & H).
  apply lookup_take_Some in H as [H L]. eauto.
Qed.

Lemma split_at {A} (l : list A) i x :
  l !! i = Some x -> l = (take i l ++ [x]) ++ drop (S i) l.
Proof. intros H. rewrite <- app_assoc. symmetry. now apply take_drop_middle. Qed.

Lemma existsb_lookup {A} (f : A -> bool) (l : list A) i x :
  l !! i = Some x -> f x = true -> existsb f l = true.
Proof.
  intros H F. apply existsb_exists. exists x. split; [|exact F].
  apply list_elem_of_In. eapply list_elem_of_lookup_2, H.
Qed.

Lemma existsb_take_false {A} (f : A -> bool) (l : list A) n :
  (forall i x, i < n -> l !! i = Some x -> f x = false) ->
  existsb f (take n l) = false.
Proof.
  intros H. destruct (existsb f (take n l)) eqn:E; [|reflexivity].
  apply existsb_exists in E as (x & I & F).
  apply list_elem_of_In, list_elem_of_lookup in I as (i & I).
  apply lookup_take_Some in I as [I L]. now rewrite (H i x L I) in F.
Qed.

End FirstWins.

(** C8. In the sales run, when the sales at positions [i < j] carry the same
    transaction ID, the step taken at position [j] appends a duplicate entry
    to the quarantine and leaves the clean output as it is; the entry is in
    the final quarantine; the final clean output holds exactly one sale with
    that ID, the first one of the input, which is the sale at position [i]
    when no earlier sale carries the ID. The row loop of the passenger loader
    does the same with the standardized passenger key: the later row is sent
    to the quarantine table with a duplicate reason and is not added to the
    map, whose values are the clean output. *)
Theorem C8_first_of_duplicates_is_kept :
  (forall (l : list Sale.t) (i j : nat) (si sj : Sale.t),
      l !! i = Some si -> l !! j = Some sj -> i < j ->
      Sale.transaction_id si = Sale.transaction_id sj ->
      let before := SalesUploader.dedup (take j l) in
      let final := SalesUploader.dedup l in
      SalesUploader.dedup_step before sj =
        {| SalesUploader.seenIds := SalesUploader.seenIds before;
           SalesUploader.finalSales := SalesUploader.finalSales before;
           SalesUploader.crossFileDuplicates :=
             SalesUploader.crossFileDuplicates before ++ [Spec.cross_file_duplicate sj] |}
      /\ Spec.cross_file_duplicate sj ∈ SalesUploader.crossFileDuplicates final
      /\ List.length (List.filter (Spec.has_id (Sale.transaction_id si))
                        (SalesUploader.finalSales final)) = 1
      /\ find (Spec.has_id (Sale.transaction_id si)) (SalesUploader.finalSales final)
         = find (Spec.has_id (Sale.transaction_id si)) l
      /\ ((forall i' s', i' < i -> l !! i' = Some s' ->
             Sale.transaction_id s' <> Sale.transaction_id si) ->
          SalesUploader.dedup_step (SalesUploader.dedup (take i l)) si =
            {| SalesUploader.seenIds :=
                 SalesUploader.seenIds (SalesUploader.dedup (take i l))
                 ∪ {[ Sale.transaction_id si ]};
               SalesUploader.finalSales :=
                 SalesUploader.finalSales (SalesUploader.dedup (take i l)) ++ [si];
               SalesUploader.crossFileDuplicates :=
                 SalesUploader.crossFileDuplicates (SalesUploader.dedup (take i l)) |}
          /\ find (Spec.has_id (Sale.transaction_id si)) (SalesUploader.finalSales final)
             = Some si))
  /\ (forall (rows : list Row) (i j : nat) (ri rj : Row) (k : string) (w : World.t),
      rows !! i = Some ri -> rows !! j = Some rj -> i < j ->
      Spec.passenger_key_of ri = Some k -> Spec.passenger_key_of rj = Some k ->
      exists before w' final wf,
        PassengerUploader.scan_rows PassengerUploader.scan_init 0 (take j rows) w
          = (World.Val before, w')
        /\ PassengerUploader.scan_row before j rj w' =
             (World.Val
                {| PassengerUploader.passengerMap := PassengerUploader.passengerMap before;
                   PassengerUploader.duplicates :=
                     PassengerUploader.duplicates before ++ [(S j, k)];
                   PassengerUploader.invalidKeys := PassengerUploader.invalidKeys before |},
              World.after_call w'
                (World.InsertDirty [Spec.duplicate_passenger rj k]))
        /\ PassengerUploader.scan_rows PassengerUploader.scan_init 0 rows w
             = (World.Val final, wf)
        /\ List.length
             (List.filter (fun p => String.eqb (Passenger.passenger_key p) k)
                (Spec.uniquePassengers final)) = 1
        /\ ((forall i' r', i' < i -> rows !! i' = Some r' ->
               Spec.passenger_key_of r' <> Some k) ->
            Spec.passenger_entry i k ri ∈ PassengerUploader.passengerMap final)).
Proof.
  split.
  - intros l i j si sj Hi Hj Lt E. cbn zeta.
    assert (Seen : Sale.transaction_id sj
                   ∈ SalesUploader.seenIds (SalesUploader.dedup (take j l))).
    { apply DedupProps.seenIds_dedup. rewrite <- E.
      apply (FirstWins.elem_of_map_lookup _ _ i). now rewrite lookup_take_lt. }
    assert (In : Sale.transaction_id si ∈ map Sale.transaction_id l)
      by apply (FirstWins.elem_of_map_lookup _ _ _ _ Hi).
    split; [now apply DedupProps.dedup_step_seen|].
    split.
    { destruct (DedupProps.crossFileDuplicates_grow (take j l ++ [sj]) (drop (S j) l))
        as [more G].
      rewrite <- (FirstWins.split_at l j sj Hj) in G. rewrite G.
      rewrite DedupProps.dedup_snoc, (DedupProps.dedup_step_seen _ _ Seen).
      cbn [SalesUploader.crossFileDuplicates]. set_solver. }
    split.
    { rewrite DedupProps.count_finalSales. now rewrite decide_True. }
    split; [apply DedupProps.find_finalSales|].
    intros First.
    assert (Fresh : Sale.transaction_id si
                    ∉ SalesUploader.seenIds (SalesUploader.dedup (take i l))).
    { rewrite DedupProps.seenIds_dedup. intros H.
      apply FirstWins.elem_of_map_take in H as (i' & s' & L & H & Eq).
      exact (First i' s' L H Eq). }
    split; [now apply DedupProps.dedup_step_fresh|].
    rewrite DedupProps.find_finalSales.
    rewrite DedupProps.seenIds_dedup in Fresh.
    apply DedupProps.find_none_not_elem in Fresh.
    pose proof (DedupProps.find_app (Spec.has_id (Sale.transaction_id si))
                  (take i l) (si :: drop (S i) l)) as F.
    rewrite take_drop_middle in F by exact Hi. rewrite F, Fresh.
    cbn. unfold Spec.has_id. now rewrite String.eqb_refl.
  - intros rows i j ri rj k w Hi Hj Lt Ki Kj.
    destruct (ScanProps.scan_rows_total (take j rows) PassengerUploader.scan_init 0 w)
      as (before & w' & Eb & Mb).
    destruct (ScanProps.scan_rows_total rows PassengerUploader.scan_init 0 w)
      as (final & wf & Ef & Mf).
    exists before, w', final, wf.
    change (PassengerUploader.passengerMap PassengerUploader.scan_init)
      with (@nil (string * PassengerUploader.Entry)) in Mb, Mf.
    assert (Hk : forall r, Spec.passenger_key_of r = Some k -> Spec.has_key k r = true).
    { intros r H. unfold Spec.has_key. now apply bool_decide_eq_true_2. }
    split; [exact Eb|]. split.
    { apply ScanProps.scan_row_duplicate; [exact Kj|].
      rewrite Mb, ScanProps.map_has_maps_after. cbn.
      apply (FirstWins.existsb_lookup _ _ i ri); [|now apply Hk].
      now rewrite lookup_take_lt. }
    split; [exact Ef|]. split.
    { unfold Spec.uniquePassengers. rewrite ScanProps.count_records.
      - rewrite Mf, ScanProps.count_key_maps_after by reflexivity.
        now rewrite (FirstWins.existsb_lookup _ _ i ri Hi (Hk _ Ki)).
      - rewrite Mf. apply ScanProps.keys_of_records. constructor. }
    intros First. rewrite Mf.
    pose proof (ScanProps.maps_after_app (take i rows) (ri :: drop (S i) rows) [] 0) as F.
    rewrite take_drop_middle in F by exact Hi. rewrite F. clear F.
    cbn [Spec.maps_after].
    destruct (ScanProps.maps_after_grow (drop (S i) rows)
                (Spec.map_after (Spec.maps_after [] 0 (take i rows))
                   (0 + List.length (take i rows)) ri)
                (S (0 + List.length (take i rows)))) as [more ->].
    apply elem_of_app. left.
    unfold Spec.map_after. rewrite Ki.
    rewrite ScanProps.map_has_maps_after. cbn [PassengerUploader.map_has existsb orb].
    rewrite FirstWins.existsb_take_false.
    + rewrite length_take_le by (apply Nat.lt_le_incl; eapply lookup_lt_Some, Hi).
      apply elem_of_app. right. cbn. set_solver.
    + intros i' r' L H. unfold Spec.has_key. apply bool_decide_eq_false_2.
      now apply (First i' r').
Qed.

Lemma C8_first_of_duplicates_witness :
  (Spec.cross_file_duplicate (Scenarios.sale "TA000007" "corporate" 9900)
     ∈ SalesUploader.crossFileDuplicates
         (SalesUploader.dedup [Scenarios.sale "TA000007" "travel_agency" 12000;
                               Scenarios.sale "TA000007" "corporate" 9900])
   /\ find (Spec.has_id "TA000007")
        (SalesUploader.finalSales
           (SalesUploader.dedup [Scenarios.sale "TA000007" "travel_agency" 12000;
                                 Scenarios.sale "TA000007" "corporate" 9900]))
      = Some (Scenarios.sale "TA000007" "travel_agency" 12000))
  /\ exists final wf,
       PassengerUploader.scan_rows PassengerUploader.scan_init 0
         [Scenarios.jane "P001"; Scenarios.jane "P-77001"] Scenarios.always_ok
         = (World.Val final, wf)
       /\ List.length
            (List.filter (fun p => String.eqb (Passenger.passenger_key p) "P001")
               (Spec.uniquePassengers final)) = 1
       /\ Spec.passenger_entry 0 "P001" (Scenarios.jane "P001")
            ∈ PassengerUploader.passengerMap final.
Proof.
  destruct C8_first_of_duplicates_is_kept as [S P].
  split.
  - destruct (S [Scenarios.sale "TA000007" "travel_agency" 12000;
                 Scenarios.sale "TA000007" "corporate" 9900]
                0 1 _ _ eq_refl eq_refl ltac:(lia) eq_refl) as (_ & H & _ & _ & F).
    split; [exact H|]. apply F. intros i' s' L. lia.
  - assert (K0 : Spec.passenger_key_of (Scenarios.jane "P001") = Some "P001")
      by (vm_compute; reflexivity).
    assert (K1 : Spec.passenger_key_of (Scenarios.jane "P-77001") = Some "P001")
      by (vm_compute; reflexivity).
    destruct (P [Scenarios.jane "P001"; Scenarios.jane "P-77001"]
                0 1 _ _ "P001" Scenarios.always_ok eq_refl eq_refl ltac:(lia) K0 K1)
      as (before & w' & final & wf & _ & _ & E & C & F).
    exists final, wf. split; [exact E|]. split; [exact C|].
    apply F. intros i' r' L. lia.
Defined.

(** ** The sales file processor *)

Module SalesFileProps.
Import SalesUploader Spec Scenarios.

Section WithDates.
Variable isoDateOf : option string -> option string.
Variable sourceType : string.

Lemma processSalesFile_snoc rows r :
  processSalesFile isoDateOf (rows ++ [r]) sourceType =
    on_data isoDateOf sourceType (processSalesFile isoDateOf rows sourceType) r.
Proof. unfold processSalesFile. now rewrite fold_left_app. Qed.

(** Every row leaves its synthesized transaction ID in the set, whatever
    becomes of the row. *)
Lemma seen_on_data st r k :
  k ∈ seenTransactionIds (on_data isoDateOf sourceType st r)
  <-> k ∈ seenTransactionIds st \/ k = transactionId_of sourceType r.
Proof.
  unfold on_data, reject.
  repeat case_match; cbn [seenTransactionIds]; set_solver.
Qed.

Lemma seen_processSalesFile rows k :
  k ∈ seenTransactionIds (processSalesFile isoDateOf rows sourceType)
  <-> k ∈ map (transactionId_of sourceType) rows.
Proof.
  induction rows as [|r rows IH] using rev_ind.
  - cbn. set_solver.
  - rewrite processSalesFile_snoc, seen_on_data, IH, map_app. cbn [map]. set_solver.
Qed.

(** The step taken on a row whose synthesized ID is in the set: the row is
    rejected before any of its fields is looked at. *)
Lemma on_data_duplicate st r :
  transactionId_of sourceType r ∈ seenTransactionIds st ->
  on_data isoDateOf sourceType st r =
    {| sales := sales st;
       dirtyRows := dirtyRows st ++ [within_file_duplicate sourceType r];
       seenTransactionIds := seenTransactionIds st |}.
Proof. intros H. unfold on_data. now rewrite decide_True. Qed.

Lemma dirtyRows_on_data st r :
  exists more,
    dirtyRows (on_data isoDateOf sourceType st r) = dirtyRows st ++ more.
Proof.
  unfold on_data, reject.
  repeat case_match; cbn [dirtyRows]; eauto using app_nil_r.
Qed.

Lemma dirtyRows_grow l1 l2 :
  exists more,
    dirtyRows (processSalesFile isoDateOf (l1 ++ l2) sourceType) =
      dirtyRows (processSalesFile isoDateOf l1 sourceType) ++ more.
Proof.
  induction l2 as [|r l2 [more IH]] using rev_ind.
  - exists []. now rewrite !app_nil_r.
  - rewrite app_assoc, processSalesFile_snoc.
    destruct (dirtyRows_on_data
                (processSalesFile isoDateOf (l1 ++ l2) sourceType) r) as [more' ->].
    rewrite IH. eexists. now rewrite <- app_assoc.
Qed.

End WithDates.

End SalesFileProps.

(** C10. In [processSalesFile], when the rows at positions [i < j]
    synthesize the same transaction ID, the handler rejects the row at
    position [j] as a duplicate within the file before it looks at any other
    field, and the entry is in the quarantine of the file. Nothing is
    assumed about the row at position [i]: whether it was accepted or
    rejected, its ID is in the set from position [i] on. *)
Theorem C10_duplicate_check_precedes_validation
    (isoDateOf : option string -> option string) (sourceType : string)
    (rows : list Row) (i j : nat) (ri rj : Row) :
  rows !! i = Some ri -> rows !! j = Some rj -> i < j ->
  SalesUploader.transactionId_of sourceType ri
    = SalesUploader.transactionId_of sourceType rj ->
  let before := SalesUploader.processSalesFile isoDateOf (take j rows) sourceType in
  SalesUploader.transactionId_of sourceType ri
    ∈ SalesUploader.seenTransactionIds
        (SalesUploader.processSalesFile isoDateOf (take (S i) rows) sourceType)
  /\ SalesUploader.on_data isoDateOf sourceType before rj =
       {| SalesUploader.sales := SalesUploader.sales before;
          SalesUploader.dirtyRows :=
            SalesUploader.dirtyRows before
            ++ [Spec.within_file_duplicate sourceType rj];
          SalesUploader.seenTransactionIds := SalesUploader.seenTransactionIds before |}
  /\ Spec.within_file_duplicate sourceType rj
       ∈ SalesUploader.dirtyRows
           (SalesUploader.processSalesFile isoDateOf rows sourceType).
Proof.
  intros Hi Hj Lt E. cbn zeta.
  assert (Seen : SalesUploader.transactionId_of sourceType rj
                 ∈ SalesUploader.seenTransactionIds
                     (SalesUploader.processSalesFile isoDateOf (take j rows) sourceType)).
  { apply SalesFileProps.seen_processSalesFile. rewrite <- E.
    apply (FirstWins.elem_of_map_lookup _ _ i). now rewrite lookup_take_lt. }
  split.
  { apply SalesFileProps.seen_processSalesFile.
    apply (FirstWins.elem_of_map_lookup _ _ i). rewrite lookup_take_lt; [exact Hi | lia]. }
  split; [now apply SalesFileProps.on_data_duplicate|].
  destruct (SalesFileProps.dirtyRows_grow isoDateOf sourceType
              (take j rows ++ [rj]) (drop (S j) rows)) as [more G].
  rewrite <- (FirstWins.split_at rows j rj Hj) in G. rewrite G.
  rewrite SalesFileProps.processSalesFile_snoc,
    (SalesFileProps.on_data_duplicate _ _ _ _ Seen).
  cbn [SalesUploader.dirtyRows]. set_solver.
Qed.

Lemma C10_duplicate_check_witness :
  map error_reason
    (SalesUploader.dirtyRows
       (SalesUploader.processSalesFile Scenarios.iso_date
          [Scenarios.sales_row "7" "no key" "100.00";
           Scenarios.sales_row "07" "P12345" "100.00"] "travel_agency"))
  = ["Invalid passenger key"; "Duplicate transaction ID within file: TA000007"]
  /\ Spec.within_file_duplicate "travel_agency"
       (Scenarios.sales_row "07" "P12345" "100.00")
     ∈ SalesUploader.dirtyRows
         (SalesUploader.processSalesFile Scenarios.iso_date
            [Scenarios.sales_row "7" "no key" "100.00";
             Scenarios.sales_row "07" "P12345" "100.00"] "travel_agency").
Proof.
  split; [vm_compute; reflexivity|].
  assert (E : SalesUploader.transactionId_of "travel_agency"
                (Scenarios.sales_row "7" "no key" "100.00")
              = SalesUploader.transactionId_of "travel_agency"
                  (Scenarios.sales_row "07" "P12345" "100.00"))
    by (vm_compute; reflexivity).
  destruct (C10_duplicate_check_precedes_validation Scenarios.iso_date "travel_agency"
              [Scenarios.sales_row "7" "no key" "100.00";
               Scenarios.sales_row "07" "P12345" "100.00"]
              0 1 _ _ eq_refl eq_refl ltac:(lia) E) as (_ & _ & H).
  exact H.
Defined.

(** ** The load loop of the sales run *)

Module LoadProps.
Import SalesUploader Spec Scenarios.

Lemma length_after_call w c :
  List.length (World.trace (World.after_call w c)) = S (List.length (World.trace w)).
Proof. unfold World.after_call. cbn. rewrite List.length_app. cbn. lia. Qed.

(** The step on one sale when the individual upsert does not throw. *)
Lemma upload_one_returns st sale w :
  throws (World.oracle w (List.length (World.trace w))) = false ->
  let r := World.oracle w (List.length (World.trace w)) in
  upload_one st sale w =
    (World.Val
       {| uploaded := uploaded st + (if is_ok r then 1 else 0);
          errors := errors st + (if other_error_reply r then 1 else 0);
          skippedDuplicates := skippedDuplicates st + (if conflict_reply r then 1 else 0);
          allDirty := allDirty st ++ option_list (quarantine_for sale r) |},
     World.after_call w (upsert_call [sale])).
Proof.
  intros H r. subst r.
  unfold upload_one, World.try_catch, World.bind, upsert_sales, World.store,
    World.ret, World.after_call, upsert_call.
  destruct (World.oracle w (List.length (World.trace w))) as [|c m|m];
    cbn in H |- *; try discriminate.
  - rewrite !Nat.add_0_r, Nat.add_1_r, app_nil_r. now destruct st.
  - destruct (World.is_conflict {| World.code := c; World.message := m |}); cbn;
      rewrite !Nat.add_0_r, Nat.add_1_r; reflexivity.
Qed.

Lemma upload_each_returns batch : forall st w,
  forallb (fun r => negb (throws r))
    (replies w (List.length (World.trace w)) (List.length batch)) = true ->
  let rs := replies w (List.length (World.trace w)) (List.length batch) in
  exists st' w',
    upload_each st batch w = (World.Val st', w')
    /\ World.oracle w' = World.oracle w
    /\ World.trace w' =
         World.trace w ++ zip (map (fun s => upsert_call [s]) batch) rs
    /\ allDirty st' = allDirty st ++ omap (fun x => quarantine_for x.1 x.2) (zip batch rs)
    /\ skippedDuplicates st' = skippedDuplicates st + count conflict_reply rs
    /\ errors st' = errors st + count other_error_reply rs
    /\ uploaded st' = uploaded st + count is_ok rs.
Proof.
  unfold replies, count.
  induction batch as [|sale batch IH]; intros st w H; cbn zeta.
  - exists st, w. cbn. rewrite !app_nil_r, !Nat.add_0_r. repeat split.
  - cbn [List.length seq map forallb] in H. apply andb_true_iff in H as [H0 H].
    apply negb_true_iff in H0.
    cbn [upload_each]. unfold World.bind.
    rewrite (upload_one_returns st sale w H0). cbn zeta.
    match goal with
    | |- context [upload_each ?s batch ?w1] =>
        destruct (IH s w1) as (st' & w' & E & O & T & D & S1 & S2 & S3)
    end.
    { rewrite length_after_call. exact H. }
    rewrite length_after_call in T, D, S1, S2, S3.
    exists st', w'. rewrite E.
    split; [reflexivity|]. split; [exact O|].
    cbn [List.length seq map zip zip_with omap List.filter fst snd].
    cbn [World.oracle World.trace World.after_call allDirty skippedDuplicates errors uploaded]
      in T, D, S1, S2, S3.
    rewrite T, D, S1, S2, S3. clear E T D S1 S2 S3 IH.
    rewrite <- !app_assoc. cbn [app].
    generalize (map (World.oracle w)
                  (seq (S (List.length (World.trace w))) (List.length batch))).
    intros rs.
    destruct (World.oracle w (List.length (World.trace w))) as [|c m|m];
      cbn in H0 |- *; try discriminate.
    + repeat split; lia.
    + destruct (World.is_conflict {| World.code := c; World.message := m |}); cbn;
        repeat split; lia.
Qed.



(** A batch whose upsert throws is only counted. *)
Lemma upload_batch_throws st batch w msg :
  World.oracle w (List.length (World.trace w)) = World.RThrow msg ->
  upload_batch st batch w =
    (World.Val {| uploaded := uploaded st;
                  errors := errors st + List.length batch;
                  skippedDuplicates := skippedDuplicates st;
                  allDirty := allDirty st |},
     World.after_call w (upsert_call batch)).
Proof.
  intros H.
  unfold upload_batch, World.try_catch, World.bind, upsert_sales, World.store,
    World.ret, World.after_call, upsert_call.
  now rewrite H.
Qed.

End LoadProps.

(** ** The load loop of the passenger loader *)

Module PassengerLoadProps.
Import PassengerUploader Spec Scenarios.

Lemma saveToDirtyTable_call p why w :
  exists b,
    saveToDirtyTable (PPassenger p) why w
    = (World.Val b, World.after_call w (quarantine_call why p)).
Proof. apply ScanProps.saveToDirtyTable_total. Qed.

(** A batch whose error is not a conflict: every record goes to the
    quarantine table, none is inserted on its own. *)
Lemma quarantine_each_spec msg batch : forall st w,
  exists w',
    quarantine_each st msg batch w =
      (World.Val {| uploaded := uploaded st; errors := errors st;
                    alreadyExist := alreadyExist st;
                    failedPassengers :=
                      failedPassengers st ++ map Passenger.passenger_key batch |},
       w')
    /\ World.oracle w' = World.oracle w
    /\ World.trace w' =
         World.trace w ++
         zip (map (quarantine_call ("Batch upload failed: " +:+ msg)) batch)
             (replies w (List.length (World.trace w)) (List.length batch)).
Proof.
  unfold replies.
  induction batch as [|p batch IH]; intros st w.
  - exists w. cbn. rewrite !app_nil_r. now destruct st.
  - cbn [quarantine_each]. unfold World.bind at 1.
    destruct (saveToDirtyTable_call p ("Batch upload failed: " +:+ msg) w) as [b ->].
    match goal with
    | |- context [quarantine_each ?s msg batch ?w1] =>
        destruct (IH s w1) as (w' & E & O & T)
    end.
    exists w'. rewrite E. rewrite LoadProps.length_after_call in T.
    cbn [uploaded errors alreadyExist failedPassengers World.oracle World.trace
         World.after_call] in *.
    split; [now rewrite <- app_assoc|]. split; [exact O|].
    rewrite T, <- app_assoc. reflexivity.
Qed.

Lemma insert_batch_other_error st batch w c m :
  World.oracle w (List.length (World.trace w)) = World.RError c m ->
  World.is_conflict {| World.code := c; World.message := m |} = false ->
  exists w',
    insert_batch st batch w =
      (World.Val {| uploaded := uploaded st;
                    errors := errors st + List.length batch;
                    alreadyExist := alreadyExist st;
                    failedPassengers :=
                      failedPassengers st ++ map Passenger.passenger_key batch |},
       w')
    /\ World.trace w' =
         World.trace w ++
         (insert_call batch, World.RError c m)
         :: zip (map (quarantine_call ("Batch upload failed: " +:+ m)) batch)
                (replies w (S (List.length (World.trace w))) (List.length batch)).
Proof.
  intros H C.
  unfold insert_batch, World.try_catch, World.bind at 1, insert_passengers, World.store.
  rewrite H, C. cbn [World.message]. unfold World.bind.
  match goal with
  | |- context [quarantine_each ?s m batch ?w1] =>
      destruct (quarantine_each_spec m batch s w1) as (w' & -> & O & T)
  end.
  exists w'. split; [reflexivity|].
  rewrite T. cbn [World.trace World.oracle]. rewrite List.length_app. cbn [List.length].
  rewrite Nat.add_1_r, <- app_assoc. reflexivity.
Qed.

(** The individual insert of the fallback, by the answer of the store. *)
Lemma insert_one_cases st p w :
  let r := World.oracle w (List.length (World.trace w)) in
  let w1 := World.after_call w (insert_call [p]) in
  insert_one st p w =
    if is_ok r then
      (World.Val {| uploaded := S (uploaded st); errors := errors st;
                    alreadyExist := alreadyExist st;
                    failedPassengers := failedPassengers st |}, w1)
    else if conflict_reply r then
      (World.Val {| uploaded := uploaded st; errors := errors st;
                    alreadyExist := S (alreadyExist st);
                    failedPassengers := failedPassengers st |}, w1)
    else
      (World.Val {| uploaded := uploaded st; errors := S (errors st);
                    alreadyExist := alreadyExist st;
                    failedPassengers :=
                      failedPassengers st ++ [Passenger.passenger_key p] |},
       World.after_call w1 (quarantine_call (individual_failure_reason r) p)).
Proof.
  cbn zeta.
  unfold insert_one, insert_passengers, World.store, World.bind, World.ret.
  fold (insert_call [p]).
  destruct (World.oracle w (List.length (World.trace w))) as [|c m|m] eqn:R;
    cbn [is_ok conflict_reply individual_failure_reason].
  - unfold World.after_call. now rewrite R.
  - destruct (World.is_conflict {| World.code := c; World.message := m |}).
    + unfold World.after_call. now rewrite R.
    + cbn [World.message].
      match goal with
      | |- context [saveToDirtyTable _ ?why ?w1] =>
          destruct (saveToDirtyTable_call p why w1) as [b ->]
      end.
      unfold World.after_call at 3. now rewrite R.
  - match goal with
    | |- context [saveToDirtyTable _ ?why ?w1] =>
        destruct (saveToDirtyTable_call p why w1) as [b ->]
    end.
    unfold World.after_call at 3. now rewrite R.
Qed.

Lemma insert_each_total batch : forall st w,
  exists st' w', insert_each st batch w = (World.Val st', w').
Proof.
  induction batch as [|p batch IH]; intros st w; cbn [insert_each].
  - unfold World.ret. eauto.
  - unfold World.bind. rewrite insert_one_cases. cbn zeta.
    destruct (is_ok _); [apply IH|].
    destruct (conflict_reply _); apply IH.
Qed.

Lemma insert_batch_conflict st batch w c m :
  World.oracle w (List.length (World.trace w)) = World.RError c m ->
  World.is_conflict {| World.code := c; World.message := m |} = true ->
  insert_batch st batch w = insert_each st batch (World.after_call w (insert_call batch)).
Proof.
  intros H C.
  unfold insert_batch, World.try_catch, World.bind at 1, insert_passengers, World.store.
  rewrite H, C. unfold World.after_call, insert_call. rewrite H.
  match goal with
  | |- context [insert_each st batch ?w1] =>
      destruct (insert_each_total batch st w1) as (st' & w' & ->)
  end.
  reflexivity.
Qed.

(** A batch whose insert throws is only counted. *)
Lemma insert_batch_throws st batch w msg :
  World.oracle w (List.length (World.trace w)) = World.RThrow msg ->
  insert_batch st batch w =
    (World.Val {| uploaded := uploaded st;
                  errors := errors st + List.length batch;
                  alreadyExist := alreadyExist st;
                  failedPassengers := failedPassengers st |},
     World.after_call w (insert_call batch)).
Proof.
  intros H.
  unfold insert_batch, World.try_catch, World.bind, insert_passengers, World.store,
    World.ret, World.after_call, insert_call.
  now rewrite H.
Qed.

End PassengerLoadProps.

(** ** The batch-to-individual fallback *)




(** ** A batch call that throws *)

(** C2. One valid row of the travel-agency file, and a store whose calls
    throw. After the run of [uploadAllSales] the record is in the clean
    list; the only call made is the batch upsert, which threw, so the record
    is not stored; it is not counted as already existing; the quarantine
    list is empty and no quarantine write was made: the record is counted as
    an error and nothing else. The passenger loader does the same with a
    batch insert that throws, and [processFile] ends the file without
    writing the rejected row of the file to the quarantine. *)
Theorem C2_thrown_batch_loses_its_records :
  (exists sale w',
      SalesUploader.uploadAllSales Scenarios.iso_date
        [Scenarios.sales_row "1" "P12345" "100.00"] []
        (Scenarios.always (World.RThrow "fetch failed"))
      = (World.Val
           {| SalesUploader.clean := [sale];
              SalesUploader.load :=
                {| SalesUploader.uploaded := 0;
                   SalesUploader.errors := 1;
                   SalesUploader.skippedDuplicates := 0;
                   SalesUploader.allDirty := [] |};
              SalesUploader.dirtySaved := 0 |},
         w')
      /\ World.trace w' = [(Spec.upsert_call [sale], World.RThrow "fetch failed")])
  /\ (exists scan w',
      PassengerUploader.uploadPassengers [Scenarios.jane "P001"]
        (Scenarios.always (World.RThrow "fetch failed"))
      = (World.Val
           (scan,
            Some {| PassengerUploader.uploaded := 0;
                    PassengerUploader.errors := 1;
                    PassengerUploader.alreadyExist := 0;
                    PassengerUploader.failedPassengers := [] |}),
         w')
      /\ Spec.uniquePassengers scan = [Scenarios.jane_record "Gold"]
      /\ World.trace w' =
           [(Spec.insert_call [Scenarios.jane_record "Gold"],
             World.RThrow "fetch failed")])
  /\ (exists w',
      SmartFileProcessor.processFile Scenarios.iso_date Scenarios.no_airports
        Scenarios.passenger_headers [Scenarios.jane "P001"; Scenarios.jane "P1"]
        (Scenarios.always (World.RThrow "fetch failed"))
      = (World.Val (SmartFileProcessor.Failed "fetch failed"), w')
      /\ World.trace w' =
           [(World.Upsert "dim_passenger" [PPassenger (Scenarios.jane_record "gold")]
               "passenger_key",
             World.RThrow "fetch failed")]).
Proof.
  split; [|split].
  - eexists _, _. split; vm_compute; reflexivity.
  - eexists _, _. split; [|split]; vm_compute; reflexivity.
  - eexists _. split; vm_compute; reflexivity.
Qed.

(** ** A quarantine write that fails *)

Module QuarantineProps.
Import Spec Scenarios.

(** [saveDirtyData] makes one call, the insert, and returns whatever the
    store answers with a value. *)
Lemma saveDirtyData_single_call (item : DirtyItem) (rest : list DirtyItem)
    (sourceTable : string) (w : World.t) c m :
  World.oracle w (List.length (World.trace w)) = World.RError c m ->
  exists records,
    SmartFileProcessor.saveDirtyData (item :: rest) sourceTable w =
      (World.Val tt, World.after_call w (World.InsertDirty records)).
Proof.
  intros H. unfold SmartFileProcessor.saveDirtyData. cbn [map List.length Nat.ltb Nat.leb].
  unfold World.bind, World.store, World.ret, World.after_call. rewrite H. eauto.
Qed.

(** [save_dirty_batch] writes the batch to the local file when the insert
    answers with an error value and the file system accepts the line. *)
Lemma save_dirty_batch_backup (n : nat) (batch : list DirtyRecord) (w : World.t) c m :
  World.oracle w (List.length (World.trace w)) = World.RError c m ->
  World.oracle w (S (List.length (World.trace w))) = World.ROk ->
  SalesUploader.save_dirty_batch n batch w =
    (World.Val n,
     World.after_call (World.after_call w (World.InsertDirty batch))
       (World.AppendFile "dirty_sales_backup.json" batch)).
Proof.
  intros H1 H2.
  unfold SalesUploader.save_dirty_batch, World.bind, World.store, World.appendFileSync,
    World.ret, World.after_call.
  rewrite H1. cbn [World.trace World.oracle]. rewrite List.length_app. cbn [List.length].
  rewrite Nat.add_1_r, H2. reflexivity.
Qed.

End QuarantineProps.

(** C6. A passenger file whose single row is rejected, and a quarantine
    table whose insert answers with an error. [saveDirtyData] makes the
    insert and nothing else: no line is written to a local file, and
    [processFile] reports the file as processed with one rejected row. The
    quarantine write of the passenger loader answers [false] and makes no
    other call. In the sales run an insert that throws ends the run before
    any local write, while an insert that answers with an error value is
    followed by the line in the local file. *)
Theorem C6_failed_quarantine_write_is_dropped :
  (exists w',
      SmartFileProcessor.processFile Scenarios.iso_date Scenarios.no_airports
        Scenarios.passenger_headers [Scenarios.jane "P1"]
        (Scenarios.always (World.RError None "permission denied"))
      = (World.Val (SmartFileProcessor.Succeeded "passengers" 1 0 1), w')
      /\ World.trace w' =
           [(World.InsertDirty
               [{| source_table := "passengers";
                   original_data := PRow (Scenarios.jane "P1");
                   error_reason := "Invalid passenger key" |}],
             World.RError None "permission denied")])
  /\ (exists w',
      PassengerUploader.saveToDirtyTable (PRow (Scenarios.jane "P1"))
        "Invalid passenger key format: P1"
        (Scenarios.always (World.RError None "permission denied"))
      = (World.Val false, w')
      /\ List.length (World.trace w') = 1)
  /\ (exists w',
      SalesUploader.save_dirty
        [Spec.cross_file_duplicate (Scenarios.sale "TA000007" "corporate" 9900)]
        (Scenarios.always (World.RThrow "fetch failed"))
      = (World.Exn "fetch failed", w')
      /\ World.trace w' =
           [(World.InsertDirty
               [Spec.cross_file_duplicate (Scenarios.sale "TA000007" "corporate" 9900)],
             World.RThrow "fetch failed")])
  /\ (exists w',
      SalesUploader.save_dirty
        [Spec.cross_file_duplicate (Scenarios.sale "TA000007" "corporate" 9900)]
        (Scenarios.answering [World.RError None "permission denied"])
      = (World.Val 0, w')
      /\ World.trace w' =
           [(World.InsertDirty
               [Spec.cross_file_duplicate (Scenarios.sale "TA000007" "corporate" 9900)],
             World.RError None "permission denied");
            (World.AppendFile "dirty_sales_backup.json"
               [Spec.cross_file_duplicate (Scenarios.sale "TA000007" "corporate" 9900)],
             World.ROk)]).
Proof.
  split; [|split; [|split]]; eexists _; split; vm_compute; reflexivity.
Qed.

(** ** Rows that are skipped *)

Module SkipProps.

(** [processAirlineData] never returns a rejection. *)
Lemma processAirlineData_no_rejections (data : list Row) :
  SmartFileProcessor.dirtyData (SmartFileProcessor.processAirlineData data) = [].
Proof. reflexivity. Qed.

(** The airport reader leaves its state as it is on a row whose key does
    not have three characters. *)
Lemma airport_on_data_invalid st (r : Row) (k : string) :
  JS.toUpperCase <$> (JS.trim <$> (r !! "AirportKey")) = Some k ->
  String.length k <> 3 ->
  AirportUploader.on_data st r = st.
Proof.
  intros H L. unfold AirportUploader.on_data. rewrite H.
  apply Nat.eqb_neq in L. rewrite L. now rewrite orb_true_r.
Qed.

End SkipProps.

(** C9. An airline file with one row whose key is blank: [processAirlineData]
    returns no clean record and no rejection, so [processFile] reports the
    file as processed with no rejected row and makes no call at all. A
    flight row with a blank key, by contrast, is returned as a rejection with
    the row and a reason. The airport reader of the upload script skips a row
    whose key has two characters after trimming and records nothing. *)
Theorem C9_blank_airline_key_is_dropped :
  SmartFileProcessor.processAirlineData [Scenarios.airline_row "  " "Ghost Air"]
    = {| SmartFileProcessor.cleanData := []; SmartFileProcessor.dirtyData := [] |}
  /\ SmartFileProcessor.processFile Scenarios.iso_date Scenarios.no_airports
       ["AirlineKey"; "AirlineName"; "Alliance"]
       [Scenarios.airline_row "  " "Ghost Air"] Scenarios.always_ok
     = (World.Val (SmartFileProcessor.Succeeded "airlines" 1 0 0), Scenarios.always_ok)
  /\ SmartFileProcessor.processFlightData [Scenarios.flight_row "  " "JFK" "LAX"]
     = {| SmartFileProcessor.cleanData := [];
          SmartFileProcessor.dirtyData :=
            [{| row := Scenarios.flight_row "  " "JFK" "LAX";
                reason := "Missing required flight data" |}] |}
  /\ AirportUploader.read_airports [Scenarios.airport_row "ny " "Somewhere"]
     = {| AirportUploader.airports := []; AirportUploader.airportSet := ∅ |}.
Proof. repeat split; vm_compute; reflexivity. Qed.

(** ** Amounts *)

Module AmountProps.
Import Spec.

Lemma filter_filter {A} (f : A -> bool) l :
  List.filter f (List.filter f l) = List.filter f l.
Proof. apply JSFacts.filter_all_true, JSFacts.forallb_filter_same. Qed.

Lemma numeric_text_idempotent s : numeric_text (numeric_text s) = numeric_text s.
Proof. unfold numeric_text. now rewrite JSFacts.chars_str, filter_filter. Qed.

Lemma standardize_eq s :
  SmartFileProcessor.standardize (Some s) =
    if Num.isNaN (Num.parseFloat (numeric_text s)) then Num.zero
    else Num.round2 (Num.parseFloat (numeric_text s)).
Proof. reflexivity. Qed.

Lemma filter_no_minus l :
  forallb (fun c => negb (Ascii.eqb c "-")) l = true ->
  List.filter SmartFileProcessor.is_amount_char l
  = List.filter SalesUploader.is_amount_char l.
Proof.
  induction l as [|c l IH]; cbn [forallb List.filter]; [reflexivity|].
  intros H. apply andb_true_iff in H as [H0 H].
  assert (E : SmartFileProcessor.is_amount_char c = SalesUploader.is_amount_char c).
  { unfold SmartFileProcessor.is_amount_char, SalesUploader.is_amount_char.
    apply negb_true_iff in H0. now rewrite H0, orb_false_r. }
  now rewrite E, (IH H).
Qed.

Lemma standardizeAmount_agrees s :
  no_minus s = true ->
  SalesUploader.standardizeAmount (SalesUploader.AString s)
  = SmartFileProcessor.standardize (Some s).
Proof.
  intros H. unfold SalesUploader.standardizeAmount.
  destruct (String.eqb_spec s "") as [->|_]; [reflexivity|].
  unfold SmartFileProcessor.standardize. now rewrite (filter_no_minus _ H).
Qed.

Section Rows.
Variable isoDateOf : option string -> option string.
Variable sourceType : string.

(** The verdict of [processSalesRow] does not read the amount columns. *)
Lemma processSalesRow_amount_insert (r : Row) col v :
  col ∈ amount_columns ->
  accepted (SmartFileProcessor.processSalesRow isoDateOf sourceType (<[col := v]> r))
  = accepted (SmartFileProcessor.processSalesRow isoDateOf sourceType r).
Proof.
  intros H. unfold amount_columns in H.
  unfold SmartFileProcessor.processSalesRow.
  assert (L : forall c, c ∈ ["PassengerID"; "PassengerKey"; "FlightID"; "FlightKey";
                             "TransactionDate"; "DateKey"; "TransactionID"] ->
                        <[col := v]> r !! c = r !! c).
  { intros c Hc. apply lookup_insert_ne. set_solver. }
  rewrite !L by set_solver.
  repeat case_match; reflexivity.
Qed.

Lemma processSalesRow_amount_delete (r : Row) col :
  col ∈ amount_columns ->
  accepted (SmartFileProcessor.processSalesRow isoDateOf sourceType (delete col r))
  = accepted (SmartFileProcessor.processSalesRow isoDateOf sourceType r).
Proof.
  intros H. unfold amount_columns in H.
  unfold SmartFileProcessor.processSalesRow.
  assert (L : forall c, c ∈ ["PassengerID"; "PassengerKey"; "FlightID"; "FlightKey";
                             "TransactionDate"; "DateKey"; "TransactionID"] ->
                        delete col r !! c = r !! c).
  { intros c Hc. apply lookup_delete_ne. set_solver. }
  rewrite !L by set_solver.
  repeat case_match; reflexivity.
Qed.

End Rows.

End AmountProps.

Module SalesRowProps.
Import Spec SalesUploader.

Section Rows.
Variable isoDateOf : option string -> option string.
Variable sourceType : string.

(** The optional amount columns are not read before the row is accepted. *)
Lemma on_data_optional_amount st (r : Row) col v :
  col ∈ optional_amount_columns ->
  List.length (sales (on_data isoDateOf sourceType st (<[col := v]> r)))
  = List.length (sales (on_data isoDateOf sourceType st r))
  /\ map error_reason (dirtyRows (on_data isoDateOf sourceType st (<[col := v]> r)))
     = map error_reason (dirtyRows (on_data isoDateOf sourceType st r)).
Proof.
  intros H. unfold optional_amount_columns in H.
  unfold on_data, transactionId_of, reject.
  assert (L : forall c, c ∈ ["PassengerID"; "PassengerKey"; "FlightID"; "FlightKey";
                             "TransactionDate"; "DateKey"; "TransactionID";
                             "TicketPrice"] ->
                        <[col := v]> r !! c = r !! c).
  { intros c Hc. apply lookup_insert_ne. set_solver. }
  rewrite !L by set_solver.
  repeat case_match; cbn [sales dirtyRows];
    rewrite ?List.length_app, ?map_app; split; reflexivity.
Qed.

Lemma on_data_missing_price st (r : Row) key date :
  transactionId_of sourceType r ∉ seenTransactionIds st ->
  standardizePassengerKey (JS.or (r !! "PassengerID") (r !! "PassengerKey")) = Some key ->
  JS.truthy (JS.or (r !! "FlightID") (r !! "FlightKey")) = true ->
  isoDateOf (JS.or (r !! "TransactionDate") (r !! "DateKey")) = Some date ->
  JS.truthy (r !! "TicketPrice") = false ->
  on_data isoDateOf sourceType st r =
    reject st (seenTransactionIds st ∪ {[ transactionId_of sourceType r ]})
      sourceType r "Missing ticket price".
Proof.
  intros H1 H2 H3 H4 H5. unfold on_data, standardizeDate.
  now rewrite decide_False, H2, H3, H4, H5 by exact H1.
Qed.

Lemma on_data_priced st (r : Row) key date :
  transactionId_of sourceType r ∉ seenTransactionIds st ->
  standardizePassengerKey (JS.or (r !! "PassengerID") (r !! "PassengerKey")) = Some key ->
  JS.truthy (JS.or (r !! "FlightID") (r !! "FlightKey")) = true ->
  isoDateOf (JS.or (r !! "TransactionDate") (r !! "DateKey")) = Some date ->
  JS.truthy (r !! "TicketPrice") = true ->
  exists sale,
    on_data isoDateOf sourceType st r =
      {| sales := sales st ++ [sale];
         dirtyRows := dirtyRows st;
         seenTransactionIds :=
           seenTransactionIds st ∪ {[ transactionId_of sourceType r ]} |}
    /\ Sale.ticket_price sale = standardizeAmount (of_cell (r !! "TicketPrice"))
    /\ Sale.taxes sale = standardizeAmount (or_zero (r !! "Taxes"))
    /\ Sale.baggage_fees sale = standardizeAmount (or_zero (r !! "BaggageFees"))
    /\ Sale.total_amount sale = standardizeAmount (of_cell (r !! "TotalAmount")).
Proof.
  intros H1 H2 H3 H4 H5. unfold on_data, standardizeDate.
  rewrite decide_False, H2, H3, H4, H5 by exact H1. cbn [negb].
  eexists. split; [reflexivity|]. repeat split.
Qed.

End Rows.

End SalesRowProps.

(** ** Amount standardization *)

(** ** Decimal literals and binary64 *)

Module DecimalProps.
Import JS Num Spec.
Local Open Scope Z_scope.

Lemma decimal_number_eq ds : decimal_number ds = digits_value 0 ds.
Proof.
  unfold decimal_number. generalize 0.
  induction ds as [|c ds IH]; intros acc; cbn [fold_left digits_value]; [reflexivity|].
  apply IH.
Qed.

Lemma digits_value_nonneg ds : forall acc,
  forallb is_digit ds = true -> 0 <= acc -> 0 <= digits_value acc ds.
Proof.
  induction ds as [|c ds IH]; intros acc H A; cbn [digits_value]; [exact A|].
  cbn [forallb] in H. apply andb_true_iff in H as [Hc H].
  apply IH; [exact H|]. unfold digit_value, is_digit in *.
  apply andb_true_iff in Hc as [Hc _]. apply Nat.leb_le in Hc. lia.
Qed.

(** The exponent that [round_ratio] chooses for a ratio below [2^40]. *)
Lemma exponent_bound p q :
  0 < p -> 0 < q -> p < 2 ^ 40 * q ->
  let l := Z.log2 p - Z.log2 q in
  (if ratio_ge_pow2 p q l then l else l - 1) <= 39.
Proof.
  intros Hp Hq H. cbn zeta.
  assert (Lq : q < 2 ^ (Z.log2 q + 1)).
  { pose proof (Z.log2_spec q Hq) as [_ L]. now rewrite <- Z.add_1_r in L. }
  assert (L0 : 0 <= Z.log2 q) by apply Z.log2_nonneg.
  assert (Lp : Z.log2 p < 41 + Z.log2 q).
  { apply Z.log2_lt_pow2; [exact Hp|].
    replace (41 + Z.log2 q) with (40 + (Z.log2 q + 1)) by lia.
    rewrite Z.pow_add_r by lia. nia. }
  destruct (ratio_ge_pow2 p q (Z.log2 p - Z.log2 q)) eqn:R; [|lia].
  destruct (Z.eq_dec (Z.log2 p - Z.log2 q) 40) as [E|E]; [|lia].
  rewrite E in R. unfold ratio_ge_pow2 in R. cbn in R. apply Z.leb_le in R. lia.
Qed.

(** [round_ratio] answers with a number [m * 2^e] that is within [2^-14]
    of the ratio [p / q], for a ratio below [2^40]. *)
Lemma round_ratio_near neg p q :
  0 < p -> 0 < q -> p < 2 ^ 40 * q ->
  exists m e,
    round_ratio neg p q = Fin neg m e
    /\ e <= 0 /\ 0 <= m
    /\ 2 ^ 14 * Z.abs (m * q - p * 2 ^ (- e)) <= q * 2 ^ (- e).
Proof.
  intros Hp Hq H. unfold round_ratio.
  destruct (Z.eqb_spec p 0) as [->|_]; [lia|].
  pose proof (exponent_bound p q Hp Hq H) as B. cbn zeta in B.
  set (fl := if ratio_ge_pow2 p q (Z.log2 p - Z.log2 q)
             then Z.log2 p - Z.log2 q else Z.log2 p - Z.log2 q - 1) in *.
  cbn zeta.
  set (e := Z.max (fl - 52) (-1074)).
  assert (E1 : e <= -13) by lia.
  assert (E2 : -1074 <= e) by lia.
  destruct (Z.leb_spec e 0) as [_|]; [|lia].
  set (d := 2 ^ (- e)).
  assert (D13 : 2 ^ 13 <= d) by (apply Z.pow_le_mono_r; lia).
  assert (Dhalf : d = 2 * 2 ^ (- (e + 1))).
  { unfold d. replace (- e) with (Z.succ (- (e + 1))) by lia.
    apply Z.pow_succ_r. lia. }
  assert (D12 : 2 ^ 12 <= 2 ^ (- (e + 1))) by (apply Z.pow_le_mono_r; lia).
  pose proof (Z.div_mod (p * d) q ltac:(lia)) as DM.
  pose proof (Z.mod_pos_bound (p * d) q Hq) as RB.
  assert (Q0 : 0 <= p * d / q) by (apply Z.div_pos; nia).
  set (quot := p * d / q) in *. set (rem := (p * d) mod q) in *.
  set (m0 := if 2 * rem <? q then quot
             else if q <? 2 * rem then quot + 1
             else if Z.even quot then quot else quot + 1).
  assert (M : 0 <= m0 /\ Z.abs (2 * m0 * q - 2 * (p * d)) <= q).
  { unfold m0.
    destruct (Z.ltb_spec (2 * rem) q); [split; lia|].
    destruct (Z.ltb_spec q (2 * rem)); [split; lia|].
    destruct (Z.even quot); split; lia. }
  destruct M as [M0 M1].
  change (2 ^ 53) with 9007199254740992. change (2 ^ 52) with 4503599627370496.
  change (2 ^ 14) with 16384 in *. change (2 ^ 13) with 8192 in *.
  change (2 ^ 12) with 4096 in *.
  destruct (Z.eqb_spec m0 9007199254740992) as [E53|N53].
  - destruct (Z.ltb_spec 971 (e + 1)); [lia|].
    cbn [Z.eqb]. exists 4503599627370496, (e + 1).
    split; [reflexivity|]. split; [lia|]. split; [lia|].
    set (d' := 2 ^ (- (e + 1))) in *. nia.
  - destruct (Z.ltb_spec 971 e); [lia|].
    destruct (Z.eqb_spec m0 0) as [Z0|NZ].
    + exists 0, 0. split; [reflexivity|]. split; [lia|]. split; [lia|].
      change (2 ^ (- 0)) with 1. nia.
    + exists m0, e. split; [reflexivity|]. split; [lia|]. split; [lia|].
      fold d. nia.
Qed.

(** The integer of [toFixed(2)]: the hundredth nearest to [m * 2^e], the
    larger one on a tie. *)
Lemma hundredths_near m e :
  e <= 0 -> 0 <= m ->
  0 <= hundredths m e
  /\ - 2 ^ (- e) < 2 * (hundredths m e * 2 ^ (- e) - 100 * m) <= 2 ^ (- e).
Proof.
  intros He Hm. unfold hundredths.
  assert (D : 0 < 2 ^ (- e)) by (apply Z.pow_pos_nonneg; lia).
  destruct (Z.leb_spec 0 e) as [E0|E0].
  - assert (e = 0) as -> by lia. change (2 ^ (- 0)) with 1. cbn. lia.
  - replace (1 - e) with (Z.succ (- e)) by lia.
    rewrite Z.pow_succ_r by lia.
    set (d := 2 ^ (- e)) in *.
    pose proof (Z.div_mod (200 * m + d) (2 * d) ltac:(lia)) as DM.
    pose proof (Z.mod_pos_bound (200 * m + d) (2 * d) ltac:(lia)) as RB.
    assert (Q0 : 0 <= (200 * m + d) / (2 * d)) by (apply Z.div_pos; lia).
    split; [exact Q0|]. nia.
Qed.

(** What [round2] makes of the number that [round_ratio] gives for
    [p / q]: the amount [n / 100], where [n] is within 0.507 of
    [100 * p / q]. *)
Lemma round2_of_ratio neg p q :
  0 <= p -> 0 < q -> p < 2 ^ 40 * q ->
  isNaN (round_ratio neg p q) = false
  /\ exists n,
       0 <= n
       /\ 1000 * Z.abs (n * q - 100 * p) <= 507 * q
       /\ is_amount (round2 (round_ratio neg p q)) neg n.
Proof.
  intros Hp Hq H.
  destruct (Z.eq_dec p 0) as [->|P0].
  - split; [reflexivity|]. exists 0. split; [lia|]. split; [lia|].
    unfold is_amount. cbn. destruct neg; eauto.
  - destruct (round_ratio_near neg p q ltac:(lia) Hq H) as (m & e & -> & He & Hm & B).
    split; [reflexivity|].
    destruct (hundredths_near m e He Hm) as [N0 NB].
    exists (hundredths m e). split; [exact N0|].
    assert (D : 0 < 2 ^ (- e)) by (apply Z.pow_pos_nonneg; lia).
    set (d := 2 ^ (- e)) in *. set (n := hundredths m e) in *.
    change (2 ^ 14) with 16384 in B. change (2 ^ 40) with 1099511627776 in H.
    split; [nia|].
    unfold round2.
    assert (A : at_least_1e21 m e = false).
    { unfold at_least_1e21. change (10 ^ 21) with 1000000000000000000000.
      destruct (Z.leb_spec 0 e) as [E0|E0].
      - assert (e = 0) as -> by lia. unfold d in *. change (2 ^ (- 0)) with 1 in *.
        apply Z.leb_gt. nia.
      - fold d. apply Z.leb_gt. nia. }
    rewrite A. fold n. unfold is_amount, of_hundredths.
    destruct (Z.eqb_spec n 0) as [Z0|NZ].
    + rewrite Z0. cbn. eauto.
    + assert (M0 : m <> 0).
      { intros ->. apply NZ. unfold n, hundredths.
        destruct (Z.leb_spec 0 e); [lia|].
        replace (200 * 0 + 2 ^ (- e)) with (2 ^ (- e)) by lia.
        replace (1 - e) with (Z.succ (- e)) by lia.
        rewrite Z.pow_succ_r by lia. fold d.
        apply Z.div_small. lia. }
      destruct (Z.eqb_spec m 0) as [|_]; [contradiction|]. cbn [negb].
      rewrite andb_true_r.
      destruct neg.
      * replace (- n <? 0) with true by (symmetry; apply Z.ltb_lt; lia).
        now rewrite Z.abs_opp, Z.abs_eq by lia.
      * replace (n <? 0) with false by (symmetry; apply Z.ltb_ge; lia).
        now rewrite Z.abs_eq by lia.
Qed.

Lemma take_while_digits a b :
  forallb is_digit a = true ->
  take_while is_digit (a ++ b) = a ++ take_while is_digit b.
Proof.
  induction a as [|c a IH]; cbn [forallb app take_while]; [reflexivity|].
  intros H. apply andb_true_iff in H as [-> H]. now rewrite IH.
Qed.

Lemma drop_while_digits a b :
  forallb is_digit a = true ->
  drop_while is_digit (a ++ b) = drop_while is_digit b.
Proof.
  induction a as [|c a IH]; cbn [forallb app drop_while]; [reflexivity|].
  intros H. apply andb_true_iff in H as [-> H]. now apply IH.
Qed.

Lemma take_while_stop l :
  match l with [] => true | c :: _ => negb (is_digit c) end = true ->
  take_while is_digit l = [].
Proof.
  destruct l as [|c l]; [reflexivity|]. cbn. intros H.
  apply negb_true_iff in H. now rewrite H.
Qed.

Lemma drop_while_stop l :
  match l with [] => true | c :: _ => negb (is_digit c) end = true ->
  drop_while is_digit l = l.
Proof.
  destruct l as [|c l]; [reflexivity|]. cbn. intros H.
  apply negb_true_iff in H. now rewrite H.
Qed.

Lemma ends_literal_stop fp rest :
  ends_literal fp rest = true ->
  match rest with [] => true | c :: _ => negb (is_digit c) end = true.
Proof.
  destruct rest as [|c r]; [reflexivity|]. cbn [ends_literal].
  intros H. now apply andb_true_iff in H as [H _].
Qed.

Lemma fraction_after_none rest :
  ends_literal [] rest = true -> fraction_after rest = [].
Proof.
  destruct rest as [|c r]; [reflexivity|]. cbn [ends_literal].
  intros H. apply andb_true_iff in H as [_ H].
  destruct (Ascii.eqb_spec c ".") as [->|N].
  - cbn [fraction_after]. destruct r as [|d r]; [reflexivity|].
    cbn [andb] in H. apply negb_true_iff in H. cbn. now rewrite H.
  - unfold fraction_after.
    destruct c as [[] [] [] [] [] [] [] []]; try reflexivity. now contradiction N.
Qed.

Lemma decimal_prefix_literal ip fp rest :
  forallb is_digit (ip ++ fp) = true ->
  ip ++ fp <> [] ->
  ends_literal fp rest = true ->
  decimal_prefix (literal_text false ip fp ++ rest) = Some (ip, fp).
Proof.
  intros Hd Hn He. rewrite forallb_app in Hd. apply andb_true_iff in Hd as [Hi Hf].
  pose proof (ends_literal_stop _ _ He) as Hs.
  unfold decimal_prefix, literal_text. cbn [app]. rewrite <- app_assoc.
  fold (fraction_after
          (drop_while is_digit
             (ip ++ match fp with [] => [] | _ :: _ => "."%char :: fp end ++ rest))).
  rewrite take_while_digits, drop_while_digits by exact Hi.
  destruct fp as [|f fp].
  - cbn [app]. rewrite (take_while_stop _ Hs), (drop_while_stop _ Hs), app_nil_r.
    rewrite (fraction_after_none _ He).
    destruct ip; [now contradiction Hn | reflexivity].
  - cbn [app take_while drop_while fraction_after].
    change (is_digit ".") with false. cbn iota.
    change (fraction_after ("."%char :: f :: fp ++ rest))
      with (take_while is_digit ((f :: fp) ++ rest)).
    rewrite (take_while_digits _ _ Hf), (take_while_stop _ Hs), !app_nil_r.
    destruct ip; reflexivity.
Qed.

Lemma digit_is_no_sign c l :
  is_digit c = true \/ c = "."%char ->
  match c :: l with
  | "-"%char :: l' => (true, l')
  | "+"%char :: l' => (false, l')
  | _ => (false, c :: l)
  end = (false, c :: l).
Proof.
  intros [H| ->]; [|reflexivity].
  destruct c as [[] [] [] [] [] [] [] []]; try reflexivity; discriminate H.
Qed.

(** [parseFloat] reads the leading literal of a text. *)
Lemma parseFloat_literal t neg ip fp rest :
  chars t = literal_text neg ip fp ++ rest ->
  forallb is_digit (ip ++ fp) = true ->
  ip ++ fp <> [] ->
  ends_literal fp rest = true ->
  parseFloat t
  = round_ratio neg (decimal_number (ip ++ fp)) (10 ^ Z.of_nat (List.length fp)).
Proof.
  intros T Hd Hn He. rewrite decimal_number_eq. unfold parseFloat. rewrite T.
  pose proof (decimal_prefix_literal ip fp rest Hd Hn He) as P.
  destruct neg.
  - change (literal_text true ip fp ++ rest)
      with ("-"%char :: (literal_text false ip fp ++ rest)).
    cbn iota. now rewrite P.
  - assert (S : exists c l, literal_text false ip fp ++ rest = c :: l
                            /\ (is_digit c = true \/ c = "."%char)).
    { unfold literal_text. cbn [app].
      destruct ip as [|c ip].
      - destruct fp as [|f fp]; [now contradiction Hn|].
        cbn [app]. eauto.
      - cbn [app forallb] in *. apply andb_true_iff in Hd as [Hc _]. eauto. }
    destruct S as (c & l & E & C). rewrite E in *.
    rewrite (digit_is_no_sign c l C). now rewrite P.
Qed.

(** The bound on the digits of an amount below [10^12]. *)
Lemma amount_bound p q : p < 10 ^ 12 * q -> 0 < q -> p < 2 ^ 40 * q.
Proof.
  change (10 ^ 12) with 1000000000000. change (2 ^ 40) with 1099511627776. nia.
Qed.

(** The standardized amount of a text whose numeric text starts with a
    literal. *)
Lemma standardize_literal s neg ip fp rest :
  chars (numeric_text s) = literal_text neg ip fp ++ rest ->
  forallb is_digit (ip ++ fp) = true ->
  ip ++ fp <> [] ->
  ends_literal fp rest = true ->
  decimal_number (ip ++ fp) < 10 ^ 12 * 10 ^ Z.of_nat (List.length fp) ->
  exists n,
    0 <= n
    /\ 1000 * Z.abs (n * 10 ^ Z.of_nat (List.length fp)
                     - 100 * decimal_number (ip ++ fp))
       <= 507 * 10 ^ Z.of_nat (List.length fp)
    /\ is_amount (SmartFileProcessor.standardize (Some s)) neg n.
Proof.
  intros T Hd Hn He B.
  rewrite AmountProps.standardize_eq, (parseFloat_literal _ _ _ _ _ T Hd Hn He).
  assert (Q : 0 < 10 ^ Z.of_nat (List.length fp)) by (apply Z.pow_pos_nonneg; lia).
  assert (P : 0 <= decimal_number (ip ++ fp)).
  { rewrite decimal_number_eq. apply digits_value_nonneg; [exact Hd | lia]. }
  destruct (round2_of_ratio neg _ _ P Q (amount_bound _ _ B Q)) as (-> & n & N).
  exists n. exact N.
Qed.

(** With at most two fraction digits the amount is read exactly. *)
Lemma exact_hundredths n p k :
  (k <= 2)%nat ->
  1000 * Z.abs (n * 10 ^ Z.of_nat k - 100 * p) <= 507 * 10 ^ Z.of_nat k ->
  n = p * 10 ^ (2 - Z.of_nat k).
Proof.
  intros K H.
  destruct k as [|[|[|k]]]; [| | |lia]; cbn in H |- *; lia.
Qed.

End DecimalProps.

(** C7 (as amended). The standardizer of [SmartFileProcessor] depends on an
    amount text only through what is left when all characters other than
    digits, dots and minus signs are stripped; it parses the leading decimal
    literal of that text and rounds it to two fraction digits, and answers
    0.00 for an absent cell and for a text without such a literal. For a
    literal below [10^12] the answer is the amount [n / 100] with the sign
    of the literal, where [n] is a whole number of hundredths within 0.507
    of a hundred times the literal (the half of rounding, and the error of
    the binary representation of the literal); with at most two fraction
    digits the amount is the literal itself.
    [SalesUploader.standardizeAmount] answers 0.00 for an absent cell and
    gives the same result as the former on every text without a minus sign.
    No amount column takes part in the verdict of [processSalesRow]. In
    [processSalesFile] the columns Taxes, BaggageFees and TotalAmount take no
    part in the verdict either; a row that passes the checks before the
    price is rejected with [Missing ticket price] when its TicketPrice is
    absent or empty, and accepted with its standardized amounts otherwise. *)
Theorem C7_amount_standardization
    (isoDateOf : option string -> option string) (sourceType : string)
    (s : string) (r : Row) (st : SalesUploader.FileState) :
  (SmartFileProcessor.standardize (Some s)
     = SmartFileProcessor.standardize (Some (Spec.numeric_text s))
   /\ SmartFileProcessor.standardize (Some s)
      = (if Num.isNaN (Num.parseFloat (Spec.numeric_text s)) then Num.zero
         else Num.round2 (Num.parseFloat (Spec.numeric_text s)))
   /\ SmartFileProcessor.standardize None = Num.zero
   /\ (Num.parseFloat (Spec.numeric_text s) = Num.NaN ->
       SmartFileProcessor.standardize (Some s) = Num.zero)
   /\ (forall (neg : bool) (ip fp rest : list ascii),
         JS.chars (Spec.numeric_text s) = Spec.literal_text neg ip fp ++ rest ->
         forallb JS.is_digit (ip ++ fp) = true ->
         ip ++ fp <> [] ->
         Spec.ends_literal fp rest = true ->
         (Spec.decimal_number (ip ++ fp)
          < 10 ^ 12 * 10 ^ Z.of_nat (List.length fp))%Z ->
         exists n : Z,
           (0 <= n)%Z
           /\ (1000 * Z.abs (n * 10 ^ Z.of_nat (List.length fp)
                             - 100 * Spec.decimal_number (ip ++ fp))
               <= 507 * 10 ^ Z.of_nat (List.length fp))%Z
           /\ (List.length fp <= 2 ->
               n = (Spec.decimal_number (ip ++ fp)
                    * 10 ^ (2 - Z.of_nat (List.length fp)))%Z)
           /\ Spec.is_amount (SmartFileProcessor.standardize (Some s)) neg n))
  /\ (SalesUploader.standardizeAmount SalesUploader.AUndefined = Num.zero
      /\ SalesUploader.standardizeAmount SalesUploader.AZero = Num.zero
      /\ (Spec.no_minus s = true ->
          SalesUploader.standardizeAmount (SalesUploader.AString s)
          = SmartFileProcessor.standardize (Some s)))
  /\ (forall col v,
        col ∈ Spec.amount_columns ->
        Spec.accepted (SmartFileProcessor.processSalesRow isoDateOf sourceType
                         (<[col := v]> r))
        = Spec.accepted (SmartFileProcessor.processSalesRow isoDateOf sourceType r)
        /\ Spec.accepted (SmartFileProcessor.processSalesRow isoDateOf sourceType
                            (delete col r))
           = Spec.accepted (SmartFileProcessor.processSalesRow isoDateOf sourceType r))
  /\ (forall col v,
        col ∈ Spec.optional_amount_columns ->
        List.length (SalesUploader.sales
                       (SalesUploader.on_data isoDateOf sourceType st (<[col := v]> r)))
        = List.length (SalesUploader.sales
                         (SalesUploader.on_data isoDateOf sourceType st r))
        /\ map error_reason
             (SalesUploader.dirtyRows
                (SalesUploader.on_data isoDateOf sourceType st (<[col := v]> r)))
           = map error_reason
               (SalesUploader.dirtyRows
                  (SalesUploader.on_data isoDateOf sourceType st r)))
  /\ (forall key date,
        SalesUploader.transactionId_of sourceType r ∉ SalesUploader.seenTransactionIds st ->
        SalesUploader.standardizePassengerKey
          (JS.or (r !! "PassengerID") (r !! "PassengerKey")) = Some key ->
        JS.truthy (JS.or (r !! "FlightID") (r !! "FlightKey")) = true ->
        isoDateOf (JS.or (r !! "TransactionDate") (r !! "DateKey")) = Some date ->
        if JS.truthy (r !! "TicketPrice") then
          exists sale,
            SalesUploader.on_data isoDateOf sourceType st r =
              {| SalesUploader.sales := SalesUploader.sales st ++ [sale];
                 SalesUploader.dirtyRows := SalesUploader.dirtyRows st;
                 SalesUploader.seenTransactionIds :=
                   SalesUploader.seenTransactionIds st
                   ∪ {[ SalesUploader.transactionId_of sourceType r ]} |}
            /\ Sale.ticket_price sale
               = SalesUploader.standardizeAmount (SalesUploader.of_cell (r !! "TicketPrice"))
            /\ Sale.taxes sale
               = SalesUploader.standardizeAmount (SalesUploader.or_zero (r !! "Taxes"))
            /\ Sale.baggage_fees sale
               = SalesUploader.standardizeAmount (SalesUploader.or_zero (r !! "BaggageFees"))
            /\ Sale.total_amount sale
               = SalesUploader.standardizeAmount (SalesUploader.of_cell (r !! "TotalAmount"))
        else
          SalesUploader.on_data isoDateOf sourceType st r =
            SalesUploader.reject st
              (SalesUploader.seenTransactionIds st
               ∪ {[ SalesUploader.transactionId_of sourceType r ]})
              sourceType r "Missing ticket price").
Proof.
  split; [|split; [|split; [|split]]].
  - split; [|split; [|split; [|split]]].
    + rewrite !AmountProps.standardize_eq.
      now rewrite AmountProps.numeric_text_idempotent.
    + apply AmountProps.standardize_eq.
    + vm_compute. reflexivity.
    + intros H. now rewrite AmountProps.standardize_eq, H.
    + intros neg ip fp rest T Hd Hn He B.
      destruct (DecimalProps.standardize_literal s neg ip fp rest T Hd Hn He B)
        as (n & N0 & NB & NA).
      exists n. split; [exact N0|]. split; [exact NB|]. split; [|exact NA].
      intros K. exact (DecimalProps.exact_hundredths _ _ _ K NB).
  - split; [reflexivity|]. split; [reflexivity|].
    apply AmountProps.standardizeAmount_agrees.
  - intros col v H. split.
    + now apply AmountProps.processSalesRow_amount_insert.
    + now apply AmountProps.processSalesRow_amount_delete.
  - intros col v H. now apply SalesRowProps.on_data_optional_amount.
  - intros key date H1 H2 H3 H4.
    destruct (JS.truthy (r !! "TicketPrice")) eqn:H5.
    + now apply (SalesRowProps.on_data_priced _ _ _ _ key date).
    + now apply (SalesRowProps.on_data_missing_price _ _ _ _ key date).
Qed.

Lemma C7_amount_standardization_witness :
  SmartFileProcessor.standardize (Some "$1,234.5") = Num.of_hundredths 123450
  /\ SmartFileProcessor.standardize (Some "-12.346 EUR") = Num.of_hundredths (-1235)
  /\ SmartFileProcessor.standardize (Some "abc") = Num.zero
  /\ SalesUploader.standardizeAmount (SalesUploader.AString "abc")
     = SmartFileProcessor.standardize (Some "abc")
  /\ List.length
       (SalesUploader.sales
          (SalesUploader.on_data Scenarios.iso_date "travel_agency"
             SalesUploader.empty_file
             (<["Taxes" := "n/a"]> (Scenarios.sales_row "1" "P12345" "abc"))))
     = List.length
         (SalesUploader.sales
            (SalesUploader.on_data Scenarios.iso_date "travel_agency"
               SalesUploader.empty_file (Scenarios.sales_row "1" "P12345" "abc")))
  /\ Spec.accepted
       (SmartFileProcessor.processSalesRow Scenarios.iso_date "travel_agency"
          (<["TicketPrice" := ""]> (Scenarios.sales_row "1" "P12345" "abc")))
     = Spec.accepted
         (SmartFileProcessor.processSalesRow Scenarios.iso_date "travel_agency"
            (Scenarios.sales_row "1" "P12345" "abc"))
  /\ exists sale,
       SalesUploader.on_data Scenarios.iso_date "travel_agency"
         SalesUploader.empty_file (Scenarios.sales_row "1" "P12345" "abc")
       = {| SalesUploader.sales := [sale];
            SalesUploader.dirtyRows := [];
            SalesUploader.seenTransactionIds := ∅ ∪ {[ "TA000001" ]} |}
       /\ Sale.ticket_price sale = Num.zero.
Proof.
  split.
  { destruct (C7_amount_standardization Scenarios.iso_date "travel_agency" "$1,234.5"
                (Scenarios.sales_row "1" "P12345" "abc") SalesUploader.empty_file)
      as ((_ & _ & _ & _ & HL) & _).
    destruct (HL false ["1"; "2"; "3"; "4"]%char ["5"]%char [])
      as (n & _ & _ & K & A);
      [reflexivity | reflexivity | discriminate | reflexivity | reflexivity |].
    rewrite (K ltac:(cbn; lia)) in A. exact A. }
  split.
  { destruct (C7_amount_standardization Scenarios.iso_date "travel_agency" "-12.346 EUR"
                (Scenarios.sales_row "1" "P12345" "abc") SalesUploader.empty_file)
      as ((_ & _ & _ & _ & HL) & _).
    destruct (HL true ["1"; "2"]%char ["3"; "4"; "6"]%char [])
      as (n & N0 & B & _ & A);
      [reflexivity | reflexivity | discriminate | reflexivity | reflexivity |].
    assert (D : Spec.decimal_number (["1"; "2"] ++ ["3"; "4"; "6"])%char = 12346%Z)
      by (vm_compute; reflexivity).
    rewrite D in B. cbn [List.length] in B.
    change (10 ^ Z.of_nat 3)%Z with 1000%Z in B.
    assert (n = 1235%Z) as -> by lia. exact A. }
  destruct (C7_amount_standardization Scenarios.iso_date "travel_agency" "abc"
              (Scenarios.sales_row "1" "P12345" "abc") SalesUploader.empty_file)
    as ((_ & _ & _ & HN & _) & (_ & _ & HA) & HC & HO & HR).
  split; [apply HN; vm_compute; reflexivity|].
  split; [apply HA; vm_compute; reflexivity|].
  split.
  { apply (HO "Taxes" "n/a"). unfold Spec.optional_amount_columns. set_solver. }
  split.
  { apply (HC "TicketPrice" ""). unfold Spec.amount_columns. set_solver. }
  assert (Fresh : SalesUploader.transactionId_of "travel_agency"
                    (Scenarios.sales_row "1" "P12345" "abc")
                  ∉ SalesUploader.seenTransactionIds SalesUploader.empty_file)
    by (cbn [SalesUploader.seenTransactionIds SalesUploader.empty_file]; set_solver).
  assert (Key : SalesUploader.standardizePassengerKey
                  (JS.or (Scenarios.sales_row "1" "P12345" "abc" !! "PassengerID")
                         (Scenarios.sales_row "1" "P12345" "abc" !! "PassengerKey"))
                = Some "P345") by (vm_compute; reflexivity).
  assert (Flight : JS.truthy
                     (JS.or (Scenarios.sales_row "1" "P12345" "abc" !! "FlightID")
                            (Scenarios.sales_row "1" "P12345" "abc" !! "FlightKey"))
                   = true) by (vm_compute; reflexivity).
  assert (Date : Scenarios.iso_date
                   (JS.or (Scenarios.sales_row "1" "P12345" "abc" !! "TransactionDate")
                          (Scenarios.sales_row "1" "P12345" "abc" !! "DateKey"))
                 = Some "2024-01-15") by (vm_compute; reflexivity).
  pose proof (HR "P345" "2024-01-15" Fresh Key Flight Date) as H.
  replace (JS.truthy (Scenarios.sales_row "1" "P12345" "abc" !! "TicketPrice"))
    with true in H by (vm_compute; reflexivity).
  destruct H as (sale & E & P & _).
  exists sale. split.
  - rewrite E. reflexivity.
  - rewrite P. vm_compute. reflexivity.
Defined.

(** [SalesUploader.standardizeAmount] strips the minus sign with the noise,
    so the amount [-5.00] becomes 5.00, while the standardizer of
    [SmartFileProcessor] keeps the sign; and [processSalesFile] rejects a
    row whose TicketPrice is empty. *)
Lemma C7_counterexample_sign_and_missing_price :
  SalesUploader.standardizeAmount (SalesUploader.AString "-5.00") = Num.of_hundredths 500
  /\ SmartFileProcessor.standardize (Some "-5.00") = Num.of_hundredths (-500)
  /\ Num.of_hundredths 500 <> Num.of_hundredths (-500)
  /\ SalesUploader.sales
       (SalesUploader.processSalesFile Scenarios.iso_date
          [Scenarios.sales_row "1" "P12345" ""] "travel_agency") = []
  /\ map error_reason
       (SalesUploader.dirtyRows
          (SalesUploader.processSalesFile Scenarios.iso_date
             [Scenarios.sales_row "1" "P12345" ""] "travel_agency"))
     = ["Missing ticket price"].
Proof. vm_compute. repeat split; try reflexivity. discriminate. Qed.

(** ** Worked amounts *)

Module AmountExamples.

Lemma standardize_noisy_amount :
  SmartFileProcessor.standardize (Some "$1,234.567") = Num.of_hundredths 123457.
Proof. vm_compute. reflexivity. Qed.

(** The text [1.005] denotes a binary value just below 1.005. *)
Lemma standardize_binary_rounding :
  SmartFileProcessor.standardize (Some "1.005") = Num.of_hundredths 100.
Proof. vm_compute. reflexivity. Qed.

Lemma standardize_second_dot_ends_literal :
  SmartFileProcessor.standardize (Some "1.2.3") = Num.of_hundredths 120.
Proof. vm_compute. reflexivity. Qed.

Lemma standardize_no_literal :
  SmartFileProcessor.standardize (Some "--5") = Num.zero
  /\ SmartFileProcessor.standardize (Some "n/a") = Num.zero
  /\ SmartFileProcessor.standardize (Some "") = Num.zero.
Proof. vm_compute. repeat split; reflexivity. Qed.

Lemma synthesized_ids_of_7_and_07 :
  SalesUploader.transactionId_of "travel_agency" (Scenarios.sales_row "7" "P12345" "1")
    = "TA000007"
  /\ SalesUploader.transactionId_of "travel_agency" (Scenarios.sales_row "07" "P12345" "1")
     = "TA000007".
Proof. vm_compute. split; reflexivity. Qed.

End AmountExamples.

(** ** Worked files *)

Module FileExamples.

(** Each kind of rejection reserves the transaction ID of its row: the row
    that repeats the ID is rejected as a duplicate within the file. *)
Lemma duplicates_after_each_rejection :
  map error_reason
    (SalesUploader.dirtyRows
       (SalesUploader.processSalesFile Scenarios.iso_date
          [ Scenarios.sales_row "1" "no key" "100.00";
            Scenarios.sales_row "01" "P12345" "100.00";
            <["FlightID" := ""]> (Scenarios.sales_row "2" "P12345" "100.00");
            Scenarios.sales_row "02" "P12345" "100.00";
            <["TransactionDate" := "soon"]> (Scenarios.sales_row "3" "P12345" "100.00");
            Scenarios.sales_row "03" "P12345" "100.00";
            Scenarios.sales_row "4" "P12345" "";
            Scenarios.sales_row "04" "P12345" "100.00" ]
          "travel_agency"))
  = [ "Invalid passenger key";
      "Duplicate transaction ID within file: TA000001";
      "Missing flight key";
      "Duplicate transaction ID within file: TA000002";
      "Invalid date";
      "Duplicate transaction ID within file: TA000003";
      "Missing ticket price";
      "Duplicate transaction ID within file: TA000004" ].
Proof. vm_compute. reflexivity. Qed.

(** The header rows of the two sales files, spelled as in the registry, are
    classified by the substring fallback, which meets [passenger] first. *)
Lemma sales_headers_detected_as_passengers :
  SmartFileProcessor.detectFileType
    ["TransactionID"; "TransactionDate"; "PassengerID"; "FlightID"; "TicketPrice"]
  = "passengers"
  /\ SmartFileProcessor.detectFileType
       ["TransactionID"; "DateKey"; "PassengerKey"; "FlightKey"; "TotalAmount"]
     = "passengers".
Proof. vm_compute. split; reflexivity. Qed.

(** Header rows in lower case reach the signature loop; a header row that
    satisfies two signatures gets the one declared first. *)
Lemma lower_case_headers_are_matched :
  SmartFileProcessor.detectFileType
    [" flightkey "; "originairportkey"; "destinationairportkey"] = "flights"
  /\ SmartFileProcessor.detectFileType
       ["transactionid"; "datekey"; "passengerkey"; "flightkey"; "totalamount"]
     = "corporate_sales"
  /\ SmartFileProcessor.detectFileType
       ["airlinekey"; "airlinename"; "flightkey"; "originairportkey";
        "destinationairportkey"]
     = "airlines".
Proof. vm_compute. repeat split; reflexivity. Qed.

End FileExamples.

(** ** Batches *)

Module BatchProps.

(** The batch loop visits every record once, in order: the slices taken by
    the loop make up the list again, and the fuel of the model, the length
    of the list, is enough. *)
Lemma batches_fuel_concat {A} (n : nat) : 0 < n -> forall fuel (l : list A),
  List.length l <= fuel -> concat (World.batches_fuel fuel n l) = l.
Proof.
  intros Hn. induction fuel as [|fuel IH]; intros l H.
  - destruct l; [reflexivity | cbn in H; lia].
  - destruct l as [|x l]; [reflexivity|].
    cbn [World.batches_fuel concat]. rewrite IH.
    + apply firstn_skipn.
    + rewrite List.length_skipn. cbn [List.length] in *. lia.
Qed.

Lemma batches_concat {A} (n : nat) (l : list A) :
  0 < n -> concat (World.batches n l) = l.
Proof. intros Hn. now apply batches_fuel_concat. Qed.

Lemma sales_batches_cover (l : list Sale.t) :
  concat (World.batches SalesUploader.batchSize l) = l.
Proof. apply batches_concat. unfold SalesUploader.batchSize. lia. Qed.

Lemma passenger_batches_cover (l : list Passenger.t) :
  concat (World.batches PassengerUploader.batchSize l) = l.
Proof. apply batches_concat. unfold PassengerUploader.batchSize. lia. Qed.

End BatchProps.

(** * Further properties of the code *)

(** ** Characters, case and trimming *)

Module CaseFacts.
Import JS.

Ltac by_cases_on_char c :=
  destruct c as [[] [] [] [] [] [] [] []]; vm_compute; reflexivity.

Lemma lower_space c : is_space (lower_char c) = is_space c.
Proof. by_cases_on_char c. Qed.

Lemma upper_space c : is_space (upper_char c) = is_space c.
Proof. by_cases_on_char c. Qed.

Lemma upper_lower c : upper_char (lower_char c) = upper_char c.
Proof. by_cases_on_char c. Qed.

Lemma upper_upper c : upper_char (upper_char c) = upper_char c.
Proof. by_cases_on_char c. Qed.

Lemma lower_lower c : lower_char (lower_char c) = lower_char c.
Proof. by_cases_on_char c. Qed.

Lemma lower_upper c : lower_char (upper_char c) = lower_char c.
Proof. by_cases_on_char c. Qed.

Lemma lower_at c : Ascii.eqb (lower_char c) "@" = Ascii.eqb c "@".
Proof. by_cases_on_char c. Qed.

Lemma lower_dot c : Ascii.eqb "." (lower_char c) = Ascii.eqb "." c.
Proof. by_cases_on_char c. Qed.

Lemma lower_digit c : is_digit (lower_char c) = is_digit c.
Proof. by_cases_on_char c. Qed.

Lemma drop_while_map (p : ascii -> bool) (f : ascii -> ascii) l :
  (forall c, p (f c) = p c) ->
  drop_while p (map f l) = map f (drop_while p l).
Proof.
  intros H. induction l as [|c l IH]; cbn; [reflexivity|].
  rewrite H. destruct (p c); [exact IH | reflexivity].
Qed.

Lemma trim_chars_map (f : ascii -> ascii) l :
  (forall c, is_space (f c) = is_space c) ->
  trim_chars (map f l) = map f (trim_chars l).
Proof.
  intros H. unfold trim_chars.
  now rewrite drop_while_map, <- map_rev, drop_while_map, map_rev by exact H.
Qed.

Lemma chars_append a b : chars (a +:+ b) = chars a ++ chars b.
Proof.
  unfold chars. induction a as [|c a IH]; [reflexivity|].
  change (String c a +:+ b) with (String c (a +:+ b)). cbn. now f_equal.
Qed.

Lemma str_app l1 l2 : str (l1 ++ l2) = str l1 +:+ str l2.
Proof.
  unfold str. induction l1 as [|c l1 IH]; [reflexivity|].
  cbn [app string_of_list_ascii]. rewrite IH. reflexivity.
Qed.

Lemma toLowerCase_idempotent s : toLowerCase (toLowerCase s) = toLowerCase s.
Proof.
  unfold toLowerCase. rewrite JSFacts.chars_str, map_map.
  f_equal. apply map_ext. apply lower_lower.
Qed.

Lemma toLowerCase_append a b :
  toLowerCase (a +:+ b) = toLowerCase a +:+ toLowerCase b.
Proof. unfold toLowerCase. now rewrite chars_append, map_app, str_app. Qed.

Lemma toUpperCase_trim_upper s :
  toUpperCase (trim (toUpperCase s)) = toUpperCase (trim s).
Proof.
  unfold toUpperCase, trim. rewrite !JSFacts.chars_str.
  rewrite trim_chars_map by apply upper_space.
  rewrite map_map. f_equal. apply map_ext. apply upper_upper.
Qed.

Lemma toUpperCase_trim_lower s :
  toUpperCase (trim (toLowerCase s)) = toUpperCase (trim s).
Proof.
  unfold toUpperCase, toLowerCase, trim. rewrite !JSFacts.chars_str.
  rewrite trim_chars_map by apply lower_space.
  rewrite map_map. f_equal. apply map_ext. apply upper_lower.
Qed.

Lemma str_empty l : String.eqb (str l) "" = Nat.eqb (List.length l) 0.
Proof. destruct l; reflexivity. Qed.

Lemma toUpperCase_empty s : String.eqb (toUpperCase s) "" = String.eqb s "".
Proof. destruct s; reflexivity. Qed.

Lemma toLowerCase_empty s : String.eqb (toLowerCase s) "" = String.eqb s "".
Proof. destruct s; reflexivity. Qed.

End CaseFacts.

(** ** ASCII text

    The string functions keep ASCII text ASCII, so that a composition of
    them stays where they are the builtins of JavaScript. *)

Module AsciiProps.
Import JS Vocab.

Lemma ascii_str l : ascii_text (str l) = ascii_chars l.
Proof. unfold ascii_text. now rewrite JSFacts.chars_str. Qed.

Lemma ascii_upper_char c : ascii_char c = true -> ascii_char (upper_char c) = true.
Proof. destruct c as [[] [] [] [] [] [] [] []]; vm_compute; trivial. Qed.

Lemma ascii_lower_char c : ascii_char c = true -> ascii_char (lower_char c) = true.
Proof. destruct c as [[] [] [] [] [] [] [] []]; vm_compute; trivial. Qed.

Lemma ascii_map (f : ascii -> ascii) l :
  (forall c, ascii_char c = true -> ascii_char (f c) = true) ->
  ascii_chars l = true -> ascii_chars (map f l) = true.
Proof.
  intros F. unfold ascii_chars.
  induction l as [|c l IH]; cbn [map forallb]; [trivial|].
  intros H. apply andb_true_iff in H as [Hc H].
  now rewrite (F c Hc), (IH H).
Qed.

Lemma ascii_app a b :
  ascii_chars (a ++ b) = ascii_chars a && ascii_chars b.
Proof. apply forallb_app. Qed.

Lemma ascii_drop_while p l :
  ascii_chars l = true -> ascii_chars (drop_while p l) = true.
Proof.
  unfold ascii_chars. induction l as [|c l IH]; cbn [drop_while forallb]; [trivial|].
  intros H. destruct (p c); [|exact H].
  apply andb_true_iff in H as [_ H]. now apply IH.
Qed.

Lemma ascii_rev l : ascii_chars l = true -> ascii_chars (rev l) = true.
Proof.
  unfold ascii_chars. rewrite !forallb_forall. intros H c I.
  apply H. now apply in_rev.
Qed.

Lemma ascii_trim s : ascii_text s = true -> ascii_text (trim s) = true.
Proof.
  unfold trim, trim_chars. rewrite ascii_str. unfold ascii_text. intros H.
  now apply ascii_rev, ascii_drop_while, ascii_rev, ascii_drop_while.
Qed.

Lemma ascii_toUpperCase s : ascii_text s = true -> ascii_text (toUpperCase s) = true.
Proof.
  unfold toUpperCase. rewrite ascii_str. apply ascii_map, ascii_upper_char.
Qed.

Lemma ascii_toLowerCase s : ascii_text s = true -> ascii_text (toLowerCase s) = true.
Proof.
  unfold toLowerCase. rewrite ascii_str. apply ascii_map, ascii_lower_char.
Qed.

Lemma ascii_append a b :
  ascii_text a = true -> ascii_text b = true -> ascii_text (a +:+ b) = true.
Proof.
  unfold ascii_text. rewrite CaseFacts.chars_append, ascii_app.
  now intros -> ->.
Qed.

Lemma ascii_split_chars sep l : forall cur,
  ascii_chars cur = true -> ascii_chars l = true ->
  forallb ascii_chars (split_chars sep cur l) = true.
Proof.
  induction l as [|c l IH]; intros cur Hc Hl; cbn [split_chars forallb].
  - now rewrite (ascii_rev _ Hc).
  - unfold ascii_chars in Hl. cbn [forallb] in Hl.
    apply andb_true_iff in Hl as [H0 Hl].
    destruct (Ascii.eqb c sep); cbn [forallb].
    + rewrite (ascii_rev _ Hc). now apply IH.
    + apply IH; [|exact Hl]. unfold ascii_chars. cbn [forallb]. now rewrite H0.
Qed.

Lemma ascii_split sep s :
  ascii_text s = true -> forallb ascii_text (split sep s) = true.
Proof.
  intros H. unfold split. rewrite forallb_forall. intros x I.
  apply in_map_iff in I as (l & <- & I). rewrite ascii_str.
  pose proof (ascii_split_chars sep (chars s) [] eq_refl H) as F.
  rewrite forallb_forall in F. now apply F.
Qed.

Lemma ascii_hd l : forallb ascii_text l = true -> ascii_text (List.hd "" l) = true.
Proof.
  destruct l as [|x l]; [reflexivity|]. cbn. intros H.
  now apply andb_true_iff in H as [H _].
Qed.

Lemma ascii_last l : forallb ascii_text l = true -> ascii_text (List.last l "") = true.
Proof.
  induction l as [|x l IH]; [reflexivity|]. cbn [forallb]. intros H.
  apply andb_true_iff in H as [Hx H].
  destruct l as [|y l]; [exact Hx|]. now apply IH.
Qed.

(** The cells of an ASCII row. *)
Lemma ascii_lookup (r : Row) k :
  ascii_row r = true -> ascii_cell (r !! k) = true.
Proof.
  intros H. destruct (r !! k) as [v|] eqn:E; [|reflexivity]. cbn.
  unfold ascii_row in H. rewrite forallb_forall in H.
  apply (H (k, v)). apply list_elem_of_In. now apply elem_of_map_to_list.
Qed.

Lemma ascii_cell_trim v : ascii_cell v = true -> ascii_cell (trim <$> v) = true.
Proof. destruct v as [x|]; [apply ascii_trim | trivial]. Qed.

Lemma ascii_cell_upper v : ascii_cell v = true -> ascii_cell (toUpperCase <$> v) = true.
Proof. destruct v as [x|]; [apply ascii_toUpperCase | trivial]. Qed.

End AsciiProps.

(** ** Loyalty status *)

(** X1. [standardizeLoyaltyStatus] answers with one of the four tiers for
    every input, absent or not; it maps each of the four tiers to itself,
    and so each of its answers to itself. *)
Theorem X1_loyalty_is_a_tier (status : option string) :
  PassengerUploader.standardizeLoyaltyStatus status ∈ Vocab.tiers
  /\ (forall tier, tier ∈ Vocab.tiers ->
                   PassengerUploader.standardizeLoyaltyStatus (Some tier) = tier)
  /\ PassengerUploader.standardizeLoyaltyStatus
       (Some (PassengerUploader.standardizeLoyaltyStatus status))
     = PassengerUploader.standardizeLoyaltyStatus status.
Proof.
  assert (R : PassengerUploader.standardizeLoyaltyStatus status ∈ Vocab.tiers).
  { unfold PassengerUploader.standardizeLoyaltyStatus, Vocab.tiers.
    repeat case_match; set_solver. }
  assert (F : forall tier, tier ∈ Vocab.tiers ->
                PassengerUploader.standardizeLoyaltyStatus (Some tier) = tier).
  { intros tier T. unfold Vocab.tiers in T.
    repeat (apply elem_of_cons in T as [->|T]; [vm_compute; reflexivity|]).
    now apply elem_of_nil in T. }
  split; [exact R|]. split; [exact F|]. exact (F _ R).
Qed.

Lemma X1_loyalty_witness :
  PassengerUploader.standardizeLoyaltyStatus (Some "Gold") = "Gold"
  /\ PassengerUploader.standardizeLoyaltyStatus (Some "Platinum") = "Platinum".
Proof.
  destruct (X1_loyalty_is_a_tier None) as (_ & F & _).
  split; apply F; unfold Vocab.tiers; set_solver.
Defined.

(** X2. On ASCII text the tier does not depend on the case of the status:
    the status in upper case and the status in lower case, which are ASCII
    text again, get the tier of the status as written. *)
Theorem X2_loyalty_ignores_case (s : string) :
  Vocab.ascii_text s = true ->
  (Vocab.ascii_text (JS.toUpperCase s) = true
   /\ Vocab.ascii_text (JS.toLowerCase s) = true)
  /\ PassengerUploader.standardizeLoyaltyStatus (Some (JS.toUpperCase s))
     = PassengerUploader.standardizeLoyaltyStatus (Some s)
  /\ PassengerUploader.standardizeLoyaltyStatus (Some (JS.toLowerCase s))
     = PassengerUploader.standardizeLoyaltyStatus (Some s).
Proof.
  intros A.
  split; [split; [now apply AsciiProps.ascii_toUpperCase
                 | now apply AsciiProps.ascii_toLowerCase]|].
  unfold PassengerUploader.standardizeLoyaltyStatus.
  rewrite CaseFacts.toUpperCase_empty, CaseFacts.toLowerCase_empty,
    CaseFacts.toUpperCase_trim_upper, CaseFacts.toUpperCase_trim_lower.
  split; reflexivity.
Qed.

Lemma X2_loyalty_witness :
  PassengerUploader.standardizeLoyaltyStatus (Some (JS.toUpperCase " Silver member"))
  = PassengerUploader.standardizeLoyaltyStatus (Some " Silver member")
  /\ PassengerUploader.standardizeLoyaltyStatus (Some (JS.toLowerCase " Silver member"))
     = PassengerUploader.standardizeLoyaltyStatus (Some " Silver member").
Proof.
  destruct (X2_loyalty_ignores_case " Silver member" eq_refl) as [_ H]. exact H.
Defined.

(** ** Email addresses *)

Module EmailProps.
Import JS Vocab.

Lemma removelast_map {A B} (f : A -> B) l : removelast (map f l) = map f (removelast l).
Proof.
  induction l as [|x l IH]; [reflexivity|].
  cbn [map removelast]. destruct l; [reflexivity|]. cbn [map] in *. now rewrite IH.
Qed.

Lemma existsb_map {A B} (p : B -> bool) (f : A -> B) l :
  existsb p (map f l) = existsb (fun x => p (f x)) l.
Proof. induction l as [|x l IH]; cbn; [reflexivity | now rewrite IH]. Qed.

Lemma existsb_same {A} (p q : A -> bool) l :
  (forall x, p x = q x) -> existsb p l = existsb q l.
Proof.
  intros H. induction l as [|x l IH]; cbn; [reflexivity | now rewrite H, IH].
Qed.

Lemma inner_dot_lower d :
  SmartFileProcessor.inner_dot (map lower_char d) = SmartFileProcessor.inner_dot d.
Proof.
  destruct d as [|c d]; [reflexivity|].
  cbn [map SmartFileProcessor.inner_dot].
  rewrite removelast_map, existsb_map.
  apply existsb_same. intros x. apply CaseFacts.lower_dot.
Qed.

Lemma split_chars_lower l : forall cur,
  split_chars "@" (map lower_char cur) (map lower_char l)
  = map (map lower_char) (split_chars "@" cur l).
Proof.
  induction l as [|c l IH]; intros cur; cbn [map split_chars].
  - now rewrite map_rev.
  - rewrite CaseFacts.lower_at. destruct (Ascii.eqb c "@").
    + cbn [map]. rewrite map_rev. f_equal. apply (IH []).
    + apply (IH (c :: cur)).
Qed.

Lemma emailRegex_test_lower e :
  SmartFileProcessor.emailRegex_test (toLowerCase e)
  = SmartFileProcessor.emailRegex_test e.
Proof.
  unfold SmartFileProcessor.emailRegex_test, toLowerCase.
  rewrite JSFacts.chars_str, existsb_map.
  rewrite (existsb_same _ is_space) by apply CaseFacts.lower_space.
  f_equal. pose proof (split_chars_lower (chars e) []) as S.
  cbn [map] in S. rewrite S. clear S.
  destruct (split_chars "@" [] (chars e)) as [|a [|d [|x r]]]; cbn [map]; try reflexivity.
  now rewrite length_map, inner_dot_lower.
Qed.

Lemma valid_email_lower x :
  valid_email (Some x) = true -> valid_email (Some (toLowerCase x)) = true.
Proof.
  unfold valid_email, truthy.
  now rewrite CaseFacts.toLowerCase_empty, emailRegex_test_lower.
Qed.

(** Both variants: a valid existing email is kept in lower case, any other
    is treated like an absent one. *)
Lemma smart_email_cases fullName e :
  SmartFileProcessor.standardizeEmail fullName e =
    if valid_email e then toLowerCase (default "" e)
    else SmartFileProcessor.standardizeEmail fullName None.
Proof.
  unfold SmartFileProcessor.standardizeEmail, valid_email.
  destruct e as [x|]; [|reflexivity].
  destruct (truthy (Some x) && SmartFileProcessor.emailRegex_test x); reflexivity.
Qed.

Lemma loader_email_cases name e :
  PassengerUploader.standardizeEmail name e =
    if valid_email e then toLowerCase (default "" e)
    else PassengerUploader.standardizeEmail name None.
Proof.
  unfold PassengerUploader.standardizeEmail, valid_email.
  destruct e as [x|]; [|reflexivity].
  destruct (truthy (Some x) && SmartFileProcessor.emailRegex_test x); reflexivity.
Qed.

Lemma lower_fixed_append a b :
  toLowerCase a = a -> toLowerCase b = b -> toLowerCase (a +:+ b) = a +:+ b.
Proof. intros Ha Hb. now rewrite CaseFacts.toLowerCase_append, Ha, Hb. Qed.

Lemma smart_synthesized_lower fullName :
  toLowerCase (SmartFileProcessor.standardizeEmail fullName None)
  = SmartFileProcessor.standardizeEmail fullName None.
Proof.
  unfold SmartFileProcessor.standardizeEmail. cbn [truthy andb].
  repeat case_match; repeat apply lower_fixed_append;
    try apply CaseFacts.toLowerCase_idempotent; reflexivity.
Qed.

Lemma loader_synthesized_lower name :
  toLowerCase (PassengerUploader.standardizeEmail name None)
  = PassengerUploader.standardizeEmail name None.
Proof.
  unfold PassengerUploader.standardizeEmail. cbn [truthy andb].
  repeat case_match; repeat apply lower_fixed_append;
    try apply CaseFacts.toLowerCase_idempotent; reflexivity.
Qed.

Lemma names_ascii (fullName : option string) :
  Vocab.ascii_cell fullName = true ->
  forallb Vocab.ascii_text
    match fullName with
    | Some n => split " " (trim n)
    | None => []
    end = true.
Proof.
  destruct fullName as [n|]; [|reflexivity]. cbn. intros H.
  now apply AsciiProps.ascii_split, AsciiProps.ascii_trim.
Qed.

Lemma smart_email_ascii fullName e :
  Vocab.ascii_cell fullName = true -> Vocab.ascii_cell e = true ->
  Vocab.ascii_text (SmartFileProcessor.standardizeEmail fullName e) = true.
Proof.
  intros Hf He. unfold SmartFileProcessor.standardizeEmail.
  destruct (truthy e && _).
  - destruct e as [x|]; [now apply AsciiProps.ascii_toLowerCase | reflexivity].
  - pose proof (names_ascii fullName Hf) as Hn.
    generalize dependent (match fullName with
                          | Some n => split " " (trim n)
                          | None => []
                          end).
    intros names Hn.
    assert (L : Vocab.ascii_text (toLowerCase (List.last names "")) = true)
      by now apply AsciiProps.ascii_toLowerCase, AsciiProps.ascii_last.
    destruct names as [|n0 rest].
    + repeat case_match; repeat apply AsciiProps.ascii_append;
        try reflexivity; assumption.
    + assert (F : Vocab.ascii_text (toLowerCase n0) = true).
      { apply AsciiProps.ascii_toLowerCase. cbn [forallb] in Hn.
        now apply andb_true_iff in Hn as [Hn _]. }
      repeat case_match; repeat apply AsciiProps.ascii_append;
        try reflexivity; assumption.
Qed.

Lemma loader_email_ascii name e :
  Vocab.ascii_text name = true -> Vocab.ascii_cell e = true ->
  Vocab.ascii_text (PassengerUploader.standardizeEmail name e) = true.
Proof.
  intros Hf He. unfold PassengerUploader.standardizeEmail.
  destruct (truthy e && _).
  - destruct e as [x|]; [now apply AsciiProps.ascii_toLowerCase | reflexivity].
  - pose proof (names_ascii (Some name) Hf) as Hn. cbn iota in Hn.
    generalize dependent (split " " (trim name)). intros names Hn.
    assert (L : Vocab.ascii_text (toLowerCase (List.last names "")) = true)
      by now apply AsciiProps.ascii_toLowerCase, AsciiProps.ascii_last.
    assert (F : Vocab.ascii_text (toLowerCase (List.hd "" names)) = true)
      by now apply AsciiProps.ascii_toLowerCase, AsciiProps.ascii_hd.
    repeat case_match; repeat apply AsciiProps.ascii_append;
      try reflexivity; assumption.
Qed.

End EmailProps.

(** X3. Both [standardizeEmail], of [SmartFileProcessor] and of the
    passenger loader, on a name and an existing email that are ASCII text:
    the address they return is ASCII text in lower case; given back
    as the existing email it is returned unchanged; and an existing email
    that is not empty and matches the pattern is returned in lower case,
    where it still matches the pattern. *)
Theorem X3_email_is_stable
    (fullName : option string) (name : string) (e : option string) :
  Vocab.ascii_cell fullName = true ->
  Vocab.ascii_text name = true ->
  Vocab.ascii_cell e = true ->
  (Vocab.ascii_text (SmartFileProcessor.standardizeEmail fullName e) = true
   /\ Vocab.ascii_text (PassengerUploader.standardizeEmail name e) = true)
  /\ (JS.toLowerCase (SmartFileProcessor.standardizeEmail fullName e)
     = SmartFileProcessor.standardizeEmail fullName e
   /\ JS.toLowerCase (PassengerUploader.standardizeEmail name e)
      = PassengerUploader.standardizeEmail name e)
  /\ (SmartFileProcessor.standardizeEmail fullName
        (Some (SmartFileProcessor.standardizeEmail fullName e))
      = SmartFileProcessor.standardizeEmail fullName e
      /\ PassengerUploader.standardizeEmail name
           (Some (PassengerUploader.standardizeEmail name e))
         = PassengerUploader.standardizeEmail name e)
  /\ (Vocab.valid_email e = true ->
      SmartFileProcessor.standardizeEmail fullName e = JS.toLowerCase (default "" e)
      /\ PassengerUploader.standardizeEmail name e = JS.toLowerCase (default "" e)
      /\ SmartFileProcessor.emailRegex_test (JS.toLowerCase (default "" e)) = true).
Proof.
  intros Af An Ae.
  split; [split; [now apply EmailProps.smart_email_ascii
                 | now apply EmailProps.loader_email_ascii]|].
  assert (L1 : JS.toLowerCase (SmartFileProcessor.standardizeEmail fullName e)
               = SmartFileProcessor.standardizeEmail fullName e).
  { rewrite EmailProps.smart_email_cases. destruct (Vocab.valid_email e).
    - apply CaseFacts.toLowerCase_idempotent.
    - apply EmailProps.smart_synthesized_lower. }
  assert (L2 : JS.toLowerCase (PassengerUploader.standardizeEmail name e)
               = PassengerUploader.standardizeEmail name e).
  { rewrite EmailProps.loader_email_cases. destruct (Vocab.valid_email e).
    - apply CaseFacts.toLowerCase_idempotent.
    - apply EmailProps.loader_synthesized_lower. }
  split; [split; assumption|]. split; [split|].
  - rewrite (EmailProps.smart_email_cases fullName (Some _)). cbn [default from_option id].
    rewrite L1. destruct (Vocab.valid_email (Some _)) eqn:V; [reflexivity|].
    rewrite (EmailProps.smart_email_cases fullName e) in V |- *.
    destruct (Vocab.valid_email e) eqn:V0; [|reflexivity].
    destruct e as [x|]; [|discriminate].
    cbn [default from_option id] in V. now rewrite (EmailProps.valid_email_lower x V0) in V.
  - rewrite (EmailProps.loader_email_cases name (Some _)). cbn [default from_option id].
    rewrite L2. destruct (Vocab.valid_email (Some _)) eqn:V; [reflexivity|].
    rewrite (EmailProps.loader_email_cases name e) in V |- *.
    destruct (Vocab.valid_email e) eqn:V0; [|reflexivity].
    destruct e as [x|]; [|discriminate].
    cbn [default from_option id] in V. now rewrite (EmailProps.valid_email_lower x V0) in V.
  - intros V. rewrite EmailProps.smart_email_cases, EmailProps.loader_email_cases, V.
    split; [reflexivity|]. split; [reflexivity|].
    destruct e as [x|]; [|discriminate]. cbn [default from_option id].
    apply EmailProps.valid_email_lower in V.
    unfold Vocab.valid_email in V. now apply andb_true_iff in V as [_ V].
Qed.

Lemma X3_email_witness :
  SmartFileProcessor.standardizeEmail (Some "Jane Doe") (Some "Jane.Doe@Mail.Example.COM")
  = "jane.doe@mail.example.com"
  /\ PassengerUploader.standardizeEmail "Jane Doe" (Some "Jane.Doe@Mail.Example.COM")
     = "jane.doe@mail.example.com".
Proof.
  assert (V : Vocab.valid_email (Some "Jane.Doe@Mail.Example.COM") = true)
    by (vm_compute; reflexivity).
  destruct (X3_email_is_stable (Some "Jane Doe") "Jane Doe"
              (Some "Jane.Doe@Mail.Example.COM") eq_refl eq_refl eq_refl)
    as (_ & _ & _ & H).
  destruct (H V) as (H1 & H2 & _).
  split; [rewrite H1 | rewrite H2]; vm_compute; reflexivity.
Defined.

(** ** Amounts are numbers *)

Module NumberProps.
Import Num Vocab.

Lemma round_ratio_sign neg p q :
  isNaN (round_ratio neg p q) = false /\ negative (round_ratio neg p q) = neg.
Proof.
  unfold round_ratio. cbv zeta.
  repeat match goal with
         | |- context [if ?c then _ else _] => destruct c
         | |- context [let '(_, _) := ?x in _] => destruct x
         end; split; reflexivity.
Qed.

Lemma round2_keeps_numbers x :
  isNaN x = false -> isNaN (round2 x) = false.
Proof.
  destruct x as [|neg|neg m e]; cbn [round2 isNaN]; try discriminate; [reflexivity|].
  intros _. destruct (at_least_1e21 m e); [reflexivity|].
  apply round_ratio_sign.
Qed.

Lemma round2_not_negative x :
  negative x = false -> negative (round2 x) = false.
Proof.
  destruct x as [|neg|neg m e]; cbn [round2 negative]; try reflexivity;
    intros ->; [reflexivity|].
  destruct (at_least_1e21 m e); [reflexivity|].
  apply round_ratio_sign.
Qed.

Lemma parseFloat_cases s :
  parseFloat s = NaN
  \/ exists neg p q,
       parseFloat s = round_ratio neg p q
       /\ (neg = true -> exists rest, JS.chars s = "-"%char :: rest).
Proof.
  unfold parseFloat. cbv zeta.
  match goal with
  | |- context [match ?x with (_, _) => _ end] => destruct x as [neg body] eqn:M
  end.
  assert (S : neg = true -> exists rest, JS.chars s = "-"%char :: rest).
  { destruct (JS.chars s) as [|c l]; [injection M as <- <-; discriminate|].
    destruct c as [[] [] [] [] [] [] [] []]; injection M as <- <-;
      intros; try discriminate; eauto. }
  destruct (decimal_prefix body) as [[ip fp]|]; [right; eauto | left; reflexivity].
Qed.

Lemma parseFloat_sign s :
  negative (parseFloat s) = true -> exists rest, JS.chars s = "-"%char :: rest.
Proof.
  destruct (parseFloat_cases s) as [->|(neg & p & q & -> & S)]; [discriminate|].
  rewrite (proj2 (round_ratio_sign neg p q)). exact S.
Qed.

Lemma parseFloat_then_round2 s :
  isNaN (if isNaN (parseFloat s) then zero else round2 (parseFloat s)) = false.
Proof.
  destruct (isNaN (parseFloat s)) eqn:E; [reflexivity|].
  now apply round2_keeps_numbers.
Qed.

End NumberProps.

Module AmountFacts.

Lemma smart_amount_number v : Num.isNaN (SmartFileProcessor.standardize v) = false.
Proof. apply NumberProps.parseFloat_then_round2. Qed.

Lemma sales_amount_number a :
  Num.isNaN (SalesUploader.standardizeAmount a) = false
  /\ Vocab.negative (SalesUploader.standardizeAmount a) = false.
Proof.
  unfold SalesUploader.standardizeAmount.
  destruct a as [|s|]; try (split; reflexivity).
  destruct (String.eqb s ""); [split; reflexivity|].
  split; [apply NumberProps.parseFloat_then_round2|].
  set (clean := JS.str (List.filter SalesUploader.is_amount_char (JS.chars s))).
  destruct (Num.isNaN (Num.parseFloat clean)); [reflexivity|].
  apply NumberProps.round2_not_negative.
  destruct (Vocab.negative (Num.parseFloat clean)) eqn:N; [|reflexivity].
  apply NumberProps.parseFloat_sign in N as [rest N].
  unfold clean in N. rewrite JSFacts.chars_str in N.
  assert (I : In "-"%char (List.filter SalesUploader.is_amount_char (JS.chars s)))
    by (rewrite N; now left).
  apply filter_In in I as [_ I]. discriminate.
Qed.

End AmountFacts.

(** X4. A standardized amount is a number: neither standardizer returns
    [NaN], whatever the cell holds. The standardizer of [SalesUploader],
    which strips the minus sign with the noise, never returns a negative
    number. *)
Theorem X4_amounts_are_numbers (v : option string) (a : SalesUploader.AmountArg) :
  Num.isNaN (SmartFileProcessor.standardize v) = false
  /\ Num.isNaN (SalesUploader.standardizeAmount a) = false
  /\ Vocab.negative (SalesUploader.standardizeAmount a) = false.
Proof.
  split; [apply AmountFacts.smart_amount_number | apply AmountFacts.sales_amount_number].
Qed.

(** ** Transaction IDs *)

Module IdProps.
Import JS Vocab.

Lemma forallb_repeat {A} (f : A -> bool) x n : f x = true -> forallb f (repeat x n) = true.
Proof. intros H. induction n; cbn; [reflexivity | now rewrite H]. Qed.

Lemma padStart_digits n s :
  forallb is_digit (chars s) = true ->
  exists ds,
    padStart n "0" s = str ds
    /\ forallb is_digit ds = true
    /\ List.length ds = Nat.max n (List.length (chars s)).
Proof.
  intros H. unfold padStart. eexists. split; [reflexivity|]. split.
  - rewrite forallb_app, H, forallb_repeat; reflexivity.
  - rewrite List.length_app, repeat_length. lia.
Qed.

Lemma chars_digits_of s : chars (digits_of s) = List.filter is_digit (chars s).
Proof. unfold digits_of. apply JSFacts.chars_str. Qed.

Lemma digits_of_all_digits s : forallb is_digit (chars (digits_of s)) = true.
Proof. rewrite chars_digits_of. apply JSFacts.forallb_filter_same. Qed.

Lemma length_chars s : List.length (chars s) = String.length s.
Proof.
  unfold chars. induction s as [|c s IH]; cbn; [reflexivity | now rewrite IH].
Qed.

(** The digits that follow the prefix. *)
Lemma id_digits sourceType (r : Row) :
  exists ds,
    SalesUploader.transactionId_of sourceType r = id_prefix sourceType +:+ str ds
    /\ forallb is_digit ds = true
    /\ List.length ds = Nat.max 6 (raw_id_digits r).
Proof.
  unfold SalesUploader.transactionId_of, id_prefix, raw_id_digits.
  assert (P : exists ds,
             padStart 6 "0"
               match digits_of <$> (trim <$> (r !! "TransactionID")) with
               | Some n => if String.eqb n "" then "0" else n
               | None => "0"
               end = str ds
             /\ forallb is_digit ds = true
             /\ List.length ds
                = Nat.max 6 match r !! "TransactionID" with
                            | Some t => Spec.digit_count t
                            | None => 0
                            end).
  { destruct (r !! "TransactionID") as [t|]; cbn [fmap option_fmap option_map].
    - rewrite <- (PassengerKeyProps.digit_count_trim t).
      rewrite <- PassengerKeyProps.length_digits_of.
      destruct (String.eqb_spec (digits_of (trim t)) "") as [E|N].
      + rewrite E. exists (chars "000000"). repeat split.
      + destruct (padStart_digits 6 (digits_of (trim t))
                    (digits_of_all_digits (trim t))) as (ds & E & D & L).
        exists ds. split; [exact E|]. split; [exact D|].
        now rewrite L, length_chars.
    - exists (chars "000000"). repeat split. }
  destruct P as (ds & E & D & L). exists ds.
  destruct (String.eqb sourceType "travel_agency"); rewrite E; repeat split; assumption.
Qed.

Lemma startsWith_prefix a b : startsWith (a +:+ b) a = true.
Proof.
  unfold startsWith. rewrite CaseFacts.chars_append.
  induction (chars a) as [|c l IH]; cbn; [reflexivity|].
  now rewrite Ascii.eqb_refl.
Qed.

Lemma prefixes_differ k :
  startsWith k "TA" = true -> startsWith k "CO" = true -> False.
Proof.
  unfold startsWith. intros H1 H2.
  destruct (chars k) as [|c l]; [discriminate H1|].
  destruct c as [[] [] [] [] [] [] [] []]; cbn in H1, H2; discriminate.
Qed.

End IdProps.

(** X5. The transaction ID that [processSalesFile] synthesizes for a row is
    the two-letter prefix of the source followed by digits only, six of
    them, or as many as the raw ID has when it has more than six. *)
Theorem X5_transaction_id_format (sourceType : string) (r : Row) :
  exists ds,
    SalesUploader.transactionId_of sourceType r
      = Vocab.id_prefix sourceType +:+ JS.str ds
    /\ forallb JS.is_digit ds = true
    /\ List.length ds = Nat.max 6 (Vocab.raw_id_digits r).
Proof. apply IdProps.id_digits. Qed.

(** ** Clean sales *)

Module CleanSaleProps.
Import JS Vocab.

Lemma key_canonical k r :
  SmartFileProcessor.standardizePassengerKey k = Some r -> canonical r = true.
Proof.
  destruct k as [x|]; [|discriminate].
  rewrite PassengerKeyProps.smart_key_eq.
  destruct (Spec.digit_count x <? 3)%nat eqn:L; [discriminate|].
  apply Nat.ltb_ge in L. destruct (includes x "P"); [|discriminate].
  intros [= <-].
  destruct (PassengerKeyProps.canonical_key_shape x L)
    as (d1 & d2 & d3 & _ & H1 & H2 & H3 & ->).
  unfold canonical. cbn. now rewrite H1, H2, H3.
Qed.

Lemma loader_key_canonical k r :
  PassengerUploader.standardizePassengerKey k = Some r -> canonical r = true.
Proof.
  destruct k as [x|]; [|discriminate].
  rewrite PassengerKeyProps.loader_key_eq.
  destruct (Spec.digit_count x <? 3)%nat eqn:L; [discriminate|].
  apply Nat.ltb_ge in L. intros [= <-].
  destruct (PassengerKeyProps.canonical_key_shape x L)
    as (d1 & d2 & d3 & _ & H1 & H2 & H3 & ->).
  unfold canonical. cbn. now rewrite H1, H2, H3.
Qed.

Lemma truthy_default v : truthy v = true -> default "" v <> "".
Proof.
  destruct v as [x|]; cbn; [|discriminate].
  destruct (String.eqb_spec x ""); [discriminate | auto].
Qed.

Lemma id_has_prefix sourceType (r : Row) :
  startsWith (SalesUploader.transactionId_of sourceType r) (id_prefix sourceType) = true.
Proof.
  destruct (IdProps.id_digits sourceType r) as (ds & -> & _).
  apply IdProps.startsWith_prefix.
Qed.

Section WithDates.
Variable isoDateOf : option string -> option string.
Variable sourceType : string.

(** What the handler of [processSalesFile] does with a row: it rejects it,
    or it appends a well-formed sale with a fresh transaction ID. *)
Lemma on_data_cases st (r : Row) :
  (exists why seen,
      SalesUploader.on_data isoDateOf sourceType st r
      = SalesUploader.reject st seen sourceType r why)
  \/ ((SalesUploader.transactionId_of sourceType r
         ∉ SalesUploader.seenTransactionIds st)
      /\ exists sale,
           SalesUploader.on_data isoDateOf sourceType st r
           = {| SalesUploader.sales := SalesUploader.sales st ++ [sale];
                SalesUploader.dirtyRows := SalesUploader.dirtyRows st;
                SalesUploader.seenTransactionIds :=
                  SalesUploader.seenTransactionIds st
                  ∪ {[ SalesUploader.transactionId_of sourceType r ]} |}
           /\ Sale.transaction_id sale = SalesUploader.transactionId_of sourceType r
           /\ well_formed_sale sourceType sale
           /\ negative (Sale.ticket_price sale) = false).
Proof.
  unfold SalesUploader.on_data.
  destruct (decide _) as [Seen|Fresh]; [left; eauto|].
  destruct (SalesUploader.standardizePassengerKey _) as [key|] eqn:K; [|left; eauto].
  destruct (truthy (JS.or (r !! "FlightID") (r !! "FlightKey"))) eqn:F;
    cbn [negb]; [|left; eauto].
  destruct (SalesUploader.standardizeDate _ _) as [date|]; [|left; eauto].
  destruct (truthy (r !! "TicketPrice")); cbn [negb]; [|left; eauto].
  right. split; [exact Fresh|]. eexists. split; [reflexivity|].
  split; [reflexivity|]. split.
  - unfold well_formed_sale. cbn.
    split; [apply id_has_prefix|].
    split; [exact (key_canonical _ _ K)|].
    split; [exact (truthy_default _ F)|].
    split; [reflexivity|].
    repeat split; apply AmountFacts.sales_amount_number.
  - apply AmountFacts.sales_amount_number.
Qed.

Lemma elem_of_map_ids (l : list Sale.t) k :
  k ∈ map Sale.transaction_id l <-> exists s, s ∈ l /\ Sale.transaction_id s = k.
Proof.
  rewrite list_elem_of_In, in_map_iff. split; intros (x & H1 & H2).
  - exists x. split; [now apply list_elem_of_In | exact H1].
  - exists x. split; [exact H2 | now apply list_elem_of_In].
Qed.

(** The invariants of the file state. *)
Lemma processSalesFile_invariants rows :
  let st := SalesUploader.processSalesFile isoDateOf rows sourceType in
  List.length (SalesUploader.sales st) + List.length (SalesUploader.dirtyRows st)
    = List.length rows
  /\ NoDup (map Sale.transaction_id (SalesUploader.sales st))
  /\ (forall k, k ∈ map Sale.transaction_id (SalesUploader.sales st) ->
                k ∈ SalesUploader.seenTransactionIds st)
  /\ Forall (well_formed_sale sourceType) (SalesUploader.sales st)
  /\ Forall (fun s => negative (Sale.ticket_price s) = false) (SalesUploader.sales st).
Proof.
  induction rows as [|r rows IH] using rev_ind.
  - cbn. repeat split; try constructor. intros k H. now apply elem_of_nil in H.
  - cbn zeta in *. rewrite SalesFileProps.processSalesFile_snoc.
    destruct IH as (L & N & S & W & P).
    set (st := SalesUploader.processSalesFile isoDateOf rows sourceType) in *.
    destruct (on_data_cases st r) as [(why & seen & E)|(Fresh & sale & E & I & Ws & Ps)].
    + pose proof (SalesFileProps.seen_on_data isoDateOf sourceType st r) as Seen.
      rewrite E in *. unfold SalesUploader.reject in *.
      cbn [SalesUploader.sales SalesUploader.dirtyRows
           SalesUploader.seenTransactionIds] in *.
      rewrite !List.length_app. cbn [List.length].
      split; [lia|]. split; [exact N|]. split; [|split; assumption].
      intros k H. apply Seen. left. now apply S.
    + rewrite E.
      cbn [SalesUploader.sales SalesUploader.dirtyRows SalesUploader.seenTransactionIds].
      rewrite !List.length_app, map_app. cbn [List.length map].
      split; [lia|]. split.
      { apply NoDup_app. split; [exact N|]. split; [|apply NoDup_singleton].
        intros k H Hk. apply list_elem_of_singleton in Hk. subst k.
        apply Fresh. rewrite <- I. now apply S. }
      split.
      { intros k H. apply elem_of_app in H as [H|H].
        - apply elem_of_union. left. now apply S.
        - apply list_elem_of_singleton in H. subst k. rewrite I. set_solver. }
      split; apply Forall_app; split; try assumption;
        (constructor; [assumption | constructor]).
Qed.

End WithDates.

End CleanSaleProps.

(** X6. [processSalesFile] accounts for every row of the file: a row is
    either appended to the clean sales or to the rejected rows, so the two
    lists together are as long as the file; and no two clean sales of a file
    have the same transaction ID. *)
Theorem X6_sales_file_partition
    (isoDateOf : option string -> option string) (sourceType : string)
    (rows : list Row) :
  let st := SalesUploader.processSalesFile isoDateOf rows sourceType in
  List.length (SalesUploader.sales st) + List.length (SalesUploader.dirtyRows st)
    = List.length rows
  /\ NoDup (map Sale.transaction_id (SalesUploader.sales st)).
Proof.
  destruct (CleanSaleProps.processSalesFile_invariants isoDateOf sourceType rows)
    as (L & N & _).
  split; assumption.
Qed.

(** X7. Every clean sale that [processSalesFile] returns is well formed: its
    transaction ID starts with the prefix of the source, its passenger key is
    the letter [P] and three digits, its flight key is not empty, it carries
    the source type, its four amounts are numbers, and its ticket price is
    not negative. *)
Theorem X7_clean_sales_are_well_formed
    (isoDateOf : option string -> option string) (sourceType : string)
    (rows : list Row) (s : Sale.t) :
  s ∈ SalesUploader.sales (SalesUploader.processSalesFile isoDateOf rows sourceType) ->
  Vocab.well_formed_sale sourceType s
  /\ Vocab.negative (Sale.ticket_price s) = false.
Proof.
  intros H.
  destruct (CleanSaleProps.processSalesFile_invariants isoDateOf sourceType rows)
    as (_ & _ & _ & W & P).
  rewrite Forall_forall in W, P. split; [apply W | apply P]; exact H.
Qed.

Lemma X7_clean_sales_witness :
  exists s,
    s ∈ SalesUploader.sales
          (SalesUploader.processSalesFile Scenarios.iso_date
             [Scenarios.sales_row "TXN-1" "P001" "$100"] "travel_agency")
    /\ Vocab.well_formed_sale "travel_agency" s
    /\ Vocab.negative (Sale.ticket_price s) = false.
Proof.
  assert (H : exists s,
             s ∈ SalesUploader.sales
                   (SalesUploader.processSalesFile Scenarios.iso_date
                      [Scenarios.sales_row "TXN-1" "P001" "$100"] "travel_agency"))
    by (vm_compute; eexists; left).
  destruct H as [s H]. exists s. split; [exact H|].
  exact (X7_clean_sales_are_well_formed Scenarios.iso_date "travel_agency"
           [Scenarios.sales_row "TXN-1" "P001" "$100"] s H).
Defined.

(** ** Duplicates across the two sales files *)

Module CrossFileProps.
Import SalesUploader.

Lemma dedup_of_distinct l :
  NoDup (map Sale.transaction_id l) ->
  finalSales (dedup l) = l /\ crossFileDuplicates (dedup l) = [].
Proof.
  induction l as [|x l IH] using rev_ind; [split; reflexivity|].
  rewrite map_app. cbn [map]. intros N.
  apply NoDup_app in N as (N1 & N2 & _).
  destruct (IH N1) as [F C].
  rewrite DedupProps.dedup_snoc, DedupProps.dedup_step_fresh.
  - cbn [finalSales crossFileDuplicates]. now rewrite F, C.
  - rewrite DedupProps.seenIds_dedup. intros H. apply (N2 _ H). set_solver.
Qed.

Lemma dedup_partition l :
  List.length (finalSales (dedup l)) + List.length (crossFileDuplicates (dedup l))
    = List.length l
  /\ NoDup (map Sale.transaction_id (finalSales (dedup l)))
  /\ (forall k, k ∈ map Sale.transaction_id (finalSales (dedup l))
                <-> k ∈ map Sale.transaction_id l).
Proof.
  induction l as [|x l (L & N & S)] using rev_ind.
  - cbn. repeat split; try constructor; auto.
  - rewrite DedupProps.dedup_snoc. unfold dedup_step.
    destruct (decide _) as [Seen|Fresh];
      cbn [finalSales crossFileDuplicates];
      rewrite DedupProps.seenIds_dedup in *; rewrite !List.length_app, !map_app;
      cbn [List.length map].
    + split; [lia|]. split; [exact N|]. intros k. rewrite elem_of_app, <- S.
      split; [auto|]. intros [H|H]; [exact H|].
      apply list_elem_of_singleton in H. subst k. now apply S.
    + split; [lia|]. split.
      * apply NoDup_app. split; [exact N|]. split; [|apply NoDup_singleton].
        intros k H Hk. apply list_elem_of_singleton in Hk. subst k.
        apply Fresh. now apply S.
      * intros k. rewrite !elem_of_app, S. reflexivity.
Qed.

Lemma ids_of_two_files (isoDateOf : option string -> option string) rows1 rows2 :
  NoDup (map Sale.transaction_id
           (sales (processSalesFile isoDateOf rows1 "travel_agency")
            ++ sales (processSalesFile isoDateOf rows2 "corporate"))).
Proof.
  destruct (CleanSaleProps.processSalesFile_invariants isoDateOf "travel_agency" rows1)
    as (_ & N1 & _ & W1 & _).
  destruct (CleanSaleProps.processSalesFile_invariants isoDateOf "corporate" rows2)
    as (_ & N2 & _ & W2 & _).
  rewrite map_app. apply NoDup_app. split; [exact N1|]. split; [|exact N2].
  intros k H1 H2.
  apply CleanSaleProps.elem_of_map_ids in H1 as (s1 & I1 & <-).
  apply CleanSaleProps.elem_of_map_ids in H2 as (s2 & I2 & E).
  rewrite Forall_forall in W1, W2.
  destruct (W1 _ I1) as (P1 & _). destruct (W2 _ I2) as (P2 & _).
  rewrite E in P2. exact (IdProps.prefixes_differ _ P1 P2).
Qed.

End CrossFileProps.

(** X8. In [uploadAllSales] the check for duplicates across the two files
    never finds one: the IDs of the travel-agency file start with [TA], those
    of the corporate file with [CO], and each file is free of duplicates, so
    every clean sale of both files reaches the load loop and no cross-file
    quarantine record is made. *)
Theorem X8_no_duplicates_across_files
    (isoDateOf : option string -> option string) (travelRows corporateRows : list Row) :
  let travel := SalesUploader.processSalesFile isoDateOf travelRows "travel_agency" in
  let corporate := SalesUploader.processSalesFile isoDateOf corporateRows "corporate" in
  let d := SalesUploader.dedup
             (SalesUploader.sales travel ++ SalesUploader.sales corporate) in
  SalesUploader.crossFileDuplicates d = []
  /\ SalesUploader.finalSales d
     = SalesUploader.sales travel ++ SalesUploader.sales corporate.
Proof.
  cbn zeta.
  destruct (CrossFileProps.dedup_of_distinct _
              (CrossFileProps.ids_of_two_files isoDateOf travelRows corporateRows))
    as [F C].
  split; assumption.
Qed.

(** X9. The cross-file loop splits any list of sales in two: every sale is
    kept or reported, the kept sales have pairwise different transaction
    IDs, every ID of the input is among them, and running the loop on its
    own output changes nothing. *)
Theorem X9_dedup_partition (allSales : list Sale.t) :
  let d := SalesUploader.dedup allSales in
  List.length (SalesUploader.finalSales d)
  + List.length (SalesUploader.crossFileDuplicates d) = List.length allSales
  /\ NoDup (map Sale.transaction_id (SalesUploader.finalSales d))
  /\ (forall k, k ∈ map Sale.transaction_id (SalesUploader.finalSales d)
                <-> k ∈ map Sale.transaction_id allSales)
  /\ SalesUploader.finalSales (SalesUploader.dedup (SalesUploader.finalSales d))
     = SalesUploader.finalSales d.
Proof.
  cbn zeta. destruct (CrossFileProps.dedup_partition allSales) as (L & N & S).
  repeat split; try assumption; try (now apply S).
  now apply CrossFileProps.dedup_of_distinct.
Qed.

(** ** The counters of the sales load loop *)

Module SalesLoadProps.
Import SalesUploader Vocab.

Lemma upload_one_counts st sale w :
  exists st' w' more,
    upload_one st sale w = (World.Val st', w')
    /\ World.oracle w' = World.oracle w
    /\ List.length (World.trace w') = S (List.length (World.trace w))
    /\ counted st' = S (counted st)
    /\ allDirty st' = allDirty st ++ more
    /\ uploaded st' + List.length more <= S (uploaded st)
    /\ uploaded st <= uploaded st'.
Proof.
  unfold upload_one, World.try_catch, World.bind, upsert_sales, World.store, World.ret,
    counted.
  destruct (World.oracle w (List.length (World.trace w))) as [|c m|m].
  - do 2 eexists. exists []. split; [reflexivity|].
    cbn. rewrite List.length_app, app_nil_r. cbn. repeat split; lia.
  - destruct (World.is_conflict _); do 2 eexists; eexists (cons _ nil);
      (split; [reflexivity|]);
      cbn; rewrite List.length_app; cbn; repeat split; lia.
  - do 2 eexists. exists []. split; [reflexivity|].
    cbn. rewrite List.length_app, app_nil_r. cbn. repeat split; lia.
Qed.

Lemma upload_each_counts batch : forall st w,
  exists st' w' more,
    upload_each st batch w = (World.Val st', w')
    /\ World.oracle w' = World.oracle w
    /\ List.length (World.trace w') = List.length (World.trace w) + List.length batch
    /\ counted st' = counted st + List.length batch
    /\ allDirty st' = allDirty st ++ more
    /\ uploaded st' + List.length more <= uploaded st + List.length batch
    /\ uploaded st <= uploaded st'.
Proof.
  induction batch as [|sale batch IH]; intros st w; cbn [upload_each List.length].
  - exists st, w, []. unfold World.ret. rewrite app_nil_r, !Nat.add_0_r.
    repeat split; cbn; lia.
  - unfold World.bind.
    destruct (upload_one_counts st sale w) as (st1 & w1 & m1 & -> & O1 & T1 & C1 & D1 & U1 & V1).
    destruct (IH st1 w1) as (st2 & w2 & m2 & -> & O2 & T2 & C2 & D2 & U2 & V2).
    exists st2, w2, (m1 ++ m2). split; [reflexivity|].
    rewrite O2, O1, T2, T1, C2, C1, D2, D1, List.length_app, <- app_assoc.
    repeat split; lia.
Qed.

Lemma upload_batch_counts st batch w :
  exists st' w' more calls,
    upload_batch st batch w = (World.Val st', w')
    /\ World.oracle w' = World.oracle w
    /\ List.length (World.trace w') = List.length (World.trace w) + calls
    /\ 1 <= calls <= 1 + List.length batch
    /\ counted st' = counted st + List.length batch
    /\ allDirty st' = allDirty st ++ more
    /\ uploaded st' + List.length more <= uploaded st + List.length batch
    /\ uploaded st <= uploaded st'.
Proof.
  unfold upload_batch, World.try_catch, World.bind at 1, upsert_sales, World.store.
  destruct (World.oracle w (List.length (World.trace w))) as [|c m|m].
  - do 2 eexists. exists [], 1. split; [reflexivity|].
    unfold counted. cbn. rewrite List.length_app, app_nil_r. cbn. repeat split; lia.
  - match goal with
    | |- context [upload_each st batch ?w1] =>
        destruct (upload_each_counts batch st w1)
          as (st2 & w2 & m2 & -> & O2 & T2 & C2 & D2 & U2 & V2)
    end.
    exists st2, w2, m2, (1 + List.length batch). split; [reflexivity|].
    cbn [World.oracle World.trace] in O2, T2. rewrite List.length_app in T2.
    cbn [List.length] in T2. repeat split; try assumption; lia.
  - do 2 eexists. exists [], 1. split; [reflexivity|].
    unfold counted. cbn. rewrite List.length_app, app_nil_r. cbn. repeat split; lia.
Qed.

Lemma upload_batches_counts bs : forall st w,
  exists st' w' more calls,
    upload_batches st bs w = (World.Val st', w')
    /\ World.oracle w' = World.oracle w
    /\ List.length (World.trace w') = List.length (World.trace w) + calls
    /\ List.length bs <= calls <= List.length bs + List.length (concat bs)
    /\ counted st' = counted st + List.length (concat bs)
    /\ allDirty st' = allDirty st ++ more
    /\ uploaded st' + List.length more <= uploaded st + List.length (concat bs)
    /\ uploaded st <= uploaded st'.
Proof.
  induction bs as [|b bs IH]; intros st w; cbn [upload_batches concat List.length].
  - exists st, w, [], 0. unfold World.ret. rewrite app_nil_r, !Nat.add_0_r.
    repeat split; cbn; lia.
  - unfold World.bind.
    destruct (upload_batch_counts st b w)
      as (st1 & w1 & m1 & c1 & -> & O1 & T1 & B1 & C1 & D1 & U1 & V1).
    destruct (IH st1 w1) as (st2 & w2 & m2 & c2 & -> & O2 & T2 & B2 & C2 & D2 & U2 & V2).
    exists st2, w2, (m1 ++ m2), (c1 + c2). split; [reflexivity|].
    rewrite O2, O1, T2, T1, C2, C1, D2, D1, !List.length_app, <- app_assoc.
    repeat split; lia.
Qed.

(** With a store that accepts every call, each batch takes one call. *)
Lemma upload_batches_healthy bs : forall st w,
  healthy w ->
  upload_batches st bs w
  = (World.Val {| uploaded := uploaded st + List.length (concat bs);
                  errors := errors st;
                  skippedDuplicates := skippedDuplicates st;
                  allDirty := allDirty st |},
     {| World.oracle := World.oracle w;
        World.trace := World.trace w
                       ++ map (fun b => (Spec.upsert_call b, World.ROk)) bs |}).
Proof.
  induction bs as [|b bs IH]; intros st w H; cbn [upload_batches concat map].
  - unfold World.ret. rewrite app_nil_r, Nat.add_0_r. now destruct st, w.
  - unfold upload_batch, World.try_catch, upsert_sales. unfold World.bind, World.store.
    rewrite (H _). unfold World.ret. rewrite IH by exact H.
    cbn [uploaded errors skippedDuplicates allDirty World.oracle World.trace].
    rewrite List.length_app, <- app_assoc, Nat.add_assoc. reflexivity.
Qed.

Lemma save_dirty_batches_healthy bs : forall n w,
  healthy w ->
  save_dirty_batches n bs w
  = (World.Val (n + List.length (concat bs)),
     {| World.oracle := World.oracle w;
        World.trace := World.trace w
                       ++ map (fun b => (World.InsertDirty b, World.ROk)) bs |}).
Proof.
  induction bs as [|b bs IH]; intros n w H; cbn [save_dirty_batches concat map].
  - unfold World.ret. rewrite app_nil_r, Nat.add_0_r. now destruct w.
  - unfold save_dirty_batch. unfold World.bind, World.store.
    rewrite (H _). unfold World.ret. rewrite IH by exact H.
    cbn [World.oracle World.trace].
    rewrite List.length_app, <- app_assoc, Nat.add_assoc. reflexivity.
Qed.

Lemma guarded_upload a l :
  (if (0 <? List.length l)%nat
   then upload_clean a l
   else World.ret {| uploaded := 0; errors := 0; skippedDuplicates := 0;
                     allDirty := a |})
  = upload_clean a l.
Proof. now destruct l. Qed.

Lemma guarded_save l :
  (if (0 <? List.length l)%nat then save_dirty l else World.ret 0%nat) = save_dirty l.
Proof. now destruct l. Qed.

Lemma dirty_batches_cover (l : list DirtyRecord) :
  concat (World.batches dirtyBatchSize l) = l.
Proof. apply BatchProps.batches_concat. unfold dirtyBatchSize. lia. Qed.

End SalesLoadProps.

(** X10. The load loop of [uploadAllSales] never throws and counts every
    record exactly once: whatever the store answers, [uploaded + errors +
    skippedDuplicates] is the number of records given to it. It only appends
    to the quarantine list, at most one entry for each record it did not
    upload, and it makes at least one store call for each batch and at most
    one more for each record. *)
Theorem X10_sales_load_counts_every_record
    (allDirty0 : list DirtyRecord) (finalSales : list Sale.t) (w : World.t) :
  exists st w' more,
    SalesUploader.upload_clean allDirty0 finalSales w = (World.Val st, w')
    /\ Vocab.counted st = List.length finalSales
    /\ SalesUploader.allDirty st = allDirty0 ++ more
    /\ SalesUploader.uploaded st + List.length more <= List.length finalSales
    /\ List.length (World.batches SalesUploader.batchSize finalSales)
       <= Vocab.calls_between w w'
       <= List.length (World.batches SalesUploader.batchSize finalSales)
          + List.length finalSales.
Proof.
  unfold SalesUploader.upload_clean, Vocab.calls_between.
  match goal with
  | |- context [SalesUploader.upload_batches ?st0 ?bs w] =>
      destruct (SalesLoadProps.upload_batches_counts bs st0 w)
        as (st & w' & more & calls & E & _ & T & B & C & D & U & _)
  end.
  rewrite BatchProps.sales_batches_cover in *.
  exists st, w', more. split; [exact E|].
  cbn in C, D, U. rewrite T. repeat split; try assumption; lia.
Qed.

(** X11. A run of [uploadAllSales] against a store that accepts every call
    returns normally, uploads every clean sale of both files and saves every
    rejected row: the uploaded sales and the saved quarantine records are
    together as many as the rows of the two files. It makes one upsert for
    each batch of clean sales, then one quarantine insert for each batch of
    rejected rows, and never touches the backup file. *)
Theorem X11_healthy_sales_run
    (isoDateOf : option string -> option string) (travelRows corporateRows : list Row)
    (w : World.t) :
  Vocab.healthy w ->
  exists s w',
    SalesUploader.uploadAllSales isoDateOf travelRows corporateRows w = (World.Val s, w')
    /\ SalesUploader.uploaded (SalesUploader.load s) = List.length (SalesUploader.clean s)
    /\ SalesUploader.errors (SalesUploader.load s) = 0
    /\ SalesUploader.skippedDuplicates (SalesUploader.load s) = 0
    /\ SalesUploader.uploaded (SalesUploader.load s) + SalesUploader.dirtySaved s
       = List.length travelRows + List.length corporateRows
    /\ World.trace w'
       = World.trace w
         ++ map (fun b => (Spec.upsert_call b, World.ROk))
                (World.batches SalesUploader.batchSize (SalesUploader.clean s))
         ++ map (fun b => (World.InsertDirty b, World.ROk))
                (World.batches SalesUploader.dirtyBatchSize
                   (SalesUploader.allDirty (SalesUploader.load s))).
Proof.
  intros H. unfold SalesUploader.uploadAllSales. cbn zeta.
  destruct (CrossFileProps.dedup_of_distinct _
              (CrossFileProps.ids_of_two_files isoDateOf travelRows corporateRows))
    as [F C].
  rewrite F, C, app_nil_r.
  destruct (CleanSaleProps.processSalesFile_invariants isoDateOf "travel_agency" travelRows)
    as (L1 & _).
  destruct (CleanSaleProps.processSalesFile_invariants isoDateOf "corporate" corporateRows)
    as (L2 & _).
  cbn zeta in L1, L2.
  set (travel := SalesUploader.processSalesFile isoDateOf travelRows "travel_agency") in *.
  set (corporate := SalesUploader.processSalesFile isoDateOf corporateRows "corporate") in *.
  rewrite SalesLoadProps.guarded_upload.
  unfold World.bind at 1. unfold SalesUploader.upload_clean.
  rewrite SalesLoadProps.upload_batches_healthy by exact H.
  rewrite BatchProps.sales_batches_cover.
  cbn [SalesUploader.uploaded SalesUploader.errors SalesUploader.skippedDuplicates
       SalesUploader.allDirty].
  unfold World.bind. cbn [SalesUploader.allDirty].
  rewrite SalesLoadProps.guarded_save. unfold SalesUploader.save_dirty.
  rewrite SalesLoadProps.save_dirty_batches_healthy by exact H.
  rewrite SalesLoadProps.dirty_batches_cover.
  unfold World.ret. do 2 eexists. split; [reflexivity|].
  cbn [SalesUploader.load SalesUploader.clean SalesUploader.dirtySaved
       SalesUploader.uploaded SalesUploader.errors SalesUploader.skippedDuplicates
       SalesUploader.allDirty World.trace World.oracle].
  rewrite !List.length_app, <- app_assoc.
  repeat split; lia.
Qed.

Lemma X11_healthy_run_witness :
  Vocab.healthy Scenarios.always_ok
  /\ exists s w',
       SalesUploader.uploadAllSales Scenarios.iso_date
         [Scenarios.sales_row "TXN-1" "P001" "$100"; Scenarios.sales_row "TXN-2" "17" "5"]
         [Scenarios.sales_row "TXN-1" "P002" "7"] Scenarios.always_ok
       = (World.Val s, w')
       /\ SalesUploader.uploaded (SalesUploader.load s) = List.length (SalesUploader.clean s)
       /\ SalesUploader.errors (SalesUploader.load s) = 0
       /\ SalesUploader.skippedDuplicates (SalesUploader.load s) = 0
       /\ SalesUploader.uploaded (SalesUploader.load s) + SalesUploader.dirtySaved s
          = 2 + 1
       /\ World.trace w'
          = World.trace Scenarios.always_ok
            ++ map (fun b => (Spec.upsert_call b, World.ROk))
                   (World.batches SalesUploader.batchSize (SalesUploader.clean s))
            ++ map (fun b => (World.InsertDirty b, World.ROk))
                   (World.batches SalesUploader.dirtyBatchSize
                      (SalesUploader.allDirty (SalesUploader.load s))).
Proof.
  assert (H : Vocab.healthy Scenarios.always_ok) by (intros n; reflexivity).
  split; [exact H|].
  exact (X11_healthy_sales_run Scenarios.iso_date
           [Scenarios.sales_row "TXN-1" "P001" "$100"; Scenarios.sales_row "TXN-2" "17" "5"]
           [Scenarios.sales_row "TXN-1" "P002" "7"] Scenarios.always_ok H).
Defined.

(** ** The scan of the passenger file *)

Module ScanInvariants.
Import PassengerUploader Spec Vocab.

Lemma loyalty_in_tiers status : standardizeLoyaltyStatus status ∈ tiers.
Proof. unfold standardizeLoyaltyStatus, tiers. repeat case_match; set_solver. Qed.

Lemma loader_email_lower name e :
  JS.toLowerCase (standardizeEmail name e) = standardizeEmail name e.
Proof.
  rewrite EmailProps.loader_email_cases. destruct (valid_email e).
  - apply CaseFacts.toLowerCase_idempotent.
  - apply EmailProps.loader_synthesized_lower.
Qed.

Lemma passenger_of_row_well_formed k (r : Row) :
  canonical k = true -> well_formed_passenger (passenger_of_row k r).
Proof.
  intros K. unfold well_formed_passenger, passenger_of_row.
  cbn [Passenger.passenger_key Passenger.loyalty_status Passenger.email
       Passenger.full_name].
  split; [exact K|]. split; [apply loyalty_in_tiers|].
  split; [apply loader_email_lower|].
  eexists. split; [reflexivity|].
  destruct (JS.trim <$> r !! "FullName") as [n|]; [|discriminate].
  destruct (String.eqb_spec n ""); [discriminate | assumption].
Qed.

Lemma map_has_false m k : map_has m k = false -> k ∉ map fst m.
Proof.
  unfold map_has. induction m as [|e m IH]; cbn; [set_solver|].
  destruct (String.eqb_spec (fst e) k); [discriminate|].
  intros H. apply not_elem_of_cons. split; [congruence | now apply IH].
Qed.

(** One row of the scan: the row is filed in exactly one of the three
    accumulators, and a row that is not kept costs one store call. *)
Lemma scan_row_step st i r w :
  exists st' w' calls,
    scan_row st i r w = (World.Val st', w')
    /\ World.oracle w' = World.oracle w
    /\ List.length (World.trace w') = List.length (World.trace w) + calls
    /\ List.length (passengerMap st') + List.length (duplicates st')
       + List.length (invalidKeys st')
       = S (List.length (passengerMap st) + List.length (duplicates st)
            + List.length (invalidKeys st))
    /\ List.length (duplicates st') + List.length (invalidKeys st')
       = List.length (duplicates st) + List.length (invalidKeys st) + calls
    /\ passengerMap st' = map_after (passengerMap st) i r.
Proof.
  unfold map_after.
  destruct (passenger_key_of r) as [k|] eqn:K.
  - destruct (map_has (passengerMap st) k) eqn:H.
    + rewrite (ScanProps.scan_row_duplicate _ _ _ _ _ K H).
      do 2 eexists. exists 1. split; [reflexivity|].
      cbn. rewrite !List.length_app. cbn. repeat split; lia.
    + rewrite (ScanProps.scan_row_fresh _ _ _ _ _ K H).
      do 2 eexists. exists 0. split; [reflexivity|].
      cbn. rewrite !List.length_app. cbn. repeat split; lia.
  - rewrite (ScanProps.scan_row_invalid _ _ _ _ K).
    do 2 eexists. exists 1. split; [reflexivity|].
    cbn. rewrite !List.length_app. cbn. repeat split; lia.
Qed.

Lemma scan_rows_steps rows : forall st i w,
  exists st' w',
    scan_rows st i rows w = (World.Val st', w')
    /\ World.oracle w' = World.oracle w
    /\ List.length (World.trace w')
       = List.length (World.trace w)
         + (List.length (duplicates st') + List.length (invalidKeys st')
            - (List.length (duplicates st) + List.length (invalidKeys st)))
    /\ List.length (passengerMap st') + List.length (duplicates st')
       + List.length (invalidKeys st')
       = List.length (passengerMap st) + List.length (duplicates st)
         + List.length (invalidKeys st) + List.length rows
    /\ List.length (duplicates st) + List.length (invalidKeys st)
       <= List.length (duplicates st') + List.length (invalidKeys st')
    /\ passengerMap st' = maps_after (passengerMap st) i rows.
Proof.
  induction rows as [|r rows IH]; intros st i w; cbn [scan_rows maps_after List.length].
  - exists st, w. unfold World.ret. repeat split; lia.
  - unfold World.bind.
    destruct (scan_row_step st i r w) as (st1 & w1 & c & -> & O1 & T1 & L1 & D1 & M1).
    destruct (IH st1 (S i) w1) as (st2 & w2 & -> & O2 & T2 & L2 & D2 & M2).
    exists st2, w2. split; [reflexivity|].
    rewrite O2, O1, T2, T1.
    repeat split; try lia. now rewrite M2, M1.
Qed.

(** The entries of the map are well formed and have pairwise different
    keys. *)
Lemma maps_after_well_formed rows : forall m i,
  Forall (fun e => well_formed_passenger (data (snd e))
                   /\ Passenger.passenger_key (data (snd e)) = fst e) m ->
  NoDup (map fst m) ->
  Forall (fun e => well_formed_passenger (data (snd e))
                   /\ Passenger.passenger_key (data (snd e)) = fst e)
         (maps_after m i rows)
  /\ NoDup (map fst (maps_after m i rows)).
Proof.
  induction rows as [|r rows IH]; intros m i W N; cbn [maps_after]; [now split|].
  apply IH; unfold map_after; destruct (passenger_key_of r) as [k|] eqn:K; try assumption;
    destruct (map_has m k) eqn:H; try assumption.
  - apply Forall_app. split; [exact W|]. constructor; [|constructor].
    split; [|reflexivity]. cbn [snd data passenger_entry].
    apply passenger_of_row_well_formed.
    exact (CleanSaleProps.loader_key_canonical _ _ K).
  - rewrite map_app. apply NoDup_app. split; [exact N|]. split; [|apply NoDup_singleton].
    intros x Hx Hk. apply list_elem_of_singleton in Hk. cbn in Hk. subst x.
    exact (map_has_false _ _ H Hx).
Qed.

Lemma keys_of_unique m :
  Forall (fun e => well_formed_passenger (data (snd e))
                   /\ Passenger.passenger_key (data (snd e)) = fst e) m ->
  map Passenger.passenger_key (map (fun e => data (snd e)) m) = map fst m.
Proof.
  induction 1 as [|e m [_ E] _ IH]; cbn; [reflexivity|]. now rewrite E, IH.
Qed.

Lemma passenger_of_row_email_ascii k (r : Row) :
  ascii_row r = true ->
  ascii_text (Passenger.email (passenger_of_row k r)) = true.
Proof.
  intros H. unfold passenger_of_row. cbn [Passenger.email].
  apply EmailProps.loader_email_ascii.
  - pose proof (AsciiProps.ascii_cell_trim _ (AsciiProps.ascii_lookup r "FullName" H)) as N.
    destruct (JS.trim <$> r !! "FullName") as [n|]; [|reflexivity].
    destruct (String.eqb n ""); [reflexivity | exact N].
  - apply AsciiProps.ascii_cell_trim, AsciiProps.ascii_lookup, H.
Qed.

(** From ASCII rows the scan makes records with ASCII emails. *)
Lemma maps_after_ascii rows : forall m i,
  Forall (fun r => ascii_row r = true) rows ->
  Forall (fun e => ascii_text (Passenger.email (data (snd e))) = true) m ->
  Forall (fun e => ascii_text (Passenger.email (data (snd e))) = true)
         (maps_after m i rows).
Proof.
  induction rows as [|r rows IH]; intros m i R M; cbn [maps_after]; [exact M|].
  inversion R as [|? ? Hr Hrows]; subst.
  apply IH; [exact Hrows|]. unfold map_after.
  destruct (passenger_key_of r) as [k|]; [|exact M].
  destruct (map_has m k); [exact M|].
  apply Forall_app. split; [exact M|]. constructor; [|constructor].
  cbn [snd data passenger_entry]. now apply passenger_of_row_email_ascii.
Qed.

End ScanInvariants.

(** X12. The scan of the passenger file never throws and files every row in
    exactly one of its three accumulators: the map of kept passengers, the
    duplicates, and the invalid keys are together as long as the file. It
    makes one store call, the quarantine write, for each row it does not
    keep, and none for a row it keeps. *)
Theorem X12_passenger_scan_partition (rows : list Row) (w : World.t) :
  exists st w',
    PassengerUploader.scan_rows PassengerUploader.scan_init 0 rows w = (World.Val st, w')
    /\ List.length (PassengerUploader.passengerMap st)
       + List.length (PassengerUploader.duplicates st)
       + List.length (PassengerUploader.invalidKeys st) = List.length rows
    /\ Vocab.calls_between w w'
       = List.length (PassengerUploader.duplicates st)
         + List.length (PassengerUploader.invalidKeys st).
Proof.
  destruct (ScanInvariants.scan_rows_steps rows PassengerUploader.scan_init 0 w)
    as (st & w' & E & _ & T & L & _ & _).
  exists st, w'. split; [exact E|]. unfold Vocab.calls_between.
  cbn in T, L. split; lia.
Qed.

(** X13. The clean passengers that the scan hands to the load loop are well
    formed, whatever the store answers: each has a key made of [P] and three
    digits, one of the four loyalty tiers and a name that is not empty, and
    no two of them have the same key. When the cells of the file are ASCII
    text, each has an email that is ASCII text in lower case. *)
Theorem X13_clean_passengers_are_well_formed (rows : list Row) (w : World.t) :
  exists st w',
    PassengerUploader.scan_rows PassengerUploader.scan_init 0 rows w = (World.Val st, w')
    /\ Forall Vocab.keyed_passenger (Spec.uniquePassengers st)
    /\ NoDup (map Passenger.passenger_key (Spec.uniquePassengers st))
    /\ (Forall (fun r => Vocab.ascii_row r = true) rows ->
        Forall (fun p => Vocab.ascii_text (Passenger.email p) = true
                         /\ JS.toLowerCase (Passenger.email p) = Passenger.email p)
               (Spec.uniquePassengers st)).
Proof.
  destruct (ScanInvariants.scan_rows_steps rows PassengerUploader.scan_init 0 w)
    as (st & w' & E & _ & _ & _ & _ & M).
  exists st, w'. split; [exact E|].
  destruct (ScanInvariants.maps_after_well_formed rows [] 0) as [W N];
    [constructor | constructor |].
  unfold Spec.uniquePassengers. rewrite M. cbn [PassengerUploader.passengerMap
    PassengerUploader.scan_init].
  split; [|split].
  - apply Forall_map. eapply Forall_impl; [exact W|].
    intros e [(K & T & _ & Nm) _]. repeat split; assumption.
  - now rewrite (ScanInvariants.keys_of_unique _ W).
  - intros R. apply Forall_map.
    pose proof (ScanInvariants.maps_after_ascii rows [] 0 R ltac:(constructor)) as A.
    rewrite Forall_forall in W, A |- *. intros e I.
    split; [exact (A e I)|]. destruct (W e I) as [(_ & _ & L & _) _]. exact L.
Qed.

Lemma X13_clean_passengers_witness :
  exists st w',
    PassengerUploader.scan_rows PassengerUploader.scan_init 0
      [Scenarios.jane "P001"; Scenarios.jane "17"; Scenarios.jane "P-1001"]
      Scenarios.always_ok
    = (World.Val st, w')
    /\ Forall (fun p => Vocab.ascii_text (Passenger.email p) = true
                        /\ JS.toLowerCase (Passenger.email p) = Passenger.email p)
              (Spec.uniquePassengers st).
Proof.
  destruct (X13_clean_passengers_are_well_formed
              [Scenarios.jane "P001"; Scenarios.jane "17"; Scenarios.jane "P-1001"]
              Scenarios.always_ok) as (st & w' & E & _ & _ & L).
  exists st, w'. split; [exact E|]. apply L.
  repeat constructor.
Defined.

(** ** The counters of the passenger load loop *)

Module PassengerCountProps.
Import PassengerUploader Spec Vocab.

Lemma insert_one_counts st p w :
  exists st' w' more,
    insert_one st p w = (World.Val st', w')
    /\ counted_passengers st' = S (counted_passengers st)
    /\ failedPassengers st' = failedPassengers st ++ more
    /\ errors st' = errors st + List.length more.
Proof.
  rewrite PassengerLoadProps.insert_one_cases. cbn zeta. unfold counted_passengers.
  destruct (is_ok _); [|destruct (conflict_reply _)].
  - do 2 eexists. exists []. split; [reflexivity|]. cbn. rewrite app_nil_r.
    repeat split; lia.
  - do 2 eexists. exists []. split; [reflexivity|]. cbn. rewrite app_nil_r.
    repeat split; lia.
  - do 2 eexists. eexists (cons _ nil). split; [reflexivity|]. cbn.
    repeat split; lia.
Qed.

Lemma insert_each_counts batch : forall st w,
  exists st' w' more,
    insert_each st batch w = (World.Val st', w')
    /\ counted_passengers st' = counted_passengers st + List.length batch
    /\ failedPassengers st' = failedPassengers st ++ more
    /\ errors st' = errors st + List.length more.
Proof.
  induction batch as [|p batch IH]; intros st w; cbn [insert_each List.length].
  - exists st, w, []. unfold World.ret. rewrite app_nil_r. cbn. repeat split; lia.
  - unfold World.bind.
    destruct (insert_one_counts st p w) as (st1 & w1 & m1 & -> & C1 & F1 & E1).
    destruct (IH st1 w1) as (st2 & w2 & m2 & -> & C2 & F2 & E2).
    exists st2, w2, (m1 ++ m2). split; [reflexivity|].
    rewrite C2, C1, F2, F1, E2, E1, List.length_app, <- app_assoc. repeat split; lia.
Qed.

Lemma insert_batch_counts st batch w :
  exists st' w' more,
    insert_batch st batch w = (World.Val st', w')
    /\ counted_passengers st' = counted_passengers st + List.length batch
    /\ failedPassengers st' = failedPassengers st ++ more
    /\ errors st + List.length more <= errors st'.
Proof.
  destruct (World.oracle w (List.length (World.trace w))) as [|c m|m] eqn:R.
  - unfold insert_batch, World.try_catch, World.bind, insert_passengers, World.store.
    rewrite R. unfold World.ret. do 2 eexists. exists []. split; [reflexivity|].
    unfold counted_passengers. cbn. rewrite app_nil_r. repeat split; lia.
  - destruct (World.is_conflict {| World.code := c; World.message := m |}) eqn:C.
    + rewrite (PassengerLoadProps.insert_batch_conflict _ _ _ _ _ R C).
      match goal with
      | |- context [insert_each st batch ?w1] =>
          destruct (insert_each_counts batch st w1) as (st2 & w2 & m2 & -> & C2 & F2 & E2)
      end.
      exists st2, w2, m2. split; [reflexivity|]. repeat split; try assumption; lia.
    + destruct (PassengerLoadProps.insert_batch_other_error st batch w c m R C)
        as (w' & -> & _).
      do 2 eexists. eexists. split; [reflexivity|].
      unfold counted_passengers. cbn. rewrite length_map. repeat split; lia.
  - rewrite (PassengerLoadProps.insert_batch_throws _ _ _ _ R).
    do 2 eexists. exists []. split; [reflexivity|].
    unfold counted_passengers. cbn. rewrite app_nil_r. repeat split; lia.
Qed.

Lemma insert_batches_counts bs : forall st w,
  exists st' w' more,
    insert_batches st bs w = (World.Val st', w')
    /\ counted_passengers st' = counted_passengers st + List.length (concat bs)
    /\ failedPassengers st' = failedPassengers st ++ more
    /\ errors st + List.length more <= errors st'.
Proof.
  induction bs as [|b bs IH]; intros st w; cbn [insert_batches concat].
  - exists st, w, []. unfold World.ret. rewrite app_nil_r. cbn. repeat split; lia.
  - unfold World.bind.
    destruct (insert_batch_counts st b w) as (st1 & w1 & m1 & -> & C1 & F1 & E1).
    destruct (IH st1 w1) as (st2 & w2 & m2 & -> & C2 & F2 & E2).
    exists st2, w2, (m1 ++ m2). split; [reflexivity|].
    rewrite C2, C1, F2, F1, !List.length_app, <- app_assoc. repeat split; lia.
Qed.

End PassengerCountProps.

(** X14. The load loop of [uploadPassengers] never throws and counts every
    passenger exactly once: whatever the store answers, [uploaded + errors +
    alreadyExist] is the number of passengers given to it, the total that the
    summary prints. The list of failed passengers is never longer than the
    error count. *)
Theorem X14_passenger_load_counts_every_record
    (uniquePassengers : list Passenger.t) (w : World.t) :
  exists st w',
    PassengerUploader.upload_clean uniquePassengers w = (World.Val st, w')
    /\ Vocab.counted_passengers st = List.length uniquePassengers
    /\ List.length (PassengerUploader.failedPassengers st)
       <= PassengerUploader.errors st.
Proof.
  unfold PassengerUploader.upload_clean.
  match goal with
  | |- context [PassengerUploader.insert_batches ?st0 ?bs w] =>
      destruct (PassengerCountProps.insert_batches_counts bs st0 w)
        as (st & w' & more & E & C & F & L)
  end.
  rewrite BatchProps.passenger_batches_cover in C.
  exists st, w'. split; [exact E|]. rewrite F. cbn in C, L |- *. split; lia.
Qed.

(** ** The airport file *)

Module AirportProps.
Import JS Vocab.

Lemma toUpperCase_idempotent s : toUpperCase (toUpperCase s) = toUpperCase s.
Proof.
  unfold toUpperCase. rewrite JSFacts.chars_str, map_map.
  f_equal. apply map_ext. apply CaseFacts.upper_upper.
Qed.

Lemma toUpperCase_of_lower s : toUpperCase (toLowerCase s) = toUpperCase s.
Proof.
  unfold toUpperCase, toLowerCase. rewrite JSFacts.chars_str, map_map.
  f_equal. apply map_ext. apply CaseFacts.upper_lower.
Qed.

Lemma read_airports_snoc rows r :
  AirportUploader.read_airports (rows ++ [r])
  = AirportUploader.on_data (AirportUploader.read_airports rows) r.
Proof. unfold AirportUploader.read_airports. now rewrite fold_left_app. Qed.

Lemma check_snoc rows r :
  CheckDuplicates.check (rows ++ [r])
  = CheckDuplicates.on_data (CheckDuplicates.check rows) r.
Proof. unfold CheckDuplicates.check. now rewrite fold_left_app. Qed.

(** What the handler of the reader does with a row. *)
Lemma reader_on_data_cases st (r : Row) :
  (AirportUploader.on_data st r = st
   /\ (valid_airport_key r = true ->
       exists k, JS.toUpperCase <$> (JS.trim <$> (r !! "AirportKey")) = Some k
                 /\ k ∈ AirportUploader.airportSet st))
  \/ (exists k a,
        JS.toUpperCase <$> (JS.trim <$> (r !! "AirportKey")) = Some k
        /\ valid_airport_key r = true
        /\ (k ∉ AirportUploader.airportSet st)
        /\ Airport.airport_key a = k
        /\ String.length k = 3
        /\ toUpperCase k = k
        /\ AirportUploader.on_data st r
           = {| AirportUploader.airports := AirportUploader.airports st ++ [a];
                AirportUploader.airportSet := AirportUploader.airportSet st ∪ {[ k ]} |}).
Proof.
  unfold AirportUploader.on_data, valid_airport_key.
  destruct (r !! "AirportKey") as [x|]; cbn [fmap option_fmap option_map];
    [|left; split; [reflexivity | discriminate]].
  destruct (String.eqb (toUpperCase (trim x)) "") eqn:E; cbn [orb negb andb];
    [left; split; [reflexivity | discriminate]|].
  destruct (Nat.eqb_spec (String.length (toUpperCase (trim x))) 3) as [L|L];
    cbn [negb]; [|left; split; [reflexivity | discriminate]].
  destruct (decide _) as [Seen|Fresh].
  - left. split; [reflexivity|]. intros _. eauto.
  - right.
    exists (toUpperCase (trim x)),
      {| Airport.airport_key := toUpperCase (trim x);
         Airport.airport_name := JS.trim <$> (r !! "AirportName");
         Airport.city := JS.trim <$> (r !! "City");
         Airport.country := AirportUploader.standardizeCountry (r !! "Country") |}.
    split; [reflexivity|]. split; [reflexivity|].
    split; [exact Fresh|]. split; [reflexivity|]. split; [exact L|].
    split; [apply toUpperCase_idempotent | reflexivity].
Qed.

Lemma read_invariants rows :
  let st := AirportUploader.read_airports rows in
  Forall (fun a => String.length (Airport.airport_key a) = 3
                   /\ toUpperCase (Airport.airport_key a) = Airport.airport_key a)
         (AirportUploader.airports st)
  /\ NoDup (map Airport.airport_key (AirportUploader.airports st))
  /\ (forall k, k ∈ AirportUploader.airportSet st
                <-> k ∈ map Airport.airport_key (AirportUploader.airports st))
  /\ List.length (AirportUploader.airports st) <= List.length rows.
Proof.
  induction rows as [|r rows IH] using rev_ind.
  - cbn. repeat split; try constructor; set_solver.
  - cbn zeta in *. rewrite read_airports_snoc, List.length_app. cbn [List.length].
    destruct IH as (F & N & S & L).
    destruct (reader_on_data_cases (AirportUploader.read_airports rows) r)
      as [[-> _]|(k & a & _ & _ & Fresh & K & L3 & U & ->)].
    + repeat split; try assumption; try (now apply S); lia.
    + cbn [AirportUploader.airports AirportUploader.airportSet].
      rewrite map_app, List.length_app. cbn [map List.length]. rewrite K.
      split; [apply Forall_app; split; [exact F|];
              constructor; [rewrite K; now split | constructor]|].
      split.
      { apply NoDup_app. split; [exact N|]. split; [|apply NoDup_singleton].
        intros x Hx Hk. apply list_elem_of_singleton in Hk. subst x.
        apply Fresh. now apply S. }
      split; [|lia].
      intros x. rewrite elem_of_union, elem_of_app, S. set_solver.
Qed.

Lemma cd_map_has m k :
  CheckDuplicates.map_has m k = true <-> k ∈ map fst m.
Proof.
  unfold CheckDuplicates.map_has. induction m as [|e m IH]; cbn.
  - split; [discriminate | intros H; now apply elem_of_nil in H].
  - rewrite elem_of_cons, <- IH, orb_true_iff.
    destruct (String.eqb_spec (fst e) k); split; intros [H|H]; auto; congruence.
Qed.

Lemma cd_map_get m k :
  CheckDuplicates.map_has m k = true -> is_Some (CheckDuplicates.map_get m k).
Proof.
  unfold CheckDuplicates.map_has, CheckDuplicates.map_get.
  induction m as [|e m IH]; cbn; [discriminate|].
  destruct (String.eqb (fst e) k); cbn; [eauto | exact IH].
Qed.

(** The duplicate checker and the reader of the upload script keep the same
    keys, in the same order. *)
Lemma check_invariants rows :
  map fst (CheckDuplicates.airports (CheckDuplicates.check rows))
  = map Airport.airport_key
      (AirportUploader.airports (AirportUploader.read_airports rows))
  /\ List.length (CheckDuplicates.airports (CheckDuplicates.check rows))
     + List.length (CheckDuplicates.duplicates (CheckDuplicates.check rows))
     = List.length (List.filter valid_airport_key rows)
  /\ Forall (fun d => is_Some (CheckDuplicates.first d)
                      /\ CheckDuplicates.key d
                         ∈ map fst (CheckDuplicates.airports (CheckDuplicates.check rows)))
            (CheckDuplicates.duplicates (CheckDuplicates.check rows)).
Proof.
  induction rows as [|r rows (M & L & F)] using rev_ind.
  - cbn. repeat split; constructor.
  - rewrite check_snoc, read_airports_snoc, List.filter_app, List.length_app.
    destruct (read_invariants rows) as (_ & _ & S & _). cbn zeta in S.
    cbn [List.filter].
    destruct (reader_on_data_cases (AirportUploader.read_airports rows) r)
      as [[-> V]|(k & a & K & V & Fresh & Ka & _ & _ & ->)].
    + unfold CheckDuplicates.on_data. unfold valid_airport_key in *.
      destruct (JS.toUpperCase <$> (JS.trim <$> (r !! "AirportKey"))) as [k|] eqn:K;
        [|cbn; repeat split; try assumption; lia].
      destruct (String.eqb k "") eqn:E; cbn [orb negb andb] in *;
        [cbn; repeat split; try assumption; lia|].
      destruct (Nat.eqb (String.length k) 3) eqn:E3; cbn [negb] in *;
        [|cbn; repeat split; try assumption; lia].
      destruct (V eq_refl) as (k' & [= <-] & Seen).
      assert (H : CheckDuplicates.map_has
                    (CheckDuplicates.airports (CheckDuplicates.check rows)) k = true).
      { apply cd_map_has. rewrite M. now apply S. }
      rewrite H. cbn [CheckDuplicates.airports CheckDuplicates.duplicates].
      rewrite List.length_app. cbn [List.length].
      split; [exact M|]. split; [lia|].
      apply Forall_app. split; [exact F|]. constructor; [|constructor].
      cbn [CheckDuplicates.first CheckDuplicates.key].
      split; [now apply cd_map_get | now apply cd_map_has].
    + rewrite V. unfold CheckDuplicates.on_data. rewrite K.
      unfold valid_airport_key in V. rewrite K in V.
      apply andb_true_iff in V as [V1 V2].
      apply negb_true_iff in V1. rewrite V1, V2. cbn [orb negb].
      assert (H : CheckDuplicates.map_has
                    (CheckDuplicates.airports (CheckDuplicates.check rows)) k = false).
      { destruct (CheckDuplicates.map_has _ k) eqn:H; [|reflexivity].
        apply cd_map_has in H. rewrite M in H. apply S in H. contradiction. }
      rewrite H.
      cbn [CheckDuplicates.airports CheckDuplicates.duplicates AirportUploader.airports].
      rewrite !map_app, List.length_app. cbn [map List.length fst]. rewrite Ka, M.
      split; [reflexivity|]. split; [lia|].
      eapply Forall_impl; [exact F|]. intros d [H1 H2]. split; [exact H1|].
      rewrite <- M. apply elem_of_app. now left.
Qed.

(** The upload loop: one call for each airport, each counted once. *)
Lemma airport_upload_each_counts airports : forall st w,
  exists st',
    AirportLoad.upload_each st airports w
    = (World.Val st',
       {| World.oracle := World.oracle w;
          World.trace := World.trace w
            ++ zip (map airport_call airports)
                   (Spec.replies w (List.length (World.trace w)) (List.length airports)) |})
    /\ AirportLoad.successCount st'
       = AirportLoad.successCount st
         + Spec.count Spec.is_ok
             (Spec.replies w (List.length (World.trace w)) (List.length airports))
    /\ AirportLoad.successCount st' + AirportLoad.errorCount st'
       = AirportLoad.successCount st + AirportLoad.errorCount st + List.length airports.
Proof.
  unfold Spec.replies, Spec.count.
  induction airports as [|a airports IH]; intros st w;
    cbn [AirportLoad.upload_each List.length seq map zip zip_with].
  - exists st. unfold World.ret. rewrite app_nil_r. cbn.
    split; [now destruct w|]. split; lia.
  - unfold World.bind at 1.
    assert (E : exists st1,
               AirportLoad.upload_one st a w
               = (World.Val st1, World.after_call w (airport_call a))
               /\ AirportLoad.successCount st1
                  = AirportLoad.successCount st
                    + (if Spec.is_ok (World.oracle w (List.length (World.trace w)))
                       then 1 else 0)
               /\ AirportLoad.successCount st1 + AirportLoad.errorCount st1
                  = S (AirportLoad.successCount st + AirportLoad.errorCount st)).
    { unfold AirportLoad.upload_one, World.try_catch, World.bind,
        AirportLoad.upsert_airport, World.store, World.ret, World.after_call, airport_call.
      destruct (World.oracle w (List.length (World.trace w)));
        eexists; (split; [reflexivity|]); cbn; split; lia. }
    destruct E as (st1 & -> & S1 & C1).
    destruct (IH st1 (World.after_call w (airport_call a))) as (st2 & -> & S2 & C2).
    rewrite LoadProps.length_after_call in *.
    cbn [World.oracle World.trace World.after_call] in *.
    exists st2. rewrite <- app_assoc. split; [reflexivity|].
    cbn [List.filter].
    destruct (Spec.is_ok (World.oracle w (List.length (World.trace w))));
      cbn [List.length]; split; lia.
Qed.

(** From ASCII rows the reader makes ASCII keys. *)
Lemma read_keys_ascii rows :
  Forall (fun r => ascii_row r = true) rows ->
  Forall (fun a => ascii_text (Airport.airport_key a) = true)
         (AirportUploader.airports (AirportUploader.read_airports rows)).
Proof.
  induction rows as [|r rows IH] using rev_ind; [constructor|].
  intros R. apply Forall_app in R as [R1 R2]. rewrite Forall_singleton in R2.
  rewrite read_airports_snoc.
  destruct (reader_on_data_cases (AirportUploader.read_airports rows) r)
    as [[-> _]|(k & a & K & _ & _ & Ka & _ & _ & ->)]; [now apply IH|].
  cbn [AirportUploader.airports]. apply Forall_app. split; [now apply IH|].
  constructor; [|constructor]. rewrite Ka.
  pose proof (AsciiProps.ascii_cell_upper _
                (AsciiProps.ascii_cell_trim _
                   (AsciiProps.ascii_lookup r "AirportKey" R2))) as A.
  now rewrite K in A.
Qed.

End AirportProps.

(** X15. From a file whose cells are ASCII text, the airports that the
    upload script reads have keys that are ASCII text of exactly three
    characters, in upper case, and no two of them have the same key; the set of seen keys holds
    exactly the keys of the airports read; and there are never more airports
    than rows. *)
Theorem X15_airports_read_are_keyed (rows : list Row) :
  Forall (fun r => Vocab.ascii_row r = true) rows ->
  let st := AirportUploader.read_airports rows in
  Forall (fun a => Vocab.ascii_text (Airport.airport_key a) = true
                   /\ String.length (Airport.airport_key a) = 3
                   /\ JS.toUpperCase (Airport.airport_key a) = Airport.airport_key a)
         (AirportUploader.airports st)
  /\ NoDup (map Airport.airport_key (AirportUploader.airports st))
  /\ (forall k, k ∈ AirportUploader.airportSet st
                <-> k ∈ map Airport.airport_key (AirportUploader.airports st))
  /\ List.length (AirportUploader.airports st) <= List.length rows.
Proof.
  intros R. cbn zeta.
  destruct (AirportProps.read_invariants rows) as (F & N & S & L). cbn zeta in *.
  pose proof (AirportProps.read_keys_ascii rows R) as A.
  split; [|split; [exact N | split; [exact S | exact L]]].
  rewrite Forall_forall in F, A |- *. intros a I.
  destruct (F a I) as [F1 F2]. split; [exact (A a I) | split; assumption].
Qed.

Lemma X15_airports_read_witness :
  map Airport.airport_key
    (AirportUploader.airports
       (AirportUploader.read_airports
          [Scenarios.airport_row " jfk" "Kennedy"; Scenarios.airport_row "JFK " "Idlewild";
           Scenarios.airport_row "Orly" "Orly"; Scenarios.airport_row "lax" "Los Angeles"]))
  = ["JFK"; "LAX"]
  /\ NoDup
       (map Airport.airport_key
          (AirportUploader.airports
             (AirportUploader.read_airports
                [Scenarios.airport_row " jfk" "Kennedy";
                 Scenarios.airport_row "JFK " "Idlewild";
                 Scenarios.airport_row "Orly" "Orly";
                 Scenarios.airport_row "lax" "Los Angeles"]))).
Proof.
  split; [vm_compute; reflexivity|].
  apply (X15_airports_read_are_keyed
           [Scenarios.airport_row " jfk" "Kennedy"; Scenarios.airport_row "JFK " "Idlewild";
            Scenarios.airport_row "Orly" "Orly"; Scenarios.airport_row "lax" "Los Angeles"]).
  repeat constructor.
Defined.

(** X16. The duplicate checker agrees with the reader of the upload script:
    the keys it reports as unique are the keys of the airports that the
    script uploads, in the same order. It files every row with a valid key
    as unique or as duplicate, and each duplicate it reports has a first
    occurrence to show. *)
Theorem X16_duplicate_check_agrees_with_reader (rows : list Row) :
  let st := CheckDuplicates.check rows in
  map fst (CheckDuplicates.airports st)
  = map Airport.airport_key
      (AirportUploader.airports (AirportUploader.read_airports rows))
  /\ List.length (CheckDuplicates.airports st)
     + List.length (CheckDuplicates.duplicates st)
     = List.length (List.filter Vocab.valid_airport_key rows)
  /\ Forall (fun d => is_Some (CheckDuplicates.first d)
                      /\ CheckDuplicates.key d ∈ map fst (CheckDuplicates.airports st))
            (CheckDuplicates.duplicates st).
Proof. apply AirportProps.check_invariants. Qed.

(** X17. [uploadAirports] never throws. It upserts the airports it read one
    by one, in order, one call each, whatever the store answers; the two
    counters add up to the number of airports and [successCount] is the
    number of calls the store accepted. A file without a valid airport makes
    no call. *)
Theorem X17_airport_upload_counts_every_airport (rows : list Row) (w : World.t) :
  let airports := AirportUploader.airports (AirportUploader.read_airports rows) in
  let rs := Spec.replies w (List.length (World.trace w)) (List.length airports) in
  exists counts w',
    AirportLoad.uploadAirports rows w = (World.Val (airports, counts), w')
    /\ World.trace w' = World.trace w ++ zip (map Vocab.airport_call airports) rs
    /\ match counts with
       | Some c =>
           AirportLoad.successCount c + AirportLoad.errorCount c = List.length airports
           /\ AirportLoad.successCount c = Spec.count Spec.is_ok rs
           /\ airports <> []
       | None => airports = []
       end.
Proof.
  cbn zeta. unfold AirportLoad.uploadAirports.
  destruct (AirportUploader.airports (AirportUploader.read_airports rows))
    as [|a l] eqn:E.
  - cbn. exists None, w. unfold World.ret. rewrite app_nil_r. repeat split.
  - cbn [List.length Nat.eqb]. unfold World.bind.
    destruct (AirportProps.airport_upload_each_counts (a :: l)
                {| AirportLoad.successCount := 0; AirportLoad.errorCount := 0 |} w)
      as (st & -> & S & C).
    unfold World.ret. do 2 eexists. split; [reflexivity|].
    cbn [World.trace]. split; [reflexivity|].
    cbn [AirportLoad.successCount AirportLoad.errorCount] in S, C.
    repeat split; [exact C | exact S | discriminate].
Qed.

(** ** Country names *)

Module CountryProps.
Import JS AirportUploader.

Lemma drop_while_idem p l : drop_while p (drop_while p l) = drop_while p l.
Proof.
  induction l as [|c l IH]; cbn; [reflexivity|].
  destruct (p c) eqn:E; [exact IH|]. cbn. now rewrite E.
Qed.

Lemma drop_while_head p l x l' : drop_while p l = x :: l' -> p x = false.
Proof.
  induction l as [|c l IH]; cbn; [discriminate|].
  destruct (p c) eqn:E; [exact IH|]. now intros [= <- _].
Qed.

Lemma drop_while_snoc p l x :
  p x = false -> drop_while p (l ++ [x]) = drop_while p l ++ [x].
Proof.
  intros H. induction l as [|c l IH]; cbn; [now rewrite H|].
  destruct (p c); [exact IH | reflexivity].
Qed.

Lemma trim_chars_idem l : trim_chars (trim_chars l) = trim_chars l.
Proof.
  unfold trim_chars.
  destruct (drop_while is_space l) as [|x a] eqn:A; [reflexivity|].
  pose proof (drop_while_head _ _ _ _ A) as Hx.
  cbn [rev]. rewrite (drop_while_snoc _ _ _ Hx), rev_app_distr.
  cbn [rev app drop_while]. rewrite Hx. cbn [rev].
  rewrite rev_involutive, (drop_while_snoc _ _ _ Hx), drop_while_idem, rev_app_distr.
  reflexivity.
Qed.

(** The key under which a country is looked up is a fixed point of the
    normalisation that produces it. *)
Lemma country_upper_fixed s :
  trim (toUpperCase (trim (toUpperCase s))) = trim (toUpperCase s).
Proof.
  unfold trim, toUpperCase. rewrite !JSFacts.chars_str.
  rewrite !(CaseFacts.trim_chars_map upper_char) by apply CaseFacts.upper_space.
  rewrite trim_chars_idem, map_map. f_equal. apply map_ext. apply CaseFacts.upper_upper.
Qed.

Lemma upper_of_capitalized c rest :
  toUpperCase (str (c :: map lower_char rest)) = toUpperCase (str (c :: rest)).
Proof.
  unfold toUpperCase. rewrite !JSFacts.chars_str. cbn [map]. rewrite map_map.
  do 2 f_equal. apply map_ext. apply CaseFacts.upper_lower.
Qed.

Lemma country_cases x :
  x <> "" ->
  standardizeCountry (Some x)
  = match find (fun e => String.eqb (fst e) (trim (toUpperCase x))) countryMap with
    | Some (_, name) => name
    | None =>
        match chars (trim (toUpperCase x)) with
        | [] => ""
        | c :: rest => str (c :: map lower_char rest)
        end
    end.
Proof.
  intros H. unfold standardizeCountry. cbn [truthy default from_option id].
  destruct (String.eqb_spec x ""); [contradiction | reflexivity].
Qed.

Lemma known_country_stable k name :
  In (k, name) countryMap -> standardizeCountry (Some name) = name.
Proof.
  unfold countryMap. cbn [In].
  intros H.
  repeat (destruct H as [H|H]; [injection H as <- <-; vm_compute; reflexivity|]).
  contradiction.
Qed.

Lemma country_stable c :
  standardizeCountry c <> "" ->
  standardizeCountry (Some (standardizeCountry c)) = standardizeCountry c.
Proof.
  destruct c as [x|]; [|intros _; vm_compute; reflexivity].
  destruct (String.eqb_spec x "") as [->|N]; [intros _; vm_compute; reflexivity|].
  rewrite (country_cases x N).
  destruct (find _ countryMap) as [[k name]|] eqn:F.
  - intros _. apply find_some in F as [I _]. exact (known_country_stable _ _ I).
  - destruct (chars (trim (toUpperCase x))) as [|c rest] eqn:C; [contradiction|].
    intros _.
    assert (U : str (c :: rest) = trim (toUpperCase x))
      by (rewrite <- C; apply JSFacts.str_chars).
    rewrite country_cases by discriminate.
    rewrite upper_of_capitalized, U, country_upper_fixed, F, C. reflexivity.
Qed.

Lemma country_ignores_case s :
  standardizeCountry (Some (toUpperCase s)) = standardizeCountry (Some s)
  /\ standardizeCountry (Some (toLowerCase s)) = standardizeCountry (Some s).
Proof.
  unfold standardizeCountry. cbn [truthy default from_option id].
  rewrite CaseFacts.toUpperCase_empty, CaseFacts.toLowerCase_empty,
    AirportProps.toUpperCase_idempotent, AirportProps.toUpperCase_of_lower.
  split; reflexivity.
Qed.

Lemma known_country_ascii k name :
  In (k, name) countryMap -> Vocab.ascii_text name = true.
Proof.
  unfold countryMap. cbn [In]. intros H.
  repeat (destruct H as [H|H]; [injection H as <- <-; vm_compute; reflexivity|]).
  contradiction.
Qed.

(** The answer for an ASCII country is ASCII text. *)
Lemma country_ascii c :
  Vocab.ascii_cell c = true -> Vocab.ascii_text (standardizeCountry c) = true.
Proof.
  destruct c as [x|]; [|reflexivity]. cbn [Vocab.ascii_cell]. intros A.
  destruct (String.eqb_spec x "") as [->|N]; [reflexivity|].
  rewrite (country_cases x N).
  destruct (find _ countryMap) as [[k name]|] eqn:F.
  - apply find_some in F as [I _]. exact (known_country_ascii _ _ I).
  - pose proof (AsciiProps.ascii_trim _ (AsciiProps.ascii_toUpperCase _ A)) as U.
    unfold Vocab.ascii_text in U.
    destruct (chars (trim (toUpperCase x))) as [|c0 rest]; [reflexivity|].
    rewrite AsciiProps.ascii_str. unfold Vocab.ascii_chars in *.
    cbn [forallb] in U |- *. apply andb_true_iff in U as [-> U]. cbn [andb].
    exact (AsciiProps.ascii_map lower_char rest AsciiProps.ascii_lower_char U).
Qed.

End CountryProps.

(** X18. On ASCII text, [standardizeCountry] of the airport script answers
    with ASCII text, does not depend on the case of the country, and its
    answer is stable: given its
    own answer it returns it unchanged, provided the answer is not the empty
    text (which a country cell of white space only produces). *)
Theorem X18_country_is_stable (c : option string) (s : string) :
  Vocab.ascii_cell c = true ->
  Vocab.ascii_text s = true ->
  Vocab.ascii_text (AirportUploader.standardizeCountry c) = true
  /\ AirportUploader.standardizeCountry (Some (JS.toUpperCase s))
     = AirportUploader.standardizeCountry (Some s)
  /\ AirportUploader.standardizeCountry (Some (JS.toLowerCase s))
     = AirportUploader.standardizeCountry (Some s)
  /\ (AirportUploader.standardizeCountry c <> "" ->
      AirportUploader.standardizeCountry (Some (AirportUploader.standardizeCountry c))
      = AirportUploader.standardizeCountry c).
Proof.
  intros Ac _.
  destruct (CountryProps.country_ignores_case s) as [U L].
  split; [now apply CountryProps.country_ascii|].
  split; [exact U|]. split; [exact L|]. apply CountryProps.country_stable.
Qed.

Lemma X18_country_witness :
  AirportUploader.standardizeCountry (Some "new zealand") = "New zealand"
  /\ AirportUploader.standardizeCountry (Some "New zealand") = "New zealand".
Proof.
  assert (E : AirportUploader.standardizeCountry (Some "new zealand") = "New zealand")
    by (vm_compute; reflexivity).
  split; [exact E|].
  destruct (X18_country_is_stable (Some "new zealand") "nz" eq_refl eq_refl)
    as (_ & _ & _ & H).
  rewrite E in H. apply H. discriminate.
Defined.

(** ** The airline file *)

Module AirlineProps.
Import JS.

Lemma read_airlines_snoc rows r :
  AirlineUploader.read_airlines (rows ++ [r])
  = AirlineUploader.on_data (AirlineUploader.read_airlines rows) r.
Proof. unfold AirlineUploader.read_airlines. now rewrite fold_left_app. Qed.

(** The reader of the airline script keeps the rows that
    [processAirlineData] keeps, and builds the same records. *)
Lemma read_airlines_eq rows :
  AirlineUploader.read_airlines rows
  = List.filter (fun a => truthy (Airline.airline_key a))
      (map SmartFileProcessor.airline_of_row rows).
Proof.
  induction rows as [|r rows IH] using rev_ind; [reflexivity|].
  rewrite read_airlines_snoc, map_app, List.filter_app, <- IH. cbn [map List.filter].
  unfold AirlineUploader.on_data, SmartFileProcessor.airline_of_row.
  cbn [Airline.airline_key].
  destruct (toUpperCase <$> (trim <$> r !! "AirlineKey")) as [k|]; cbn [truthy];
    [|now rewrite app_nil_r].
  destruct (String.eqb k ""); cbn [negb]; [now rewrite app_nil_r | reflexivity].
Qed.

Lemma airlines_are_keyed rows :
  Forall (fun a => exists k, Airline.airline_key a = Some k /\ k <> ""
                             /\ toUpperCase k = k)
         (AirlineUploader.read_airlines rows).
Proof.
  induction rows as [|r rows IH] using rev_ind; [constructor|].
  rewrite read_airlines_snoc. unfold AirlineUploader.on_data.
  destruct (r !! "AirlineKey") as [x|]; cbn [fmap option_fmap option_map]; [|exact IH].
  destruct (String.eqb_spec (toUpperCase (trim x)) ""); [exact IH|].
  apply Forall_app. split; [exact IH|]. constructor; [|constructor].
  eexists. split; [reflexivity|]. split; [assumption|].
  apply AirportProps.toUpperCase_idempotent.
Qed.

(** From ASCII rows the reader makes ASCII keys. *)
Lemma airlines_keys_ascii rows :
  Forall (fun r => Vocab.ascii_row r = true) rows ->
  Forall (fun a => Vocab.ascii_cell (Airline.airline_key a) = true)
         (AirlineUploader.read_airlines rows).
Proof.
  induction rows as [|r rows IH] using rev_ind; [constructor|].
  intros R. apply Forall_app in R as [R1 R2]. rewrite Forall_singleton in R2.
  rewrite read_airlines_snoc. unfold AirlineUploader.on_data.
  pose proof (AsciiProps.ascii_cell_upper _
                (AsciiProps.ascii_cell_trim _
                   (AsciiProps.ascii_lookup r "AirlineKey" R2))) as A.
  destruct (toUpperCase <$> (trim <$> r !! "AirlineKey")) as [k|]; [|now apply IH].
  destruct (String.eqb k ""); [now apply IH|].
  apply Forall_app. split; [now apply IH|]. constructor; [exact A | constructor].
Qed.

End AirlineProps.

(** X19. The airline script and [processAirlineData] agree: the airlines that
    the script reads from a file are the clean records that the processor
    returns for it; when the cells of the file are ASCII text, each has a
    key that is not empty, ASCII text and in upper case. The
    script makes exactly one store call, the upsert of all of them on the
    conflict column that [getConflictColumn] names, also when there is none;
    an error answer is only logged, and only a call that throws makes the
    script fail. *)
Theorem X19_airline_script_agrees_with_processor (rows : list Row) (w : World.t) :
  map PAirline (AirlineUploader.read_airlines rows)
  = SmartFileProcessor.cleanData (SmartFileProcessor.processAirlineData rows)
  /\ (Forall (fun r => Vocab.ascii_row r = true) rows ->
      Forall (fun a => exists k, Airline.airline_key a = Some k /\ k <> ""
                                 /\ Vocab.ascii_text k = true
                                 /\ JS.toUpperCase k = k)
             (AirlineUploader.read_airlines rows))
  /\ AirlineUploader.uploadAirlines rows w
     = (match World.oracle w (List.length (World.trace w)) with
        | World.RThrow msg => World.Exn msg
        | _ => World.Val (AirlineUploader.read_airlines rows)
        end,
        World.after_call w
          (World.Upsert "dim_airline"
             (SmartFileProcessor.cleanData (SmartFileProcessor.processAirlineData rows))
             (SmartFileProcessor.getConflictColumn "dim_airline"))).
Proof.
  assert (E : map PAirline (AirlineUploader.read_airlines rows)
              = SmartFileProcessor.cleanData (SmartFileProcessor.processAirlineData rows)).
  { unfold SmartFileProcessor.processAirlineData. cbn [SmartFileProcessor.cleanData].
    now rewrite AirlineProps.read_airlines_eq. }
  split; [exact E|]. split.
  { intros R.
    pose proof (AirlineProps.airlines_are_keyed rows) as K.
    pose proof (AirlineProps.airlines_keys_ascii rows R) as A.
    rewrite Forall_forall in K, A |- *. intros a I.
    destruct (K a I) as (k & K1 & K2 & K3). exists k.
    specialize (A a I). rewrite K1 in A. repeat split; assumption. }
  unfold AirlineUploader.uploadAirlines, World.bind, World.store, World.ret,
    World.after_call.
  rewrite E. change (SmartFileProcessor.getConflictColumn "dim_airline") with "airline_key".
  destruct (World.oracle w (List.length (World.trace w))); reflexivity.
Qed.

Lemma X19_airline_witness :
  Forall (fun a => exists k, Airline.airline_key a = Some k /\ k <> ""
                             /\ Vocab.ascii_text k = true
                             /\ JS.toUpperCase k = k)
         (AirlineUploader.read_airlines
            [Scenarios.airline_row " aa" "American"; Scenarios.airline_row " " "Ghost Air"]).
Proof.
  destruct (X19_airline_script_agrees_with_processor
              [Scenarios.airline_row " aa" "American"; Scenarios.airline_row " " "Ghost Air"]
              Scenarios.always_ok) as (_ & K & _).
  apply K. repeat constructor.
Defined.

(** ** The flight script *)

Module FlightProps.
Import FlightUploader Vocab.

Lemma length_after_query db q :
  List.length (log (after_query db q)) = S (List.length (log db)).
Proof. unfold after_query. cbn. rewrite List.length_app. cbn. lia. Qed.

Lemma routed_mono c1 c2 f : c1 ⊆ c2 -> routed c1 f -> routed c2 f.
Proof. unfold routed. intros H (O & D & R). repeat split; try apply R; set_solver. Qed.

Lemma falsy_default v : falsy v = false -> default "" v <> "".
Proof.
  unfold falsy. intros H. apply negb_false_iff in H.
  now apply CleanSaleProps.truthy_default.
Qed.

(** The resolver: what it returns, and what it leaves in the cache. *)
Lemma getOrCreateAirport_outcome cache code db :
  match getOrCreateAirport cache code db with
  | (World.Val (ok, cache'), db') =>
      answers db' = answers db
      /\ cache ⊆ cache'
      /\ cache' ⊆ cache ∪ {[ code ]}
      /\ (ok = true <-> code ∈ cache')
      /\ List.length (log db) <= List.length (log db') <= List.length (log db) + 2
      /\ (code ∈ cache -> db' = db)
  | (World.Exn msg, _) => exists n, answers db n = Thrown msg
  end.
Proof.
  unfold getOrCreateAirport.
  destruct (decide (code ∈ cache)) as [Hit|Miss].
  - cbn. repeat split; try set_solver; lia.
  - unfold bind, ask, ret.
    destruct (answers db (List.length (log db))) as [keys|m|m] eqn:A1.
    + rewrite length_after_query. cbn [answers after_query].
      repeat split; try set_solver; try lia.
    + rewrite length_after_query. cbn [answers after_query].
      destruct (answers db (S (List.length (log db)))) as [keys|m2|m2] eqn:A2.
      * rewrite !length_after_query. cbn [answers after_query].
        repeat split; try set_solver; try lia.
      * rewrite !length_after_query. cbn [answers after_query].
        repeat split; try set_solver; try lia; try discriminate.
      * eauto.
    + eauto.
Qed.

Lemma scan_row_outcome st r db :
  match scan_row st r db with
  | (World.Val st', db') =>
      answers db' = answers db
      /\ List.length (flights st') + skipped st'
         = S (List.length (flights st) + skipped st)
      /\ airportCache st ⊆ airportCache st'
      /\ (Forall (routed (airportCache st)) (flights st) ->
          Forall (routed (airportCache st')) (flights st'))
  | (World.Exn msg, _) => exists n, answers db n = Thrown msg
  end.
Proof.
  unfold scan_row.
  destruct (falsy _ || falsy _ || falsy _) eqn:G.
  - cbn. repeat split; try set_solver; try lia; auto.
  - apply orb_false_iff in G as [G Gk]. apply orb_false_iff in G as [Go Gd].
    set (origin := default "" (JS.toUpperCase <$> (JS.trim <$> r !! "OriginAirportKey"))).
    set (destination :=
           default "" (JS.toUpperCase <$> (JS.trim <$> r !! "DestinationAirportKey"))).
    unfold bind at 1.
    pose proof (getOrCreateAirport_outcome (airportCache st) origin db) as H1.
    destruct (getOrCreateAirport (airportCache st) origin db)
      as [[[ok1 c1]|m] db1]; [|exact H1].
    destruct H1 as (A1 & S1 & _ & K1 & _ & _).
    unfold bind at 1.
    pose proof (getOrCreateAirport_outcome c1 destination db1) as H2.
    destruct (getOrCreateAirport c1 destination db1)
      as [[[ok2 c2]|m] db2]; [|now rewrite A1 in H2].
    destruct H2 as (A2 & S2 & _ & K2 & _ & _).
    assert (Sub : airportCache st ⊆ c2) by set_solver.
    destruct (negb ok1 || negb ok2) eqn:Ok.
    + cbn. split; [congruence|]. split; [lia|]. split; [exact Sub|].
      intros F. eapply Forall_impl; [exact F|]. intros f. now apply routed_mono.
    + apply orb_false_iff in Ok as [Ok1 Ok2].
      apply negb_false_iff in Ok1, Ok2. subst ok1 ok2.
      unfold bind, ask, ret.
      destruct (answers db2 (List.length (log db2))) as [k1|m1|m1] eqn:Q1;
        [| |exists (List.length (log db2)); congruence];
        rewrite length_after_query; cbn [answers after_query];
        (destruct (answers db2 (S (List.length (log db2)))) as [k2|m2|m2] eqn:Q2;
         [| |exists (S (List.length (log db2))); congruence]);
        cbn [flights skipped airportCache skip answers after_query];
        (split; [congruence|]).
      * rewrite List.length_app. cbn [List.length]. split; [lia|].
        split; [exact Sub|]. intros F. apply Forall_app. split.
        { eapply Forall_impl; [exact F|]. intros f. now apply routed_mono. }
        constructor; [|constructor]. unfold routed. cbn.
        split; [apply S2; now apply K1|]. split; [now apply K2|].
        split; [now apply falsy_default|].
        eexists. split; [reflexivity|].
        destruct (JS.trim <$> r !! "AircraftType") as [t|]; [|discriminate].
        destruct (String.eqb_spec t ""); [discriminate | assumption].
      * split; [lia|]. split; [exact Sub|].
        intros F. eapply Forall_impl; [exact F|]. intros f. now apply routed_mono.
      * split; [lia|]. split; [exact Sub|].
        intros F. eapply Forall_impl; [exact F|]. intros f. now apply routed_mono.
      * split; [lia|]. split; [exact Sub|].
        intros F. eapply Forall_impl; [exact F|]. intros f. now apply routed_mono.
Qed.

Lemma scan_rows_outcome rows : forall st db,
  match scan_rows st rows db with
  | (World.Val st', db') =>
      answers db' = answers db
      /\ List.length (flights st') + skipped st'
         = List.length (flights st) + skipped st + List.length rows
      /\ airportCache st ⊆ airportCache st'
      /\ (Forall (routed (airportCache st)) (flights st) ->
          Forall (routed (airportCache st')) (flights st'))
  | (World.Exn msg, _) => exists n, answers db n = Thrown msg
  end.
Proof.
  induction rows as [|r rows IH]; intros st db; cbn [scan_rows List.length].
  - cbn. repeat split; try set_solver; try lia; auto.
  - unfold bind.
    pose proof (scan_row_outcome st r db) as H1.
    destruct (scan_row st r db) as [[st1|m] db1]; [|exact H1].
    destruct H1 as (A1 & L1 & S1 & F1).
    specialize (IH st1 db1).
    destruct (scan_rows st1 rows db1) as [[st2|m] db2]; [|now rewrite A1 in IH].
    destruct IH as (A2 & L2 & S2 & F2).
    split; [congruence|]. split; [lia|]. split; [set_solver | auto].
Qed.

Lemma upload_each_outcome batch : forall n db,
  match upload_each n batch db with
  | (World.Val n', db') =>
      answers db' = answers db
      /\ n <= n' <= n + List.length batch
      /\ List.length (log db') = List.length (log db) + List.length batch
  | (World.Exn msg, _) => exists k, answers db k = Thrown msg
  end.
Proof.
  induction batch as [|f batch IH]; intros n db; cbn [upload_each List.length].
  - cbn. repeat split; lia.
  - unfold bind, ask.
    destruct (answers db (List.length (log db))) as [keys|m|m] eqn:A; [| |eauto].
    + specialize (IH (S n) (after_query db (UpsertFlights [f]))).
      destruct (upload_each (S n) batch _) as [[n'|m] db']; [|exact IH].
      rewrite length_after_query in IH. cbn [answers after_query] in IH.
      destruct IH as (A' & B & L). repeat split; try assumption; lia.
    + specialize (IH n (after_query db (UpsertFlights [f]))).
      destruct (upload_each n batch _) as [[n'|m'] db']; [|exact IH].
      rewrite length_after_query in IH. cbn [answers after_query] in IH.
      destruct IH as (A' & B & L). repeat split; try assumption; lia.
Qed.

Lemma upload_batches_outcome bs : forall n db,
  match upload_batches n bs db with
  | (World.Val n', db') =>
      answers db' = answers db
      /\ n <= n' <= n + List.length (concat bs)
      /\ List.length (log db) + List.length bs <= List.length (log db')
         <= List.length (log db) + List.length bs + List.length (concat bs)
  | (World.Exn msg, _) => exists k, answers db k = Thrown msg
  end.
Proof.
  induction bs as [|b bs IH]; intros n db; cbn [upload_batches concat List.length].
  - cbn. repeat split; lia.
  - unfold bind at 1, upload_batch, bind, ask.
    rewrite List.length_app.
    destruct (answers db (List.length (log db))) as [keys|m|m] eqn:A; [| |eauto].
    + unfold ret. specialize (IH (n + List.length b) (after_query db (UpsertFlights b))).
      destruct (upload_batches _ bs _) as [[n'|m] db']; [|exact IH].
      rewrite length_after_query in IH. cbn [answers after_query] in IH.
      destruct IH as (A' & B & L). repeat split; try assumption; lia.
    + pose proof (upload_each_outcome b n (after_query db (UpsertFlights b))) as H1.
      destruct (upload_each n b _) as [[n1|m1] db1]; [|exact H1].
      rewrite length_after_query in H1. cbn [answers after_query] in H1.
      destruct H1 as (A1 & B1 & L1).
      specialize (IH n1 db1).
      destruct (upload_batches n1 bs db1) as [[n'|m2] db']; [|now rewrite A1 in IH].
      destruct IH as (A' & B & L). split; [congruence|]. repeat split; lia.
Qed.

Lemma flight_batches_cover (l : list Flight.t) :
  concat (World.batches batchSize l) = l.
Proof. apply BatchProps.batches_concat. unfold batchSize. lia. Qed.

Lemma uploadFlights_outcome rows db :
  match uploadFlights rows db with
  | (World.Val s, db') =>
      List.length (flights (queued s)) + skipped (queued s) = List.length rows
      /\ Forall (routed (airportCache (queued s))) (flights (queued s))
      /\ match uploaded s with
         | Some n => n <= List.length (flights (queued s)) /\ flights (queued s) <> []
         | None => flights (queued s) = []
         end
  | (World.Exn msg, _) => exists n, answers db n = Thrown msg
  end.
Proof.
  unfold uploadFlights, bind at 1, ask.
  destruct (answers db (List.length (log db))) as [keys|m|m] eqn:A; [| |eauto].
  - unfold bind at 1.
    match goal with
    | |- context [scan_rows ?st0 rows ?db0] =>
        pose proof (scan_rows_outcome rows st0 db0) as H1;
        destruct (scan_rows st0 rows db0) as [[st|m] db1]; [|exact H1]
    end.
    cbn [answers after_query flights skipped airportCache List.length] in H1.
    destruct H1 as (A1 & L1 & _ & F1).
    destruct (flights st) as [|f l] eqn:Fl; cbn [List.length Nat.ltb Nat.leb];
      cbn [List.length] in L1.
    + unfold ret. cbn [queued uploaded]. rewrite Fl. cbn [List.length].
      repeat split; [lia | constructor].
    + unfold bind.
      match goal with
      | |- context [upload_batches 0 ?bs db1] =>
          pose proof (upload_batches_outcome bs 0 db1) as H2;
          destruct (upload_batches 0 bs db1) as [[n|m] db2];
            [|destruct H2 as [k H2]; exists k; congruence]
      end.
      rewrite flight_batches_cover in H2. destruct H2 as (_ & B & _).
      unfold ret. cbn [queued uploaded]. rewrite Fl. cbn [List.length] in *.
      split; [lia|]. split; [apply F1; constructor|].
      split; [lia | discriminate].
  - unfold bind at 1.
    match goal with
    | |- context [scan_rows ?st0 rows ?db0] =>
        pose proof (scan_rows_outcome rows st0 db0) as H1;
        destruct (scan_rows st0 rows db0) as [[st|m'] db1]; [|exact H1]
    end.
    cbn [answers after_query flights skipped airportCache List.length] in H1.
    destruct H1 as (A1 & L1 & _ & F1).
    destruct (flights st) as [|f l] eqn:Fl; cbn [List.length Nat.ltb Nat.leb];
      cbn [List.length] in L1.
    + unfold ret. cbn [queued uploaded]. rewrite Fl. cbn [List.length].
      repeat split; [lia | constructor].
    + unfold bind.
      match goal with
      | |- context [upload_batches 0 ?bs db1] =>
          pose proof (upload_batches_outcome bs 0 db1) as H2;
          destruct (upload_batches 0 bs db1) as [[n|m'] db2];
            [|destruct H2 as [k H2]; exists k; congruence]
      end.
      rewrite flight_batches_cover in H2. destruct H2 as (_ & B & _).
      unfold ret. cbn [queued uploaded]. rewrite Fl. cbn [List.length] in *.
      split; [lia|]. split; [apply F1; constructor|].
      split; [lia | discriminate].
Qed.

End FlightProps.

(** X20. [getOrCreateAirport] only ever adds the code it was asked about to
    the cache, answers [true] exactly when the code is in the cache
    afterwards, makes at most two queries, and makes none for a code that is
    already cached. Against a store whose calls do not throw it returns. *)
Theorem X20_airport_resolver (cache : gset string) (code : string)
    (db : FlightUploader.DB) :
  (forall ok cache' db',
      FlightUploader.getOrCreateAirport cache code db = (World.Val (ok, cache'), db') ->
      cache ⊆ cache'
      /\ cache' ⊆ cache ∪ {[ code ]}
      /\ (ok = true <-> code ∈ cache')
      /\ Vocab.queries_between db db' <= 2
      /\ (code ∈ cache -> db' = db))
  /\ (Vocab.calm db ->
      exists ok cache' db',
        FlightUploader.getOrCreateAirport cache code db = (World.Val (ok, cache'), db')).
Proof.
  pose proof (FlightProps.getOrCreateAirport_outcome cache code db) as H.
  destruct (FlightUploader.getOrCreateAirport cache code db) as [[[ok c]|m] db1].
  - split; [|eauto]. intros ok' c' db' [= <- <- <-].
    destruct H as (_ & S1 & S2 & K & L & Hit). unfold Vocab.queries_between.
    repeat split; try assumption; try apply K; lia.
  - split; [discriminate|]. intros C. destruct H as [n H]. now apply C in H.
Qed.

Lemma X20_resolver_witness :
  Vocab.calm (Vocab.answering_db (FlightUploader.NoData "no rows"))
  /\ exists ok cache' db',
       FlightUploader.getOrCreateAirport ∅ "JFK"
         (Vocab.answering_db (FlightUploader.NoData "no rows"))
       = (World.Val (ok, cache'), db')
       /\ (ok = true <-> "JFK" ∈ cache')
       /\ Vocab.queries_between
            (Vocab.answering_db (FlightUploader.NoData "no rows")) db' <= 2.
Proof.
  assert (C : Vocab.calm (Vocab.answering_db (FlightUploader.NoData "no rows")))
    by (intros n m; discriminate).
  split; [exact C|].
  destruct (X20_airport_resolver ∅ "JFK"
              (Vocab.answering_db (FlightUploader.NoData "no rows"))) as [P T].
  destruct (T C) as (ok & c & db' & E).
  exists ok, c, db'. split; [exact E|].
  destruct (P _ _ _ E) as (_ & _ & K & Q & _). split; [exact K | exact Q].
Defined.

(** X21. A run of [uploadFlights] that returns has filed every row: the
    queued flights and the skipped rows are together as many as the rows of
    the file. Each queued flight has a flight key that is not empty, an
    aircraft type that is not empty, and both its airports in the cache. The
    number of uploaded flights is at most the number queued, and the upload
    step runs exactly when a flight is queued. Against a store whose calls do
    not throw the run returns. *)
Theorem X21_flight_run_files_every_row (rows : list Row) (db : FlightUploader.DB) :
  (forall s db',
      FlightUploader.uploadFlights rows db = (World.Val s, db') ->
      let st := FlightUploader.queued s in
      List.length (FlightUploader.flights st) + FlightUploader.skipped st
      = List.length rows
      /\ Forall (Vocab.routed (FlightUploader.airportCache st)) (FlightUploader.flights st)
      /\ match FlightUploader.uploaded s with
         | Some n =>
             n <= List.length (FlightUploader.flights st)
             /\ FlightUploader.flights st <> []
         | None => FlightUploader.flights st = []
         end)
  /\ (Vocab.calm db ->
      exists s db', FlightUploader.uploadFlights rows db = (World.Val s, db')).
Proof.
  pose proof (FlightProps.uploadFlights_outcome rows db) as H.
  destruct (FlightUploader.uploadFlights rows db) as [[s|m] db1].
  - split; [|eauto]. intros s' db' [= <- <-]. exact H.
  - split; [discriminate|]. intros C. destruct H as [n H]. now apply C in H.
Qed.

Lemma X21_flight_run_witness :
  Vocab.calm (Vocab.answering_db (FlightUploader.Data ["JFK"]))
  /\ exists s db',
       FlightUploader.uploadFlights
         [Scenarios.flight_row "FL100" "jfk" "lax"; Scenarios.flight_row " " "JFK" "LAX"]
         (Vocab.answering_db (FlightUploader.Data ["JFK"]))
       = (World.Val s, db')
       /\ List.length (FlightUploader.flights (FlightUploader.queued s))
          + FlightUploader.skipped (FlightUploader.queued s) = 2.
Proof.
  assert (C : Vocab.calm (Vocab.answering_db (FlightUploader.Data ["JFK"])))
    by (intros n m; discriminate).
  split; [exact C|].
  destruct (X21_flight_run_files_every_row
              [Scenarios.flight_row "FL100" "jfk" "lax"; Scenarios.flight_row " " "JFK" "LAX"]
              (Vocab.answering_db (FlightUploader.Data ["JFK"]))) as [P T].
  destruct (T C) as (s & db' & E).
  exists s, db'. split; [exact E|].
  destruct (P _ _ E) as (L & _). exact L.
Defined.

(** ** [processFile] *)

Module FileProps.
Import SmartFileProcessor Vocab.

Lemma detect_range headers :
  detectFileType headers ∈ file_types ++ ["unknown"].
Proof.
  unfold detectFileType, file_types.
  destruct (find _ fileSignatures) as [[ft sig]|] eqn:F.
  - apply find_some in F as [I _]. unfold fileSignatures in I. cbn [In] in I.
    repeat (destruct I as [I|I]; [injection I as <- _; set_solver|]).
    contradiction.
  - unfold fuzzy_match. repeat case_match; set_solver.
Qed.

Lemma collect_snoc {A} (wrap : A -> Payload) f data r :
  collect wrap f (data ++ [r])
  = match f r with
    | inl c => {| cleanData := cleanData (collect wrap f data) ++ [wrap c];
                  dirtyData := dirtyData (collect wrap f data) |}
    | inr d => {| cleanData := cleanData (collect wrap f data);
                  dirtyData := dirtyData (collect wrap f data) ++ [d] |}
    end.
Proof. unfold collect. now rewrite fold_left_app. Qed.

(** The loop of the processors files each row as clean or as rejected. *)
Lemma collect_partition {A} (wrap : A -> Payload) f data :
  List.length (cleanData (collect wrap f data))
  + List.length (dirtyData (collect wrap f data)) = List.length data.
Proof.
  induction data as [|r data IH] using rev_ind; [reflexivity|].
  rewrite collect_snoc, List.length_app. cbn [List.length].
  destruct (f r); cbn [cleanData dirtyData]; rewrite List.length_app; cbn; lia.
Qed.

Lemma airline_partition data :
  List.length (cleanData (processAirlineData data)) <= List.length data
  /\ dirtyData (processAirlineData data) = [].
Proof.
  unfold processAirlineData. cbn [cleanData dirtyData]. split; [|reflexivity].
  rewrite length_map.
  etransitivity; [apply List.filter_length_le|]. now rewrite length_map.
Qed.

(** The steps of [processFile] after the processor has returned. *)
Lemma finish_outcome (table conflict ft : string) (n : nat) (result : Processed)
    (w : World.t) (out : World.Outcome FileResult) (w' : World.t) :
  ((if (0 <? List.length (cleanData result))%nat
    then
      let* error := World.store (World.Upsert table (cleanData result) conflict) in
      match error with
      | Some e => World.throw (World.message e)
      | None => World.ret tt
      end
    else World.ret tt) ;;
   (if (0 <? List.length (dirtyData result))%nat
    then saveDirtyData (dirtyData result) ft
    else World.ret tt) ;;
   World.ret (Succeeded ft n (List.length (cleanData result))
                (List.length (dirtyData result)))) w = (out, w') ->
  match out with
  | World.Val r =>
      r = Succeeded ft n (List.length (cleanData result))
            (List.length (dirtyData result))
      /\ List.length (World.trace w')
         = List.length (World.trace w) + one_if_any (cleanData result)
           + one_if_any (dirtyData result)
      /\ (Spec.is_ok (World.oracle w (List.length (World.trace w))) = false ->
          List.length (cleanData result) = 0
          /\ List.length (World.trace w') <= List.length (World.trace w) + 1)
  | World.Exn _ =>
      List.length (World.trace w) < List.length (World.trace w')
         <= List.length (World.trace w) + 2
      /\ (Spec.is_ok (World.oracle w (List.length (World.trace w))) = false ->
          List.length (World.trace w') = List.length (World.trace w) + 1)
  end.
Proof.
  unfold one_if_any, saveDirtyData. rewrite length_map.
  unfold World.bind, World.store, World.ret, World.throw, World.after_call.
  destruct (Nat.ltb_spec 0 (List.length (cleanData result))) as [C|C];
    destruct (Nat.ltb_spec 0 (List.length (dirtyData result))) as [D|D];
    repeat match goal with
           | |- context [World.oracle ?w0 ?k] =>
               lazymatch goal with
               | |- context [match World.oracle w0 k with _ => _ end] =>
                   destruct (World.oracle w0 k) eqn:?
               end
           end;
    cbn [World.trace World.oracle];
    intros [= <- <-]; cbn [World.trace World.oracle];
    rewrite ?List.length_app; cbn [List.length]; cbn [Spec.is_ok];
    repeat split; intros; try lia; try discriminate; try reflexivity.
Qed.

Ltac eval_string_tests :=
  repeat match goal with
         | |- context [String.eqb ?a ?b] =>
             let v := eval vm_compute in (String.eqb a b) in
             change (String.eqb a b) with v
         end;
  lazy iota.

Ltac eval_signature :=
  match goal with
  | |- context [signature_of ?ft] =>
      let v := eval vm_compute in (signature_of ft) in
      change (signature_of ft) with v
  end;
  lazy iota.

(** After a processor that does not touch the store. *)
Ltac after_pure_processor :=
  match goal with
  | |- context [World.bind (World.ret ?x) ?k ?w] =>
      change (World.bind (World.ret x) k w) with (k x w); cbv beta
  end.

Ltac run_finish w T :=
  match goal with
  | |- context [World.bind ?a ?b w] =>
      let out := fresh "out" in
      let w1 := fresh "w1" in
      destruct (World.bind a b w) as [out w1] eqn:T;
      apply finish_outcome in T; destruct out as [r|msg]
  end.

Section Outcome.
Variable isoDateOf : option string -> option string.
Variable processAirportData : list Row -> World.M Processed.

(** What a run of [processFile] returns and what it leaves in the world. *)
Lemma processFile_outcome headers data w :
  exists r w',
    processFile isoDateOf processAirportData headers data w = (World.Val r, w')
    /\ match r with
       | Succeeded ft t c d =>
           ft = detectFileType headers /\ ft ∈ file_types /\ t = List.length data
           /\ (ft <> "airports" ->
               c + d <= t
               /\ (ft <> "airlines" -> c + d = t)
               /\ List.length (World.trace w')
                  = List.length (World.trace w)
                    + (if (0 <? c)%nat then 1 else 0) + (if (0 <? d)%nat then 1 else 0))
       | Failed _ =>
           detectFileType headers <> "airports" ->
           (detectFileType headers = "unknown" -> w' = w)
           /\ List.length (World.trace w) <= List.length (World.trace w')
              <= List.length (World.trace w) + 2
       end
    /\ (detectFileType headers <> "airports" ->
        Spec.is_ok (World.oracle w (List.length (World.trace w))) = false ->
        List.length (World.trace w') <= List.length (World.trace w) + 1
        /\ forall ft t c d, r = Succeeded ft t c d -> c = 0).
Proof.
  unfold processFile, World.try_catch.
  pose proof (detect_range headers) as R.
  remember (detectFileType headers) as ft eqn:E. clear E.
  unfold file_types in *. cbn [app] in R.
  repeat (apply elem_of_cons in R as [->|R]); [.. | now apply elem_of_nil in R].
  - (* passengers *)
    eval_string_tests. eval_signature. after_pure_processor. run_finish w T.
    + destruct T as (-> & L & K). do 2 eexists. split; [reflexivity|].
      unfold one_if_any in L.
      pose proof (collect_partition PPassenger processPassengerRow data) as P.
      fold (processPassengerData data) in P.
      split; [|intros _ O; destruct (K O) as [K1 K2]; split;
               [exact K2 | intros ? ? ? ? [= _ _ <- _]; exact K1]].
      split; [reflexivity|]. split; [set_solver|]. split; [reflexivity|].
      intros _. split; [lia|]. split; [intros _; exact P | exact L].
    + destruct T as (L & K). unfold World.ret. do 2 eexists. split; [reflexivity|].
      split; [intros _; split; [discriminate | lia]|].
      intros _ O. split; [rewrite (K O); lia | discriminate].
  - (* airports *)
    eval_string_tests. eval_signature. unfold World.bind at 1.
    destruct (processAirportData data w) as [[result|msg] w0].
    + run_finish w0 T.
      * destruct T as (-> & _). do 2 eexists. split; [reflexivity|].
        split; [|intros N; now contradiction N].
        split; [reflexivity|]. split; [set_solver|]. split; [reflexivity|].
        intros N. now contradiction N.
      * unfold World.ret. do 2 eexists. split; [reflexivity|].
        split; intros N; now contradiction N.
    + unfold World.ret. do 2 eexists. split; [reflexivity|].
      split; intros N; now contradiction N.
  - (* airlines *)
    eval_string_tests. eval_signature. after_pure_processor. run_finish w T.
    + destruct T as (-> & L & K). do 2 eexists. split; [reflexivity|].
      unfold one_if_any in L.
      destruct (airline_partition data) as [P1 P2].
      split; [|intros _ O; destruct (K O) as [K1 K2]; split;
               [exact K2 | intros ? ? ? ? [= _ _ <- _]; exact K1]].
      split; [reflexivity|]. split; [set_solver|]. split; [reflexivity|].
      intros _. rewrite P2 in *. cbn [List.length] in *.
      split; [lia|]. split; [intros N; now contradiction N | exact L].
    + destruct T as (L & K). unfold World.ret. do 2 eexists. split; [reflexivity|].
      split; [intros _; split; [discriminate | lia]|].
      intros _ O. split; [rewrite (K O); lia | discriminate].
  - (* flights *)
    eval_string_tests. eval_signature. after_pure_processor. run_finish w T.
    + destruct T as (-> & L & K). do 2 eexists. split; [reflexivity|].
      unfold one_if_any in L.
      pose proof (collect_partition PFlight processFlightRow data) as P.
      fold (processFlightData data) in P.
      split; [|intros _ O; destruct (K O) as [K1 K2]; split;
               [exact K2 | intros ? ? ? ? [= _ _ <- _]; exact K1]].
      split; [reflexivity|]. split; [set_solver|]. split; [reflexivity|].
      intros _. split; [lia|]. split; [intros _; exact P | exact L].
    + destruct T as (L & K). unfold World.ret. do 2 eexists. split; [reflexivity|].
      split; [intros _; split; [discriminate | lia]|].
      intros _ O. split; [rewrite (K O); lia | discriminate].
  - (* travel-agency sales *)
    eval_string_tests. eval_signature. after_pure_processor. run_finish w T.
    + destruct T as (-> & L & K). do 2 eexists. split; [reflexivity|].
      unfold one_if_any in L.
      pose proof (collect_partition PSale
                    (processSalesRow isoDateOf "travel_agency") data) as P.
      fold (processSalesData isoDateOf data "travel_agency") in P.
      split; [|intros _ O; destruct (K O) as [K1 K2]; split;
               [exact K2 | intros ? ? ? ? [= _ _ <- _]; exact K1]].
      split; [reflexivity|]. split; [set_solver|]. split; [reflexivity|].
      intros _. split; [lia|]. split; [intros _; exact P | exact L].
    + destruct T as (L & K). unfold World.ret. do 2 eexists. split; [reflexivity|].
      split; [intros _; split; [discriminate | lia]|].
      intros _ O. split; [rewrite (K O); lia | discriminate].
  - (* corporate sales *)
    eval_string_tests. eval_signature. after_pure_processor. run_finish w T.
    + destruct T as (-> & L & K). do 2 eexists. split; [reflexivity|].
      unfold one_if_any in L.
      pose proof (collect_partition PSale
                    (processSalesRow isoDateOf "corporate") data) as P.
      fold (processSalesData isoDateOf data "corporate") in P.
      split; [|intros _ O; destruct (K O) as [K1 K2]; split;
               [exact K2 | intros ? ? ? ? [= _ _ <- _]; exact K1]].
      split; [reflexivity|]. split; [set_solver|]. split; [reflexivity|].
      intros _. split; [lia|]. split; [intros _; exact P | exact L].
    + destruct T as (L & K). unfold World.ret. do 2 eexists. split; [reflexivity|].
      split; [intros _; split; [discriminate | lia]|].
      intros _ O. split; [rewrite (K O); lia | discriminate].
  - (* unknown *)
    eval_string_tests. unfold World.throw, World.ret. do 2 eexists.
    split; [reflexivity|]. split; [intros _; split; [reflexivity | lia]|].
    intros _ _. split; [lia | discriminate].
Qed.

End Outcome.

End FileProps.

(** X22. [processFile] never throws: every error becomes a [Failed] result.
    A [Succeeded] result names the detected type, which is one of the six of
    the registry, and the number of rows of the file. For every type but
    airports, the clean and rejected records of the summary are together at
    most the rows of the file, and exactly as many for every type but
    airlines, whose processor drops rows silently; the run makes one store
    call if there are clean records and one if there are rejected ones. A
    file of unknown type fails without any call. *)
Theorem X22_processFile_summary
    (isoDateOf : option string -> option string)
    (processAirportData : list Row -> World.M SmartFileProcessor.Processed)
    (headers : list string) (data : list Row) (w : World.t) :
  exists r w',
    SmartFileProcessor.processFile isoDateOf processAirportData headers data w
    = (World.Val r, w')
    /\ match r with
       | SmartFileProcessor.Succeeded ft t c d =>
           ft = SmartFileProcessor.detectFileType headers
           /\ ft ∈ Vocab.file_types
           /\ t = List.length data
           /\ (ft <> "airports" ->
               c + d <= t
               /\ (ft <> "airlines" -> c + d = t)
               /\ Vocab.calls_between w w'
                  = (if (0 <? c)%nat then 1 else 0) + (if (0 <? d)%nat then 1 else 0))
       | SmartFileProcessor.Failed _ =>
           SmartFileProcessor.detectFileType headers <> "airports" ->
           (SmartFileProcessor.detectFileType headers = "unknown" -> w' = w)
           /\ Vocab.calls_between w w' <= 2
       end.
Proof.
  destruct (FileProps.processFile_outcome isoDateOf processAirportData headers data w)
    as (r & w' & E & H & _).
  exists r, w'. split; [exact E|]. unfold Vocab.calls_between.
  destruct r as [ft t c d|msg].
  - destruct H as (H1 & H2 & H3 & H4). repeat split; try assumption;
      destruct (H4 ltac:(assumption)) as (A & B & C); auto; lia.
  - intros N. destruct (H N) as [A B]. split; [exact A | lia].
Qed.

Lemma X22_processFile_witness :
  exists r w',
    SmartFileProcessor.processFile Scenarios.iso_date Scenarios.no_airports
      Scenarios.passenger_headers [Scenarios.jane "P001"; Scenarios.jane "17"]
      Scenarios.always_ok
    = (World.Val r, w')
    /\ r = SmartFileProcessor.Succeeded "passengers" 2 1 1
    /\ Vocab.calls_between Scenarios.always_ok w' = 2.
Proof.
  destruct (X22_processFile_summary Scenarios.iso_date Scenarios.no_airports
              Scenarios.passenger_headers [Scenarios.jane "P001"; Scenarios.jane "17"]
              Scenarios.always_ok) as (r & w' & E & H).
  exists r, w'. split; [exact E|].
  assert (R : r = SmartFileProcessor.Succeeded "passengers" 2 1 1)
    by (vm_compute in E; congruence).
  split; [exact R|]. subst r.
  destruct H as (_ & _ & _ & H).
  destruct H as (_ & _ & C); [discriminate | exact C].
Defined.

(** X23. When the store does not accept the first call of [processFile] on
    a file that is not an airport file, there is no second call, and the run
    does not succeed with clean records: after a failed upsert of the clean
    records the rejected rows of the file are not saved. *)
Theorem X23_failed_upsert_loses_the_rejected_rows
    (isoDateOf : option string -> option string)
    (processAirportData : list Row -> World.M SmartFileProcessor.Processed)
    (headers : list string) (data : list Row) (w : World.t) :
  SmartFileProcessor.detectFileType headers <> "airports" ->
  Spec.is_ok (World.oracle w (List.length (World.trace w))) = false ->
  exists r w',
    SmartFileProcessor.processFile isoDateOf processAirportData headers data w
    = (World.Val r, w')
    /\ Vocab.calls_between w w' <= 1
    /\ forall ft t c d, r = SmartFileProcessor.Succeeded ft t c d -> c = 0.
Proof.
  intros N O.
  destruct (FileProps.processFile_outcome isoDateOf processAirportData headers data w)
    as (r & w' & E & _ & H).
  exists r, w'. split; [exact E|]. unfold Vocab.calls_between.
  destruct (H N O) as [A B]. split; [lia | exact B].
Qed.

Lemma X23_failed_upsert_witness :
  SmartFileProcessor.processFile Scenarios.iso_date Scenarios.no_airports
    Scenarios.passenger_headers [Scenarios.jane "P001"; Scenarios.jane "17"]
    (Scenarios.always (World.RError None "connection lost"))
  = (World.Val (SmartFileProcessor.Failed "connection lost"),
     World.after_call (Scenarios.always (World.RError None "connection lost"))
       (World.Upsert "dim_passenger" [PPassenger (Scenarios.jane_record "gold")]
          "passenger_key"))
  /\ exists r w',
       SmartFileProcessor.processFile Scenarios.iso_date Scenarios.no_airports
         Scenarios.passenger_headers [Scenarios.jane "P001"; Scenarios.jane "17"]
         (Scenarios.always (World.RError None "connection lost"))
       = (World.Val r, w')
       /\ Vocab.calls_between (Scenarios.always (World.RError None "connection lost")) w'
          <= 1
       /\ forall ft t c d, r = SmartFileProcessor.Succeeded ft t c d -> c = 0.
Proof.
  split; [vm_compute; reflexivity|].
  apply (X23_failed_upsert_loses_the_rejected_rows Scenarios.iso_date
           Scenarios.no_airports Scenarios.passenger_headers
           [Scenarios.jane "P001"; Scenarios.jane "17"]
           (Scenarios.always (World.RError None "connection lost"))).
  - vm_compute. discriminate.
  - reflexivity.
Defined.

(** ** Saving the quarantine of the sales run *)

Module DirtySaveProps.
Import SalesUploader Vocab.

Lemma saved_app tr1 tr2 : saved (tr1 ++ tr2) = saved tr1 ++ saved tr2.
Proof. unfold saved. apply flat_map_app. Qed.

Lemma inserted_app tr1 tr2 : inserted (tr1 ++ tr2) = inserted tr1 ++ inserted tr2.
Proof. unfold inserted. apply flat_map_app. Qed.

Lemma backed_up_app tr1 tr2 : backed_up (tr1 ++ tr2) = backed_up tr1 ++ backed_up tr2.
Proof. unfold backed_up. apply flat_map_app. Qed.

(** Every saved record is an inserted one or a backed-up one. *)
Lemma saved_split tr :
  Forall saving_call tr -> saved tr ≡ₚ inserted tr ++ backed_up tr.
Proof.
  induction 1 as [|[c r] tr H _ IH]; [reflexivity|].
  change ((c, r) :: tr) with ([(c, r)] ++ tr).
  rewrite saved_app, inserted_app, backed_up_app, IH.
  destruct c as [| |b|path b]; try contradiction;
    destruct r; cbn in H |- *; try contradiction;
    rewrite ?app_nil_r; solve_Permutation.
Qed.

(** The loop that saves the quarantine: when it returns, the calls it made
    are inserts and successful backup lines, and the records they saved
    are those of the batches, in order. *)
Lemma save_dirty_batches_outcome bs : forall n w,
  match save_dirty_batches n bs w with
  | (World.Val n', w') =>
      exists tr,
        World.trace w' = World.trace w ++ tr
        /\ Forall saving_call tr
        /\ saved tr = concat bs
        /\ n' = n + List.length (inserted tr)
  | (World.Exn _, _) => True
  end.
Proof.
  induction bs as [|b bs IH]; intros n w; cbn [save_dirty_batches concat].
  - unfold World.ret. exists []. rewrite app_nil_r. cbn.
    repeat split; [constructor | lia].
  - unfold World.bind at 1, save_dirty_batch, World.bind, World.store,
      World.appendFileSync, World.ret.
    destruct (World.oracle w (List.length (World.trace w))) as [|c m|m] eqn:R1;
      cbn [World.oracle World.trace]; [| |exact I].
    + match goal with
      | |- context [save_dirty_batches ?n1 bs ?w1] =>
          specialize (IH n1 w1); destruct (save_dirty_batches n1 bs w1) as [[n'|m'] w']
      end; [|exact I].
      destruct IH as (tr & T & F & S & N). cbn [World.trace] in T.
      exists ([(World.InsertDirty b, World.ROk)] ++ tr).
      rewrite T, <- app_assoc, saved_app, inserted_app, List.length_app, S.
      split; [reflexivity|]. split; [constructor; [exact I | exact F]|].
      cbn. rewrite app_nil_r. split; [reflexivity | lia].
    + destruct (World.oracle w (List.length (World.trace w ++ _))) as [|c2 m2|m2] eqn:R2;
        cbn [World.oracle World.trace]; [| exact I | exact I].
      match goal with
      | |- context [save_dirty_batches ?n1 bs ?w1] =>
          specialize (IH n1 w1); destruct (save_dirty_batches n1 bs w1) as [[n'|m'] w']
      end; [|exact I].
      destruct IH as (tr & T & F & S & N). cbn [World.trace] in T.
      exists ([(World.InsertDirty b, World.RError c m);
               (World.AppendFile "dirty_sales_backup.json" b, World.ROk)] ++ tr).
      rewrite T, <- !app_assoc, saved_app, inserted_app, List.length_app, S.
      split; [reflexivity|].
      split; [constructor; [exact I|]; constructor; [reflexivity | exact F]|].
      cbn. rewrite app_nil_r. split; [reflexivity | lia].
Qed.

End DirtySaveProps.

(** X24. When the loop that saves the quarantine of [uploadAllSales]
    returns, no record is lost. The calls it made are inserts into the
    quarantine table and lines appended to the backup file, all of which
    succeeded; the records of the accepted inserts and of the backup lines,
    taken in the order of the calls, are the records of the quarantine list,
    each one once and in order; and [dirtySaved] counts those of the
    accepted inserts. *)
Theorem X24_sales_quarantine_is_saved_or_backed_up
    (allDirty : list DirtyRecord) (w w' : World.t) (dirtySaved : nat) :
  SalesUploader.save_dirty allDirty w = (World.Val dirtySaved, w') ->
  exists tr,
    World.trace w' = World.trace w ++ tr
    /\ Forall Vocab.saving_call tr
    /\ Vocab.saved tr = allDirty
    /\ Vocab.inserted tr ++ Vocab.backed_up tr ≡ₚ allDirty
    /\ dirtySaved = List.length (Vocab.inserted tr)
    /\ List.length (Vocab.inserted tr) + List.length (Vocab.backed_up tr)
       = List.length allDirty.
Proof.
  unfold SalesUploader.save_dirty. intros E.
  pose proof (DirtySaveProps.save_dirty_batches_outcome
                (World.batches SalesUploader.dirtyBatchSize allDirty) 0 w) as H.
  rewrite E, SalesLoadProps.dirty_batches_cover in H.
  destruct H as (tr & T & F & S & N). exists tr.
  pose proof (DirtySaveProps.saved_split tr F) as P. rewrite S in P.
  split; [exact T|]. split; [exact F|]. split; [exact S|].
  split; [now symmetry|]. split; [exact N|].
  now rewrite <- List.length_app, <- P.
Qed.

Lemma X24_sales_quarantine_witness :
  exists tr,
    World.trace
      (snd (SalesUploader.save_dirty
              [Spec.within_file_duplicate "corporate" (Scenarios.sales_row "7" "P001" "1")]
              (Scenarios.answering [World.RError None "timeout"])))
    = World.trace (Scenarios.answering [World.RError None "timeout"]) ++ tr
    /\ Vocab.saved tr
       = [Spec.within_file_duplicate "corporate" (Scenarios.sales_row "7" "P001" "1")]
    /\ Vocab.inserted tr = []
    /\ Vocab.backed_up tr
       = [Spec.within_file_duplicate "corporate" (Scenarios.sales_row "7" "P001" "1")].
Proof.
  destruct (X24_sales_quarantine_is_saved_or_backed_up
              [Spec.within_file_duplicate "corporate" (Scenarios.sales_row "7" "P001" "1")]
              (Scenarios.answering [World.RError None "timeout"])
              (snd (SalesUploader.save_dirty
                      [Spec.within_file_duplicate "corporate"
                         (Scenarios.sales_row "7" "P001" "1")]
                      (Scenarios.answering [World.RError None "timeout"])))
              0)
    as (tr & T & _ & S & P & N & _); [vm_compute; reflexivity|].
  exists tr. split; [exact T|]. split; [exact S|].
  assert (I : Vocab.inserted tr = [])
    by (destruct (Vocab.inserted tr); [reflexivity | discriminate N]).
  split; [exact I|].
  rewrite I in P. cbn [app] in P.
  now apply Permutation_singleton_r in P.
Defined.

(** ** The two sales pipelines *)

Module PipelineProps.
Import JS Vocab.

Lemma id_agrees sourceType (r : Row) t :
  r !! "TransactionID" = Some t ->
  (if String.eqb sourceType "travel_agency"
   then "TA" +:+ padStart 6 "0" (digits_of (trim t))
   else "CO" +:+ padStart 6 "0" (digits_of (trim t)))
  = SalesUploader.transactionId_of sourceType r.
Proof.
  intros H. unfold SalesUploader.transactionId_of. rewrite H.
  cbn [fmap option_fmap option_map].
  destruct (String.eqb_spec (digits_of (trim t)) "") as [->|N]; reflexivity.
Qed.

End PipelineProps.

(** X25. The sales loader and [processSalesData] agree on a row that has a
    transaction ID cell. A row that the processor rejects is not kept by the
    loader either. A row that the processor accepts gets the same
    transaction ID from both, and the loader keeps it exactly when that ID
    is new in the file and the row has a ticket price; the two records then
    have the same date key, passenger key, flight key and source. *)
Theorem X25_sales_pipelines_agree
    (isoDateOf : option string -> option string) (sourceType : string)
    (st : SalesUploader.FileState) (r : Row) :
  r !! "TransactionID" <> None ->
  match SmartFileProcessor.processSalesRow isoDateOf sourceType r with
  | inl s =>
      Sale.transaction_id s = SalesUploader.transactionId_of sourceType r
      /\ if decide (Sale.transaction_id s ∈ SalesUploader.seenTransactionIds st)
         then SalesUploader.sales (SalesUploader.on_data isoDateOf sourceType st r)
              = SalesUploader.sales st
         else if JS.truthy (r !! "TicketPrice")
         then exists s',
                SalesUploader.sales (SalesUploader.on_data isoDateOf sourceType st r)
                = SalesUploader.sales st ++ [s']
                /\ Vocab.same_keys s s'
         else SalesUploader.sales (SalesUploader.on_data isoDateOf sourceType st r)
              = SalesUploader.sales st
  | inr _ =>
      SalesUploader.sales (SalesUploader.on_data isoDateOf sourceType st r)
      = SalesUploader.sales st
  end.
Proof.
  intros H. destruct (r !! "TransactionID") as [t|] eqn:T; [clear H | contradiction].
  unfold SmartFileProcessor.processSalesRow, SalesUploader.on_data.
  change (SalesUploader.standardizePassengerKey
            (JS.or (r !! "PassengerID") (r !! "PassengerKey")))
    with (SmartFileProcessor.standardizePassengerKey
            (JS.or (r !! "PassengerID") (r !! "PassengerKey"))).
  unfold SalesUploader.standardizeDate, SmartFileProcessor.standardizeDate.
  rewrite T. cbn [fmap option_fmap option_map].
  rewrite (PipelineProps.id_agrees sourceType r t T).
  destruct (SmartFileProcessor.standardizePassengerKey _) as [key|].
  - destruct (JS.truthy (JS.or (r !! "FlightID") (r !! "FlightKey"))); cbn [negb].
    + destruct (isoDateOf _) as [date|].
      * cbn [Sale.transaction_id]. split; [reflexivity|].
        destruct (decide _); [reflexivity|].
        destruct (JS.truthy (r !! "TicketPrice")); cbn [negb]; [|reflexivity].
        eexists. split; [reflexivity|]. repeat split.
      * destruct (decide _); reflexivity.
    + destruct (decide _); reflexivity.
  - destruct (decide _); reflexivity.
Qed.

Lemma X25_sales_pipelines_witness :
  exists s s',
    SmartFileProcessor.processSalesRow Scenarios.iso_date "travel_agency"
      (Scenarios.sales_row "TXN-7" "P001" "-$40") = inl s
    /\ SalesUploader.sales
         (SalesUploader.on_data Scenarios.iso_date "travel_agency"
            SalesUploader.empty_file (Scenarios.sales_row "TXN-7" "P001" "-$40"))
       = [s']
    /\ Vocab.same_keys s s'.
Proof.
  pose proof (X25_sales_pipelines_agree Scenarios.iso_date "travel_agency"
                SalesUploader.empty_file (Scenarios.sales_row "TXN-7" "P001" "-$40"))
    as H.
  destruct (SmartFileProcessor.processSalesRow Scenarios.iso_date "travel_agency"
              (Scenarios.sales_row "TXN-7" "P001" "-$40")) as [s|d] eqn:E;
    [|vm_compute in E; discriminate].
  destruct H as [_ H]; [vm_compute; discriminate|].
  destruct (decide _) as [Seen|_]; [now apply elem_of_empty in Seen|].
  destruct (JS.truthy _) eqn:P; [|vm_compute in P; discriminate].
  destruct H as (s' & H1 & H2). exists s, s'. repeat split; try assumption; apply H2.
Defined.

(** X26. [uploadPassengers] never throws, and its summary adds up: the
    passengers counted by the load loop, the duplicates and the invalid keys
    are together as many as the rows of the file. The load loop is skipped
    exactly when no row gave a clean passenger. *)
Theorem X26_passenger_run_accounts_for_every_row (rows : list Row) (w : World.t) :
  exists scan load w',
    PassengerUploader.uploadPassengers rows w = (World.Val (scan, load), w')
    /\ match load with
       | Some st => Vocab.counted_passengers st
       | None => 0
       end
       + List.length (PassengerUploader.duplicates scan)
       + List.length (PassengerUploader.invalidKeys scan)
       = List.length rows
    /\ (load = None <-> Spec.uniquePassengers scan = []).
Proof.
  unfold PassengerUploader.uploadPassengers, World.bind at 1.
  destruct (ScanInvariants.scan_rows_steps rows PassengerUploader.scan_init 0 w)
    as (scan & w1 & -> & _ & _ & L & _ & _).
  cbn [PassengerUploader.scan_init PassengerUploader.passengerMap
       PassengerUploader.duplicates PassengerUploader.invalidKeys List.length] in L.
  fold (Spec.uniquePassengers scan).
  assert (U : List.length (Spec.uniquePassengers scan)
              = List.length (PassengerUploader.passengerMap scan))
    by (unfold Spec.uniquePassengers; apply length_map).
  destruct (Spec.uniquePassengers scan) as [|p l] eqn:E; cbn [List.length Nat.ltb Nat.leb].
  - unfold World.ret. exists scan, None, w1. split; [reflexivity|].
    cbn [List.length] in U. split; [lia | split; [intros _; exact E | reflexivity]].
  - unfold World.bind, PassengerUploader.upload_clean.
    match goal with
    | |- context [PassengerUploader.insert_batches ?st0 ?bs w1] =>
        destruct (PassengerCountProps.insert_batches_counts bs st0 w1)
          as (st & w2 & more & -> & C & _)
    end.
    rewrite BatchProps.passenger_batches_cover in C.
    unfold World.ret. exists scan, (Some st), w2. split; [reflexivity|].
    cbn [List.length] in U, C. unfold Vocab.counted_passengers in *. cbn in C.
    split; [lia | split; [discriminate | rewrite E; discriminate]].
Qed.
